(** * SLUSD website crawler: a shallow embedding and its properties

    The repository holds two variants of one crawler:
    - [web_crawler_regex.py]              (module [Baseline], address "835 E. 14th St"),
    - [web_crawler_regex_fast_juniper.py] (module [Fast], address "14735 Juniper St").

    Python [str] values are Rocq strings whose characters are the code points
    0..255; the tables for [\s], [\w] and case folding below are Python's
    tables on that range.  Library calls ([requests], [BeautifulSoup],
    [PyPDF2], [urlparse], [datetime]) are represented by their outcomes,
    supplied by a [Web] record.

    The two files of the crawler are the text that they hold: the findings
    file as [csv.writer] writes it, the progress file as the five writes of
    [save_progress] leave it.  Writing to these files and printing are
    taken to return.  An interrupt can arrive at any step of [crawl_site],
    also between the writes of [save_progress] and between the two updates
    of [record_finding]; the states that a run passes through are listed
    for that. *)

From Stdlib Require Import String Ascii NArith ZArith List Bool Lia.
From Stdlib Require DecimalString.
From stdpp Require Import base option list strings gmap.

Local Open Scope string_scope.
Local Open Scope list_scope.
Local Arguments Nat.modulo : simpl never.
Local Arguments Nat.div : simpl never.
Local Arguments String.append !_ _ / : simpl nomatch.

(** ** Python strings *)

Module Str.

Definition code (c : ascii) : N := N_of_ascii c.

Definition between (lo hi : N) (c : ascii) : bool :=
  (lo <=? code c)%N && (code c <=? hi)%N.

(** [str.isspace] on one character, which is also the class [\s] of a
    [str] pattern. *)
Definition is_space (c : ascii) : bool :=
  between 9 13 c || between 28 32 c || (code c =? 133)%N || (code c =? 160)%N.

(** The class [\w] of a [str] pattern: [str.isalnum] or the underscore. *)
Definition is_word (c : ascii) : bool :=
  between 48 57 c || between 65 90 c || between 97 122 c || (code c =? 95)%N
  || (code c =? 170)%N || (code c =? 178)%N || (code c =? 179)%N
  || (code c =? 181)%N || (code c =? 185)%N || (code c =? 186)%N
  || between 188 190 c || between 192 214 c || between 216 246 c
  || between 248 255 c.

(** [str.lower] on one character. *)
Definition lower_char (c : ascii) : ascii :=
  if between 65 90 c || (between 192 222 c && negb (code c =? 215)%N)
  then ascii_of_N (code c + 32) else c.

Fixpoint lower (s : string) : string :=
  match s with
  | EmptyString => EmptyString
  | String c s' => String (lower_char c) (lower s')
  end.

(** [t.startswith(q)] *)
Fixpoint startswith (q t : string) : bool :=
  match q, t with
  | EmptyString, _ => true
  | String a q', String b t' => Ascii.eqb a b && startswith q' t'
  | String _ _, EmptyString => false
  end.

(** [q in t] *)
Fixpoint contains (q t : string) : bool :=
  startswith q t ||
  match t with
  | EmptyString => false
  | String _ t' => contains q t'
  end.

(** [t.endswith(q)] *)
Fixpoint endswith (q t : string) : bool :=
  String.eqb q t ||
  match t with
  | EmptyString => false
  | String _ t' => endswith q t'
  end.

Fixpoint drop_prefix (q t : string) : option string :=
  match q, t with
  | EmptyString, _ => Some t
  | String a q', String b t' =>
      if Ascii.eqb a b then drop_prefix q' t' else None
  | String _ _, EmptyString => None
  end.

(** [t.partition(sep)]: the text before the first [sep], and the text
    after it when there is one. *)
Fixpoint partition (sep t : string) : string * option string :=
  match drop_prefix sep t with
  | Some r => (EmptyString, Some r)
  | None =>
      match t with
      | EmptyString => (EmptyString, None)
      | String x t' =>
          let '(a, b) := partition sep t' in (String x a, b)
      end
  end.

Fixpoint lstrip (s : string) : string :=
  match s with
  | String c s' => if is_space c then lstrip s' else s
  | EmptyString => EmptyString
  end.

(** [s.strip()] *)
Definition strip (s : string) : string :=
  String.rev (lstrip (String.rev (lstrip s))).

(** [re.sub(r'[^\x00-\x7F]+', ' ', s)]; [in_run] says that the previous
    character was already replaced. *)
Fixpoint sub_non_ascii (in_run : bool) (s : string) : string :=
  match s with
  | EmptyString => EmptyString
  | String c s' =>
      if (code c <? 128)%N then String c (sub_non_ascii false s')
      else if in_run then sub_non_ascii true s'
      else String " " (sub_non_ascii true s')
  end.

(** Python truthiness of a string. *)
Definition truthy (s : string) : bool :=
  match s with EmptyString => false | String _ _ => true end.

(** [t] holds [q] as a contiguous substring. *)
Definition Substring (q t : string) : Prop :=
  exists a b, t = a +:+ q +:+ b.

(** [str(n)] of a number that is not negative. *)
Definition of_nat (n : nat) : string :=
  DecimalString.NilEmpty.string_of_uint (Nat.to_uint n).

(** The line break, the carriage return and the quote character. *)
Definition LF : ascii := ascii_of_N 10.
Definition CR : ascii := ascii_of_N 13.
Definition quote : ascii := ascii_of_N 34.

End Str.

(** ** The fragment of Python's [re] the crawler's patterns use *)

Module Re.

Inductive re : Type :=
| Eps                      (* the empty pattern *)
| Chr (c : ascii)          (* a literal character, under IGNORECASE *)
| Space                    (* \s *)
| Word                     (* \w *)
| Eol                      (* $ *)
| Seq (r1 r2 : re)         (* r1 r2 *)
| Alt (r1 r2 : re)         (* r1|r2 *)
| Opt (r : re)             (* r?  greedy *)
| Star (r : re)            (* r*  greedy *)
| NotAhead (r : re).       (* (?!r) *)

(** A literal under IGNORECASE: the text character is accepted when it
    folds to the same lower-case character as the pattern's. *)
Definition ci_eqb (p x : ascii) : bool :=
  Ascii.eqb (Str.lower_char x) (Str.lower_char p).

Definition one (ok : ascii -> bool) (s : string) : list (string * string) :=
  match s with
  | String x s' => if ok x then [(String x EmptyString, s')] else []
  | EmptyString => []
  end.

Definition newline : ascii := ascii_of_N 10.

Definition at_end (s : string) : bool :=
  match s with
  | EmptyString => true
  | String c EmptyString => Ascii.eqb c newline
  | _ => false
  end.

(** Greedy repetition of a matcher [step]; an iteration that consumes
    nothing ends the loop.  [n] bounds the number of iterations. *)
Fixpoint star (step : string -> list (string * string)) (n : nat) (s : string)
  : list (string * string) :=
  match n with
  | O => [(EmptyString, s)]
  | S n' =>
      flat_map (fun '(m1, s1) =>
                  match m1 with
                  | EmptyString => []
                  | _ => map (fun '(m2, s2) => (m1 +:+ m2, s2)) (star step n' s1)
                  end)
               (step s)
      ++ [(EmptyString, s)]
  end.

(** The backtracking matcher started at the head of [s]: every way the
    pattern can match, as (matched text, remaining text), in the order the
    engine tries them.  The engine reports the first. *)
Fixpoint matches (r : re) (s : string) : list (string * string) :=
  match r with
  | Eps => [(EmptyString, s)]
  | Chr c => one (ci_eqb c) s
  | Space => one Str.is_space s
  | Word => one Str.is_word s
  | Eol => if at_end s then [(EmptyString, s)] else []
  | Seq r1 r2 =>
      flat_map (fun '(m1, s1) =>
                  map (fun '(m2, s2) => (m1 +:+ m2, s2)) (matches r2 s1))
               (matches r1 s)
  | Alt r1 r2 => matches r1 s ++ matches r2 s
  | Opt r1 => matches r1 s ++ [(EmptyString, s)]
  | Star r1 => star (matches r1) (String.length s) s
  | NotAhead r1 =>
      match matches r1 s with
      | [] => [(EmptyString, s)]
      | _ :: _ => []
      end
  end.

(** [pattern.search(text)] followed by [.group()]: the leftmost start
    position at which the pattern matches, [None] when there is none. *)
Fixpoint search (r : re) (text : string) : option string :=
  match matches r text with
  | (m, _) :: _ => Some m
  | [] =>
      match text with
      | EmptyString => None
      | String _ text' => search r text'
      end
  end.

(** *** Reading a pattern string *)

Definition is_meta (c : ascii) : bool :=
  existsb (Ascii.eqb c) (list_ascii_of_string "()|?*$\+[]{}.^").

Definition quantified (r : re) (s : string) : re * string :=
  match s with
  | String "?" s' => (Opt r, s')
  | String "*" s' => (Star r, s')
  | _ => (r, s)
  end.

(** [\s], [\w], or an escaped punctuation character; the other escapes
    are not part of the fragment. *)
Definition escape (c : ascii) : option re :=
  if Ascii.eqb c "s" then Some Space
  else if Ascii.eqb c "w" then Some Word
  else if Str.is_word c || Str.between 128 255 c then None
  else Some (Chr c).

Section Parser.
(** The parser of a whole alternation, used inside groups. *)
Variable parse_group : string -> option (re * string).

Definition closed (mk : re -> re) (s : string) : option (re * string) :=
  match parse_group s with
  | Some (r, String ")" s') => Some (mk r, s')
  | _ => None
  end.

Definition parse_atom (s : string) : option (re * string) :=
  match s with
  | String "(" (String "?" (String ":" s')) => closed (fun r => r) s'
  | String "(" (String "?" (String "!" s')) => closed NotAhead s'
  | String "\" (String c s') => r ← escape c; Some (r, s')
  | String "$" s' => Some (Eol, s')
  | String c s' => if is_meta c then None else Some (Chr c, s')
  | EmptyString => None
  end.

Fixpoint parse_seq (n : nat) (s : string) : option (re * string) :=
  match s with
  | EmptyString | String ")" _ | String "|" _ => Some (Eps, s)
  | _ =>
      match n with
      | O => None
      | S n' =>
          match parse_atom s with
          | Some (a, s1) =>
              let '(q, s2) := quantified a s1 in
              match parse_seq n' s2 with
              | Some (r, s3) => Some (Seq q r, s3)
              | None => None
              end
          | None => None
          end
      end
  end.
End Parser.

Fixpoint parse_alt (n : nat) (s : string) : option (re * string) :=
  match n with
  | O => None
  | S n' =>
      match parse_seq (parse_alt n') (String.length s) s with
      | Some (r1, String "|" s1) =>
          match parse_alt n' s1 with
          | Some (r2, s2) => Some (Alt r1 r2, s2)
          | None => None
          end
      | other => other
      end
  end.

(** [re.compile(pattern, re.IGNORECASE)]; [None] stands for [re.error]. *)
Definition compile (pattern : string) : option re :=
  match parse_alt (S (String.length pattern)) pattern with
  | Some (r, EmptyString) => Some r
  | _ => None
  end.

Definition compile_all (patterns : list string) : list re :=
  default [] (mapM compile patterns).

End Re.


Import Re.

(** ** The crawler's data *)

(** What a call into a library gives back: a value, or a raised exception. *)
Inductive Outcome (A : Type) : Type :=
| Raised
| Returned (a : A).
Arguments Raised {A}.
Arguments Returned {A} a.

(** The dictionary [result] built by [record_finding]. *)
Record Result : Type := {
  URL : string;
  Type_ : string;
  Title : option string;
  Address_Found : option string;
  Notes : string;
  Parent_Page : string;
  Timestamp : string
}.

Definition fieldnames : list string :=
  ["URL"; "Type"; "Title"; "Address Found"; "Notes"; "Parent Page"; "Timestamp"].

(** [csv] writes [None] as the empty cell. *)
Definition cell (v : option string) : string := default "" v.

(** The row [DictWriter.writerow(result)] writes, one cell per field name. *)
Definition writerow (r : Result) : list string :=
  [URL r; Type_ r; cell (Title r); cell (Address_Found r); Notes r;
   Parent_Page r; Timestamp r].

(** The text that [csv.writer] with the default dialect writes for a row:
    a cell that holds a comma, a quote or a character of the line
    terminator is put in quotes, with every quote in it doubled; the cells
    are joined by commas and the row ends with CR LF.  (A row of one empty
    cell is written in quotes; the rows here have seven cells.) *)
Definition special (c : ascii) : bool :=
  Ascii.eqb c ","%char || Ascii.eqb c Str.quote
  || Ascii.eqb c Str.CR || Ascii.eqb c Str.LF.

Fixpoint has_special (s : string) : bool :=
  match s with
  | EmptyString => false
  | String c s' => special c || has_special s'
  end.

Fixpoint double_quotes (s : string) : string :=
  match s with
  | EmptyString => EmptyString
  | String c s' =>
      if Ascii.eqb c Str.quote
      then String c (String c (double_quotes s'))
      else String c (double_quotes s')
  end.

Definition csv_field (s : string) : string :=
  if has_special s
  then String Str.quote (double_quotes s +:+ String Str.quote EmptyString)
  else s.

Definition lineterminator : string :=
  String Str.CR (String Str.LF EmptyString).

Definition csv_row (cells : list string) : string :=
  String.concat "," (map csv_field cells) +:+ lineterminator.

(** The five values that [save_progress] writes. *)
Record Progress : Type := {
  Pages_crawled : nat;
  Current_URL : string;
  Found_pages : nat;
  Found_PDFs : nat;
  Last_update : string
}.

(** The five lines that [save_progress] writes, each with its line
    break. *)
Definition progress_lines (p : Progress) : list string :=
  let nl := String Str.LF EmptyString in
  [ "Pages crawled: " +:+ Str.of_nat (Pages_crawled p) +:+ nl;
    "Current URL: " +:+ Current_URL p +:+ nl;
    "Found pages: " +:+ Str.of_nat (Found_pages p) +:+ nl;
    "Found PDFs: " +:+ Str.of_nat (Found_PDFs p) +:+ nl;
    "Last update: " +:+ Last_update p +:+ nl ].

(** A file that holds the given pieces of text, one after the other. *)
Definition written (pieces : list string) : string :=
  String.concat "" pieces.

Definition progress_text (p : Progress) : string :=
  written (progress_lines p).

(** The two files of a crawler, each with the text it holds; [None] is a
    file that does not exist. *)
Record Files : Type := {
  output_file : option string;
  progress_file : option string
}.

(** What the crawl reads from a parsed page: [soup.get_text()] and
    [soup.title] ([None]: no title element) with its [.string]. *)
Record Soup : Type := {
  get_text : string;
  title : option (option string)
}.

(** A response of [session.get]. *)
Record Response : Type := {
  status_code : Z;
  content_type_header : string;            (* headers.get('content-type', '') *)
  text : option string -> Outcome string   (* .text, after the encoding override *)
}.

(** [response.raise_for_status()] raises HTTPError for a status from 400 to
    599, and for no other. *)
Definition raise_for_status (response : Response) : bool :=
  (400 <=? status_code response)%Z && (status_code response <? 600)%Z.

(** The world outside the crawler. *)
Record Web : Type := {
  (** [session.get(url, timeout=10)] of a page. *)
  session_get : string -> Outcome Response;
  (** [session.head(url, timeout=5)], read as
      [response.headers.get('content-length')]: absent or empty, or its
      [int(...)], which may raise. *)
  session_head : string -> Outcome (option (Outcome Z));
  (** [session.get(url, timeout=15)], [raise_for_status()] and
      [PyPDF2.PdfReader]: the pages, each with its [extract_text()]. *)
  pdf_reader : string -> Outcome (list (Outcome string));
  (** [BeautifulSoup(markup, parser)] *)
  BeautifulSoup : string -> string -> Outcome Soup;
  (** [extract_links(html, base_url)]: the set it returns, as the list of
      its elements in the order the [for] loop visits them. *)
  extract_links : string -> string -> list string;
  (** [urlparse(url).netloc] *)
  urlparse_netloc : string -> Outcome string;
  (** [datetime.now()], at the n-th reading of the clock. *)
  datetime_now : nat -> string
}.

(** The attributes of a [SLUSDCrawler], with its files and its clock. *)
Record Crawler : Type := {
  base_url : string;
  domain : string;
  visited_urls : gset string;
  found_pages : list Result;
  found_pdfs : list Result;
  files : Files;
  clock : nat
}.

(** What a run of [crawl_site] does, in order. *)
Inductive Event : Type :=
| Popleft (url : string)       (* url_queue.popleft() *)
| Crawling (url : string)      (* the URL is taken up: counted and marked visited *)
| Get (url : string)           (* get_page_content(url) *)
| CheckPdf (url : string)      (* check_pdf_content(url) *)
| Append (url : string)        (* url_queue.append(url) *)
| Sleep (milliseconds : N).    (* time.sleep(...) *)

(** The local variables of [crawl_site] with [self], and the events so far. *)
Record Loop : Type := {
  self : Crawler;
  url_queue : list string;
  pages_crawled : nat;
  trace : list Event
}.

(** What distinguishes the two files of the repository. *)
Record Variant : Type := {
  check_text : string -> bool * option string;        (* check_address_in_text *)
  check_pdf : Web -> string -> bool * option string;  (* check_pdf_content *)
  skip_url : string -> bool;                          (* should_skip_url *)
  delay : N;                   (* the argument of time.sleep, in milliseconds *)
  main_max_pages : nat         (* the max_pages that main passes *)
}.

(** ** Methods shared by the two files *)

Section Methods.
Variable w : Web.

(** [writeheader()] writes the row of the field names. *)
Definition init_csv_file (fs : Files) : Files :=
  match output_file fs with
  | None => {| output_file := Some (csv_row fieldnames);
               progress_file := progress_file fs |}
  | Some _ => fs
  end.

(** Mode ['a'] creates the file when it is missing, and puts what is
    written after the text that the file holds. *)
Definition append_to_csv (result : Result) (fs : Files) : Files :=
  {| output_file :=
       Some (default "" (output_file fs) +:+ csv_row (writerow result));
     progress_file := progress_file fs |}.

(** [SLUSDCrawler(base_url)] *)
Definition SLUSDCrawler (base : string) (fs : Files) : Outcome Crawler :=
  match urlparse_netloc w base with
  | Raised => Raised
  | Returned netloc =>
      Returned {| base_url := base; domain := netloc;
                  visited_urls := ∅; found_pages := []; found_pdfs := [];
                  files := init_csv_file fs; clock := 0 |}
  end.

(** What [save_progress] writes for crawler [c]. *)
Definition progress (pages : nat) (current_url : string) (c : Crawler)
  : Progress :=
  {| Pages_crawled := pages;
     Current_URL := current_url;
     Found_pages := length (found_pages c);
     Found_PDFs := length (found_pdfs c);
     Last_update := datetime_now w (clock c) |}.

(** Mode ['w'] replaces what the file holds. *)
Definition save_progress (pages : nat) (current_url : string) (c : Crawler)
  : Crawler :=
  {| base_url := base_url c; domain := domain c;
     visited_urls := visited_urls c;
     found_pages := found_pages c; found_pdfs := found_pdfs c;
     files := {| output_file := output_file (files c);
                 progress_file :=
                   Some (progress_text (progress pages current_url c)) |};
     clock := S (clock c) |}.

(** The crawler while [save_progress] is at work, when [lines] of the five
    lines are written: opening the file has emptied it, and the clock is
    read for the last line. *)
Definition saving (lines pages : nat) (current_url : string) (c : Crawler)
  : Crawler :=
  {| base_url := base_url c; domain := domain c;
     visited_urls := visited_urls c;
     found_pages := found_pages c; found_pdfs := found_pdfs c;
     files := {| output_file := output_file (files c);
                 progress_file :=
                   Some (written (take lines
                           (progress_lines (progress pages current_url c)))) |};
     clock := clock c |}.

(** The crawlers that a call of [save_progress] passes through. *)
Definition save_progress_states (pages : nat) (current_url : string)
    (c : Crawler) : list Crawler :=
  map (fun lines => saving lines pages current_url c) [0; 1; 2; 3; 4]
  ++ [save_progress pages current_url c].

Definition is_valid_url (c : Crawler) (url : string) : bool :=
  match urlparse_netloc w url with
  | Returned netloc =>
      String.eqb netloc (domain c) || String.eqb netloc ""
      || Str.endswith ".slusd.us" netloc
  | Raised => false
  end.

(** [content_type.split('charset=')[1].split(';')[0].strip()] *)
Definition charset (content_type : string) : option string :=
  match Str.partition "charset=" content_type with
  | (_, Some rest) =>
      Some (Str.strip (fst (Str.partition ";"
                              (fst (Str.partition "charset=" rest)))))
  | (_, None) => None
  end.

(** Both handlers of [get_page_content] return [(None, None)]. *)
Definition get_page_content (url : string) : option string * option string :=
  match session_get w url with
  | Raised => (None, None)
  | Returned response =>
      if raise_for_status response then (None, None)
      else
        let content_type := content_type_header response in
        match text response (charset content_type) with
        | Raised => (None, None)
        | Returned t => (Some t, Some content_type)
        end
  end.

Definition parsers : list string := ["html.parser"; "lxml"; "html5lib"].

Fixpoint first_parser (html_content : string) (ps : list string)
  : option Soup :=
  match ps with
  | [] => None
  | parser :: ps' =>
      match BeautifulSoup w html_content parser with
      | Returned soup => Some soup
      | Raised => first_parser html_content ps'
      end
  end.

Definition safe_parse_html (html_content : string) : option Soup :=
  match first_parser html_content parsers with
  | Some soup => Some soup
  | None =>
      match BeautifulSoup w (Str.sub_non_ascii false html_content)
                          "html.parser" with
      | Returned soup => Some soup
      | Raised => None
      end
  end.

(** The loop over [compiled_patterns]: the first pattern that is found
    decides. *)
Fixpoint check_each_pattern (compiled_patterns : list re) (text : string)
  : bool * option string :=
  match compiled_patterns with
  | [] => (false, None)
  | pattern :: rest =>
      match search pattern text with
      | Some m => (true, Some m)
      | None => check_each_pattern rest text
      end
  end.

(** The crawler after [record_finding] has put the result into its list,
    before it is written to the file. *)
Definition listed (url content_type : string)
    (matched_text : option string) (title : option string)
    (notes parent_page : string) (c : Crawler) : Crawler :=
  let result :=
    {| URL := url; Type_ := content_type; Title := title;
       Address_Found := matched_text; Notes := notes;
       Parent_Page := parent_page;
       Timestamp := datetime_now w (clock c) |} in
  {| base_url := base_url c; domain := domain c;
     visited_urls := visited_urls c;
     found_pages :=
       if String.eqb content_type "PDF" then found_pages c
       else found_pages c ++ [result];
     found_pdfs :=
       if String.eqb content_type "PDF" then found_pdfs c ++ [result]
       else found_pdfs c;
     files := files c;
     clock := S (clock c) |}.

Definition record_finding (url content_type : string)
    (matched_text : option string) (title : option string)
    (notes parent_page : string) (c : Crawler) : Crawler :=
  let result :=
    {| URL := url; Type_ := content_type; Title := title;
       Address_Found := matched_text; Notes := notes;
       Parent_Page := parent_page;
       Timestamp := datetime_now w (clock c) |} in
  {| base_url := base_url c; domain := domain c;
     visited_urls := visited_urls c;
     found_pages :=
       if String.eqb content_type "PDF" then found_pages c
       else found_pages c ++ [result];
     found_pdfs :=
       if String.eqb content_type "PDF" then found_pdfs c ++ [result]
       else found_pdfs c;
     files := append_to_csv result (files c);
     clock := S (clock c) |}.

(** The crawlers that a call of [record_finding] passes through. *)
Definition record_finding_states (url content_type : string)
    (matched_text : option string) (title : option string)
    (notes parent_page : string) (c : Crawler) : list Crawler :=
  [ listed url content_type matched_text title notes parent_page c;
    record_finding url content_type matched_text title notes parent_page c ].

End Methods.

(** ** web_crawler_regex.py *)

Module Baseline.

Definition address_patterns : list string :=
  [ "835\s*(?:E\.?\s*)?14th?\s*(?:St\.?)?(?!\w)";
    "835\s*E\.?\s*14th?\s*St\.?";
    "835\s*E\.?\s*14\s*St\.?";
    "835\s*14th?\s*St\.?";
    "835\s*14th?(?!\w)";
    "835\s*East\s*14th?\s*(?:St\.?|Street)?";
    "835\s*E\s*14(?!\w)" ].

Definition compiled_patterns : list re := compile_all address_patterns.

Definition check_address_in_text (compiled_patterns : list re)
    (text : string) : bool * option string :=
  if negb (Str.truthy text) then (false, None)
  else check_each_pattern compiled_patterns text.

(** [text_content += page.extract_text()], a page that raises is skipped. *)
Definition text_content (pages : list (Outcome string)) : string :=
  fold_left (fun acc page =>
               match page with
               | Returned page_text => acc +:+ page_text
               | Raised => acc
               end) pages "".

Definition check_pdf_content (compiled_patterns : list re) (w : Web)
    (url : string) : bool * option string :=
  match pdf_reader w url with
  | Raised => (false, None)
  | Returned pages =>
      check_address_in_text compiled_patterns (text_content pages)
  end.

(** The baseline file has no skip filter, sleeps 0.5 s, and its [main]
    asks for 5000 pages. *)
Definition variant : Variant :=
  {| check_text := check_address_in_text compiled_patterns;
     check_pdf := check_pdf_content compiled_patterns;
     skip_url := fun _ => false;
     delay := 500;
     main_max_pages := 5000 |}.

End Baseline.

(** ** web_crawler_regex_fast_juniper.py *)

Module Fast.

Definition address_patterns : list string :=
  [ "14735\s*Juniper\s*(?:St\.?|Street)?(?!\w)";
    "14735\s*Juniper\s*St\.?";
    "14735\s*Juniper\s*Street";
    "14735\s*Juniper(?!\w)";
    "14735\s*(?:N\.?\s*)?Juniper\s*(?:St\.?|Street)?";
    "14735\s*North\s*Juniper\s*(?:St\.?|Street)?";
    "14735\s*N\s*Juniper(?!\w)" ].

Definition compiled_patterns : list re := compile_all address_patterns.

Definition skip_url_patterns : list string :=
  [ "/css/"; "/js/"; "/images/"; "/img/"; "/assets/";
    "\.css$"; "\.js$"; "\.png$"; "\.jpg$"; "\.jpeg$"; "\.gif$"; "\.ico$";
    "\.woff$"; "\.woff2$"; "\.ttf$"; "\.eot$"; "\.svg$"; "\.webp$";
    "/feeds/"; "/rss/"; "/sitemap"; "\.xml$"; "\.json$";
    "#"; "javascript:"; "mailto:"; "tel:"; "ftp:" ].

Definition compiled_skip_patterns : list re := compile_all skip_url_patterns.

Definition quick_check : string := "14735".

Definition should_skip_url (compiled_skip_patterns : list re) (url : string)
  : bool :=
  existsb (fun pattern => bool_decide (is_Some (search pattern url)))
          compiled_skip_patterns.

Definition check_address_in_text (compiled_patterns : list re)
    (quick_check : string) (text : string) : bool * option string :=
  if negb (Str.truthy text) then (false, None)
  else if negb (Str.contains quick_check text) then (false, None)
  else check_each_pattern compiled_patterns text.

(** The loop over the pages: a page that raises is skipped, the first
    page in which the address is found ends the loop. *)
Fixpoint check_pages (compiled_patterns : list re) (quick_check : string)
    (pages : list (Outcome string)) : bool * option string :=
  match pages with
  | [] => (false, None)
  | Raised :: rest => check_pages compiled_patterns quick_check rest
  | Returned page_text :: rest =>
      if Str.contains quick_check page_text then
        match check_address_in_text compiled_patterns quick_check
                                    page_text with
        | (true, matched_text) => (true, matched_text)
        | (false, _) => check_pages compiled_patterns quick_check rest
        end
      else check_pages compiled_patterns quick_check rest
  end.

(** [size_mb > 50] with [size_mb = n / (1024 * 1024)]: the division by a
    power of two is monotone, and exact at the threshold. *)
Definition too_large (content_length : Z) : bool :=
  (50 * 1024 * 1024 <? content_length)%Z.

Definition check_pdf_content (compiled_patterns : list re)
    (quick_check : string) (w : Web) (url : string) : bool * option string :=
  match session_head w url with
  | Raised => (false, None)
  | Returned (Some Raised) => (false, None)
  | Returned size =>
      if match size with
         | Some (Returned n) => too_large n
         | _ => false
         end
      then (false, None)
      else
        match pdf_reader w url with
        | Raised => (false, None)
        | Returned pages => check_pages compiled_patterns quick_check pages
        end
  end.

(** The fast file sleeps 0.2 s, and its [main] asks for 20000 pages. *)
Definition variant : Variant :=
  {| check_text := check_address_in_text compiled_patterns quick_check;
     check_pdf := check_pdf_content compiled_patterns quick_check;
     skip_url := should_skip_url compiled_skip_patterns;
     delay := 200;
     main_max_pages := 20000 |}.

End Fast.

(** ** crawl_site and main *)

Section Crawl.
Variable V : Variant.
Variable w : Web.

Definition add_visited (url : string) (c : Crawler) : Crawler :=
  {| base_url := base_url c; domain := domain c;
     visited_urls := visited_urls c ∪ {[ url ]};
     found_pages := found_pages c; found_pdfs := found_pdfs c;
     files := files c; clock := clock c |}.

Definition emit (e : Event) (st : Loop) : Loop :=
  {| self := self st; url_queue := url_queue st;
     pages_crawled := pages_crawled st; trace := trace st ++ [e] |}.

Definition on_self (f : Crawler -> Crawler) (st : Loop) : Loop :=
  {| self := f (self st); url_queue := url_queue st;
     pages_crawled := pages_crawled st; trace := trace st |}.

Definition enqueue (url : string) (st : Loop) : Loop :=
  {| self := self st; url_queue := url_queue st ++ [url];
     pages_crawled := pages_crawled st;
     trace := trace st ++ [Append url] |}.

(** The head of the loop body (lines 237-249 of web_crawler_regex.py):
    [None] is the [continue] on a URL that was visited already.  The loop
    condition keeps the queue non-empty here. *)
Definition next_url (st : Loop) : Loop * option string :=
  match url_queue st with
  | [] => (st, None)
  | current_url :: rest =>
      let popped :=
        {| self := self st; url_queue := rest;
           pages_crawled := pages_crawled st;
           trace := trace st ++ [Popleft current_url] |} in
      if bool_decide (current_url ∈ visited_urls (self st))
      then (popped, None)
      else
        let n := S (pages_crawled st) in
        let c := add_visited current_url (self st) in
        ({| self := if (n mod 50 =? 0)%nat
                    then save_progress w n current_url c else c;
            url_queue := rest;
            pages_crawled := n;
            trace := trace popped ++ [Crawling current_url] |},
         Some current_url)
  end.

(** A PDF is checked, and recorded when the address is found in it. *)
Definition pdf (url notes parent_page : string) (st : Loop) : Loop :=
  let st1 := emit (CheckPdf url) st in
  match check_pdf V w url with
  | (true, matched_text) =>
      on_self (record_finding w url "PDF" matched_text (Some "")
                              notes parent_page) st1
  | (false, _) => st1
  end.

(** The body of [for link in links]. *)
Definition visit_link (current_url : string) (st : Loop) (link : string)
  : Loop :=
  if is_valid_url w (self st) link
     && negb (skip_url V link)
     && bool_decide (link ∉ visited_urls (self st))
     && bool_decide (link ∉ url_queue st)
  then
    if Str.endswith ".pdf" (Str.lower link)
    then pdf link "PDF document (linked)" current_url st
    else enqueue link st
  else st.

(** The [try] block and the sleep after it.  Each of the three [continue]
    statements leaves the body before the sleep.  The calls inside the
    block are taken to return: [record_finding], with its write to the
    findings file and its print, returns, so the handler of the block,
    which leaves the body without the remaining links and without the
    sleep, is not entered. *)
Definition process (current_url : string) (st : Loop) : Loop :=
  let st := emit (Get current_url) st in
  match get_page_content w current_url with
  | (None, _) | (Some EmptyString, _) => st
  | (Some html_content, content_type) =>
      if match content_type with
         | Some ct => Str.truthy ct && Str.contains "pdf" (Str.lower ct)
         | None => false
         end
      then pdf current_url "PDF document (direct access)" "" st
      else
        match safe_parse_html w html_content with
        | None => st
        | Some soup =>
            let st :=
              match check_text V (get_text soup) with
              | (true, matched_text) =>
                  on_self (record_finding w current_url "HTML Page"
                             matched_text
                             (match title soup with
                              | Some s => s
                              | None => Some "No title"
                              end)
                             "HTML page content" "") st
              | (false, _) => st
              end in
            let st :=
              fold_left (visit_link current_url)
                        (extract_links w html_content current_url) st in
            emit (Sleep (delay V)) st
        end
  end.

Definition iteration (st : Loop) : Loop :=
  match next_url st with
  | (st', Some current_url) => process current_url st'
  | (st', None) => st'
  end.

(** [url_queue and pages_crawled < max_pages] *)
Definition loop_condition (max_pages : nat) (st : Loop) : bool :=
  match url_queue st with
  | [] => false
  | _ :: _ => (pages_crawled st <? max_pages)%nat
  end.

(** The [while] loop; [None] when [fuel] iterations were not enough. *)
Fixpoint crawl_loop (fuel max_pages : nat) (st : Loop) : option Loop :=
  if loop_condition max_pages st then
    match fuel with
    | O => None
    | S fuel' => crawl_loop fuel' max_pages (iteration st)
    end
  else Some st.

Definition start (c : Crawler) : Loop :=
  {| self := c; url_queue := [base_url c]; pages_crawled := 0;
     trace := [] |}.

Definition finish (st : Loop) : Crawler * list Event :=
  (save_progress w (pages_crawled st) "COMPLETED" (self st), trace st).

(** [crawl_site(max_pages)]: the crawler it leaves and what it did. *)
Definition crawl_site (max_pages : nat) (c : Crawler)
  : option (Crawler * list Event) :=
  finish <$> crawl_loop (S max_pages) max_pages (start c).

(** The loop after at most [k] iterations. *)
Fixpoint iterations (k max_pages : nat) (st : Loop) : Loop :=
  match k with
  | O => st
  | S k' =>
      if loop_condition max_pages st
      then iterations k' max_pages (iteration st)
      else st
  end.

(** *** The states a run passes through

    An interrupt can arrive at any moment.  What [main] then finds is the
    state that the run has reached: the lists below give, for each part of
    the loop body, the states after each of its steps, in order; the last
    is the state that the part leaves.  A step is a change of the queue,
    of the visited set, of the counter, of a list of findings or of a
    file, or a call that the trace records.  A file that is open when the
    interrupt arrives is closed on the way out, and holds what was written
    to it. *)

Definition set_self (st : Loop) (c : Crawler) : Loop :=
  {| self := c; url_queue := url_queue st;
     pages_crawled := pages_crawled st; trace := trace st |}.

(** The head of the loop body: the URL is taken from the queue, put into
    the visited set, counted and announced, and every 50 pages the
    progress is saved. *)
Definition next_url_states (st : Loop) : list Loop :=
  match url_queue st with
  | [] => []
  | current_url :: rest =>
      let popped :=
        {| self := self st; url_queue := rest;
           pages_crawled := pages_crawled st;
           trace := trace st ++ [Popleft current_url] |} in
      if bool_decide (current_url ∈ visited_urls (self st))
      then [popped]
      else
        let n := S (pages_crawled st) in
        let marked := on_self (add_visited current_url) popped in
        let counted :=
          {| self := self marked; url_queue := rest; pages_crawled := n;
             trace := trace popped ++ [Crawling current_url] |} in
        [popped; marked; counted]
        ++ (if (n mod 50 =? 0)%nat
            then map (set_self counted)
                     (save_progress_states w n current_url (self counted))
            else [])
  end.

Definition pdf_states (url notes parent_page : string) (st : Loop)
  : list Loop :=
  let st1 := emit (CheckPdf url) st in
  st1 :: match check_pdf V w url with
         | (true, matched_text) =>
             map (set_self st1)
                 (record_finding_states w url "PDF" matched_text (Some "")
                                        notes parent_page (self st1))
         | (false, _) => []
         end.

Definition visit_link_states (current_url : string) (st : Loop)
    (link : string) : list Loop :=
  if is_valid_url w (self st) link
     && negb (skip_url V link)
     && bool_decide (link ∉ visited_urls (self st))
     && bool_decide (link ∉ url_queue st)
  then
    if Str.endswith ".pdf" (Str.lower link)
    then pdf_states link "PDF document (linked)" current_url st
    else [enqueue link st]
  else [].

Fixpoint visit_links_states (current_url : string) (links : list string)
    (st : Loop) : list Loop :=
  match links with
  | [] => []
  | link :: rest =>
      visit_link_states current_url st link
      ++ visit_links_states current_url rest
           (visit_link current_url st link)
  end.

Definition process_states (current_url : string) (st : Loop) : list Loop :=
  let st := emit (Get current_url) st in
  st ::
  match get_page_content w current_url with
  | (None, _) | (Some EmptyString, _) => []
  | (Some html_content, content_type) =>
      if match content_type with
         | Some ct => Str.truthy ct && Str.contains "pdf" (Str.lower ct)
         | None => false
         end
      then pdf_states current_url "PDF document (direct access)" "" st
      else
        match safe_parse_html w html_content with
        | None => []
        | Some soup =>
            let title :=
              match title soup with
              | Some s => s
              | None => Some "No title"
              end in
            let recorded :=
              match check_text V (get_text soup) with
              | (true, matched_text) =>
                  map (set_self st)
                      (record_finding_states w current_url "HTML Page"
                         matched_text title "HTML page content" ""
                         (self st))
              | (false, _) => []
              end in
            let st :=
              match check_text V (get_text soup) with
              | (true, matched_text) =>
                  on_self (record_finding w current_url "HTML Page"
                             matched_text title "HTML page content" "") st
              | (false, _) => st
              end in
            let links := extract_links w html_content current_url in
            recorded
            ++ visit_links_states current_url links st
            ++ [emit (Sleep (delay V))
                     (fold_left (visit_link current_url) links st)]
        end
  end.

Definition iteration_states (st : Loop) : list Loop :=
  next_url_states st
  ++ match next_url st with
     | (st', Some current_url) => process_states current_url st'
     | (_, None) => []
     end.

(** The states of the loop and of the save that follows it. *)
Fixpoint crawl_states (fuel max_pages : nat) (st : Loop) : list Loop :=
  if loop_condition max_pages st then
    match fuel with
    | O => []
    | S fuel' =>
        iteration_states st ++ crawl_states fuel' max_pages (iteration st)
    end
  else
    map (set_self st)
        (save_progress_states w (pages_crawled st) "COMPLETED" (self st)).

(** How [main] ends. *)
Inductive Exit : Type :=
| Completed       (* crawl_site returned *)
| Interrupted     (* the KeyboardInterrupt handler ran *)
| Traceback.      (* an exception left main *)

Record Run : Type := {
  exit : Exit;
  crawler : option Crawler;
  events : list Event
}.

(** [main()], started on the files [fs].  [signal = Some n]: the
    interrupt arrives in [crawl_site] when the run has made [n] steps; a
    run that makes fewer steps is not interrupted.  [KeyboardInterrupt] is
    no [Exception]: it passes the handlers of [crawl_site] and of the
    methods, and is caught by [main], whose handler prints the summary and
    writes no file. *)
Definition main (fs : Files) (signal : option nat) : option Run :=
  match SLUSDCrawler w "https://www.slusd.us" fs with
  | Raised => Some {| exit := Traceback; crawler := None; events := [] |}
  | Returned c =>
      let max_pages := main_max_pages V in
      let completed :=
        '(c', evs) ← crawl_site max_pages c;
        Some {| exit := Completed; crawler := Some c'; events := evs |} in
      match signal with
      | None => completed
      | Some n =>
          match (start c
                 :: crawl_states (S max_pages) max_pages (start c)) !! n with
          | Some st =>
              Some {| exit := Interrupted; crawler := Some (self st);
                      events := trace st |}
          | None => completed
          end
      end
  end.

End Crawl.

(** ** Small webs on which the crawler can be run *)

Module Demo.

Inductive Page : Type :=
| Html (page_text : string) (links : list string)
| Pdf (pages : list (Outcome string))
| Unreachable.

Fixpoint lookup (site : list (string * Page)) (url : string) : option Page :=
  match site with
  | [] => None
  | (u, p) :: site' => if String.eqb u url then Some p else lookup site' url
  end.

(** The host of an absolute URL [scheme://host/path]. *)
Definition netloc (url : string) : string :=
  match Str.partition "://" url with
  | (_, Some rest) => fst (Str.partition "/" rest)
  | (_, None) => ""
  end.

(** The web that serves [site]: a page's markup is its text, which every
    parser accepts; a URL that is not listed cannot be reached. *)
Definition web (site : list (string * Page)) : Web :=
  {| session_get := fun url =>
       match lookup site url with
       | Some (Html page_text _) =>
           Returned {| status_code := 200;
                       content_type_header := "text/html; charset=utf-8";
                       text := fun _ => Returned page_text |}
       | Some (Pdf _) =>
           Returned {| status_code := 200;
                       content_type_header := "application/pdf";
                       text := fun _ => Returned "%PDF-1.4" |}
       | Some Unreachable | None => Raised
       end;
     session_head := fun url =>
       match lookup site url with
       | Some (Pdf _) => Returned (Some (Returned 1024%Z))
       | _ => Raised
       end;
     pdf_reader := fun url =>
       match lookup site url with
       | Some (Pdf pages) => Returned pages
       | _ => Raised
       end;
     BeautifulSoup := fun markup _ =>
       Returned {| get_text := markup; title := Some (Some "Page") |};
     extract_links := fun _ url =>
       match lookup site url with
       | Some (Html _ links) => links
       | _ => []
       end;
     urlparse_netloc := fun url => Returned (netloc url);
     datetime_now := fun _ => "2025-01-01 00:00:00" |}.

Definition no_files : Files :=
  {| output_file := None; progress_file := None |}.

Definition root : string := "https://www.slusd.us".

(** The crawler that [SLUSDCrawler()] builds when no file exists yet. *)
Definition crawler : Crawler :=
  {| base_url := root; domain := "www.slusd.us";
     visited_urls := ∅; found_pages := []; found_pdfs := [];
     files := {| output_file := Some (csv_row fieldnames);
                 progress_file := None |};
     clock := 0 |}.

(** The root links to two pages; the first cannot be fetched. *)
Definition site_with_failure : list (string * Page) :=
  [ (root, Html "Welcome" ["https://www.slusd.us/a"; "https://www.slusd.us/b"]);
    ("https://www.slusd.us/a", Unreachable);
    ("https://www.slusd.us/b", Html "Office: 835 E. 14th St., San Leandro" []) ].

(** The root links to a PDF whose second page holds the address. *)
Definition site_with_pdf (pdf_url address : string) : list (string * Page) :=
  [ (root, Html "Documents" [pdf_url]);
    (pdf_url, Pdf [Returned "Cover page"; Returned ("Send mail to " +:+ address)]) ].

Definition doc : string := "https://www.slusd.us/doc.pdf".

(** Two places for a linked PDF; the second is under a path that the
    skip filter of the fast file rejects. *)
Definition filed_pdf : string := "https://www.slusd.us/files/Notice.PDF".
Definition asset_pdf : string := "https://www.slusd.us/assets/notice.pdf".

(** The web that serves one document, with the given pages. *)
Definition document_web (pages : list (Outcome string)) : Web :=
  web [(doc, Pdf pages)].

(** Ten pages, of which pages 3 and 7 cannot be read. *)
Definition ten_pages : list (Outcome string) :=
  [ Returned "one "; Returned "Office: 835 "; Raised; Returned "E. 14th St. ";
    Returned "five "; Returned "six "; Raised; Returned "eight ";
    Returned "nine "; Returned "ten" ].

(** Two pages, with the address running over the page break. *)
Definition split_pages : list (Outcome string) :=
  [Returned "Office: 14735 "; Returned "Juniper St"].

(** A finding of an earlier run, and the files that run left. *)
Definition old_result : Result :=
  {| URL := "https://www.slusd.us/board"; Type_ := "HTML Page";
     Title := Some "Board"; Address_Found := Some "835 E. 14th St";
     Notes := "HTML page content"; Parent_Page := "";
     Timestamp := "2024-12-31 23:59:59" |}.

Definition old_files : Files :=
  {| output_file := Some (csv_row fieldnames +:+ csv_row (writerow old_result));
     progress_file := None |}.

(** Two runs of the baseline file, the second interrupted while it fetches
    its second URL. *)
Definition two_runs : list (Variant * Web * option nat) :=
  [ (Baseline.variant, web site_with_failure, None);
    (Baseline.variant, web site_with_failure, Some 11) ].

(** The files that a run left whose last row was cut short: the findings
    file does not end with a line break. *)
Definition cut_files : Files :=
  {| output_file :=
       Some (csv_row fieldnames
             +:+ "https://www.slusd.us/board,HTML Page,Board,835 E. 14th St,"
             +:+ "HTML page content,,2024-12-31 23:59:59");
     progress_file := None |}.

(** The finding that a run on [site_with_failure] records. *)
Definition b_result : Result :=
  {| URL := "https://www.slusd.us/b"; Type_ := "HTML Page";
     Title := Some "Page"; Address_Found := Some "835 E. 14th St.";
     Notes := "HTML page content"; Parent_Page := "";
     Timestamp := "2025-01-01 00:00:00" |}.

(** A site of [n] pages after the root, each with a link to the next. *)
Definition chain_url (i : nat) : string :=
  "https://www.slusd.us/p" +:+ Str.of_nat i.

Definition chain (n : nat) : list (string * Page) :=
  (root, Html "Welcome" [chain_url 1])
  :: map (fun i => (chain_url i, Html "Page" [chain_url (S i)])) (seq 1 n).

End Demo.


(** ** Patterns that begin with a literal number *)

Definition is_digit (c : ascii) : bool := Str.between 48 57 c.

(** [literal l r]: the pattern [r] begins with the digits [l], one literal
    after the other. *)
Fixpoint literal (l : string) (r : re) : bool :=
  match l with
  | EmptyString => true
  | String c l' =>
      match r with
      | Seq (Chr p) r' => Ascii.eqb p c && is_digit c && literal l' r'
      | _ => false
      end
  end.

(** [sound_match patterns number text matched]: the result [matched] of a
    successful check is a non-empty text that occurs in [text], is what one
    of the [patterns] finds there, and holds [number]. *)
Definition sound_match (patterns : list re) (number text : string)
    (matched : option string) : Prop :=
  exists m,
    matched = Some m /\ m <> "" /\ Str.Substring m text
    /\ (exists p, p ∈ patterns /\ search p text = Some m)
    /\ Str.Substring number m.

(** ** Reading a trace *)

(** The URLs taken up for processing, in order. *)
Definition crawled (tr : list Event) : list string :=
  omap (fun e => match e with Crawling u => Some u | _ => None end) tr.

(** The URLs appended to the queue, in order. *)
Definition appended (tr : list Event) : list string :=
  omap (fun e => match e with Append u => Some u | _ => None end) tr.

(** The URLs handed to [check_pdf_content], in order. *)
Definition pdf_checked (tr : list Event) : list string :=
  omap (fun e => match e with CheckPdf u => Some u | _ => None end) tr.

(** Every append of the trace is of a URL that, when it is appended, is
    not visited (neither before the run of crawler [c0] nor taken up in it
    so far) and has not been in the queue (it is not the root, with which
    the queue starts, and was not appended before). *)
Definition enqueued_once (c0 : Crawler) (tr : list Event) : Prop :=
  forall l1 l2 u,
    tr = l1 ++ Append u :: l2 ->
    (u ∉ visited_urls c0) /\ (u ∉ crawled l1) /\ (u ∉ appended l1)
    /\ u <> base_url c0.

(** What holds of the frontier, that is of the queue, the visited set and
    the trace, throughout a run started on crawler [c0]. *)
Record frontier_inv (c0 : Crawler) (st : Loop) : Prop := {
  fi_mono : visited_urls c0 ⊆ visited_urls (self st);
  fi_crawled : forall u, u ∈ crawled (trace st) ->
                         u ∈ visited_urls (self st) /\ (u ∉ visited_urls c0);
  fi_appended : forall u, u ∈ appended (trace st) ->
                          u ∈ url_queue st \/ u ∈ visited_urls (self st);
  fi_root : base_url c0 ∈ url_queue st \/ base_url c0 ∈ visited_urls (self st);
  fi_nodup : NoDup (crawled (trace st));
  fi_once : enqueued_once c0 (trace st)
}.

(** The queue holds no URL twice and no visited URL. *)
Definition queue_fresh (st : Loop) : Prop :=
  NoDup (url_queue st)
  /\ forall u, u ∈ url_queue st -> (u ∉ visited_urls (self st)).

(** [slept] says whether the crawler has slept since it last took up a URL:
    the trace is rate limited when it sleeps between any two URLs it takes
    up. *)
Fixpoint rate_limited_from (slept : bool) (tr : list Event) : bool :=
  match tr with
  | [] => true
  | Crawling _ :: tr' => slept && rate_limited_from false tr'
  | Sleep _ :: tr' => rate_limited_from true tr'
  | _ :: tr' => rate_limited_from slept tr'
  end.

Definition rate_limited (tr : list Event) : bool := rate_limited_from true tr.

(** ** Documents, fetches and files *)

(** The texts of the pages whose extraction succeeds, in page order. *)
Definition extracted (pages : list (Outcome string)) : list string :=
  omap (fun page => match page with
                    | Returned page_text => Some page_text
                    | Raised => None
                    end) pages.

(** The concatenation of texts, in order. *)
Definition joined (texts : list string) : string :=
  fold_right String.append "" texts.

(** The result of the first text in which [check] finds the address. *)
Fixpoint first_found (check : string -> bool * option string)
    (texts : list string) : bool * option string :=
  match texts with
  | [] => (false, None)
  | t :: rest =>
      match check t with
      | (true, matched_text) => (true, matched_text)
      | (false, _) => first_found check rest
      end
  end.



(** A row that [record_finding] writes: its type is one of the two kinds. *)
Definition finding_row (row : list string) : Prop :=
  exists r, row = writerow r /\ (Type_ r = "PDF" \/ Type_ r = "HTML Page").

(** The text of a file that holds the given rows, as the csv writer writes
    them. *)
Definition rows_text (rows : list (list string)) : string :=
  written (map csv_row rows).

(** The number of header rows in a findings file. *)
Definition header_rows (rows : list (list string)) : nat :=
  length (filter (fun row => row = fieldnames) rows).

(** The files a run of [main] leaves. *)
Definition files_after (fs : Files) (c : option Crawler) : Files :=
  match c with
  | Some c => files c
  | None => fs
  end.

(** [main] run again and again, each time on what the run before left;
    every run has its own web, variant and interrupt. *)
Fixpoint rerun (runs : list (Variant * Web * option nat)) (fs : Files)
  : option Files :=
  match runs with
  | [] => Some fs
  | (V, w, signal) :: rest =>
      match main V w fs signal with
      | Some r => rerun rest (files_after fs (crawler r))
      | None => None
      end
  end.







(** The findings file holds the text [text0] followed by
    rows of findings only. *)
Definition output_inv (text0 : string) (fs : Files) : Prop :=
  exists new,
    output_file fs = Some (text0 +:+ rows_text new) /\ Forall finding_row new.

(** ** More readings of a trace and of the state *)

(** The URLs taken from the queue, in order. *)
Definition popped (tr : list Event) : list string :=
  omap (fun e => match e with Popleft u => Some u | _ => None end) tr.

(** The URLs fetched as pages, in order. *)
Definition fetched (tr : list Event) : list string :=
  omap (fun e => match e with Get u => Some u | _ => None end) tr.

(** The sleeps, in order. *)
Definition sleeps (tr : list Event) : list N :=
  omap (fun e => match e with Sleep d => Some d | _ => None end) tr.

(** The queue is first in, first out: the root and then the URLs appended,
    in that order, are the URLs taken from the queue followed by those still
    in it; and what is taken up was taken from the queue. *)
Definition fifo_inv (c0 : Crawler) (st : Loop) : Prop :=
  base_url c0 :: appended (trace st) = popped (trace st) ++ url_queue st
  /\ (forall u, u ∈ crawled (trace st) -> u ∈ popped (trace st)).

(** Every URL appended is in the scope of crawler [c0] and passes the skip
    filter. *)
Definition scope_inv (V : Variant) (w : Web) (c0 : Crawler) (st : Loop)
  : Prop :=
  domain (self st) = domain c0
  /\ (forall u, u ∈ appended (trace st) ->
                is_valid_url w c0 u = true /\ skip_url V u = false).

(** The counter and the visited set move together. *)
Definition count_inv (c0 : Crawler) (st : Loop) : Prop :=
  size (visited_urls (self st))
  = size (visited_urls c0) + pages_crawled st
  /\ pages_crawled st = length (crawled (trace st)).

(** The findings in memory and the text of the file move together: what
    the run has added to the file are the rows of the results that it has
    added to the two lists, in the order in which they were recorded; and
    each list holds its own type. *)
Definition findings_inv (c0 : Crawler) (c : Crawler) : Prop :=
  exists pages pdfs new,
    found_pages c = found_pages c0 ++ pages
    /\ found_pdfs c = found_pdfs c0 ++ pdfs
    /\ output_file (files c)
       = Some (default "" (output_file (files c0))
               +:+ rows_text (map writerow new))
    /\ new ≡ₚ pages ++ pdfs
    /\ Forall (fun r => Type_ r = "HTML Page") pages
    /\ Forall (fun r => Type_ r = "PDF") pdfs.

(** ** Plain words in patterns *)

(** The pattern that reads the characters of [s], one literal after the
    other, and goes on with [k]. *)
Fixpoint lit (s : string) (k : re) : re :=
  match s with
  | EmptyString => k
  | String c s' => Seq (Chr c) (lit s' k)
  end.

(** The skip patterns of the fast file that look for a fragment anywhere in
    the URL, and those that look for an extension at its end. *)
Definition skip_fragments : list string :=
  [ "/css/"; "/js/"; "/images/"; "/img/"; "/assets/"; "/feeds/"; "/rss/";
    "/sitemap"; "#"; "javascript:"; "mailto:"; "tel:"; "ftp:" ].

Definition skip_extensions : list string :=
  [ ".css"; ".js"; ".png"; ".jpg"; ".jpeg"; ".gif"; ".ico"; ".woff";
    ".woff2"; ".ttf"; ".eot"; ".svg"; ".webp"; ".xml"; ".json" ].

#[global] Instance re_eq_dec : EqDecision re.
Proof. solve_decision. Defined.

(** All characters of the string are white space. *)
Fixpoint all_space (s : string) : bool :=
  match s with
  | EmptyString => true
  | String c s' => Str.is_space c && all_space s'
  end.

(** The second pattern of each file, which ends in no look-ahead, written
    out in words. *)
Definition baseline_plain_pattern : re :=
  lit "835" (Seq (Star Space)
    (lit "E" (Seq (Opt (Chr ".")) (Seq (Star Space)
      (lit "14t" (Seq (Opt (Chr "h")) (Seq (Star Space)
        (lit "St" (Seq (Opt (Chr ".")) Eps))))))))).

Definition fast_plain_pattern : re :=
  lit "14735" (Seq (Star Space)
    (lit "Juniper" (Seq (Star Space)
      (lit "St" (Seq (Opt (Chr ".")) Eps))))).

(** All characters of the string are ASCII. *)
Fixpoint all_ascii (s : string) : bool :=
  match s with
  | EmptyString => true
  | String c s' => (Str.code c <? 128)%N && all_ascii s'
  end.

(** A web whose parsers all raise on markup that is not all ASCII, and
    a page with one such character. *)
Definition strict_web : Web :=
  {| session_get := fun _ => Raised;
     session_head := fun _ => Raised;
     pdf_reader := fun _ => Raised;
     BeautifulSoup := fun markup _ =>
       if all_ascii markup
       then Returned {| get_text := markup; title := None |}
       else Raised;
     extract_links := fun _ _ => [];
     urlparse_netloc := fun _ => Raised;
     datetime_now := fun _ => "" |}.

(** A web with one PDF that holds the address and is declared larger than
    the ceiling. *)
Definition huge_pdf_web : Web :=
  {| session_get := fun _ => Raised;
     session_head := fun _ => Returned (Some (Returned 60000000%Z));
     pdf_reader := fun _ => Returned [Returned "Office: 14735 Juniper St"];
     BeautifulSoup := fun _ _ => Raised;
     extract_links := fun _ _ => [];
     urlparse_netloc := fun _ => Raised;
     datetime_now := fun _ => "" |}.

(** A web that serves a page which no parser accepts. *)
Definition broken_parser_web : Web :=
  {| session_get := fun _ =>
       Returned {| status_code := 200;
                   content_type_header := "text/html";
                   text := fun _ => Returned "<html" |};
     session_head := fun _ => Raised;
     pdf_reader := fun _ => Raised;
     BeautifulSoup := fun _ _ => Raised;
     extract_links := fun _ _ => [];
     urlparse_netloc := fun _ => Returned "www.slusd.us";
     datetime_now := fun _ => "" |}.

(** A crawler whose root is a document. *)
Definition doc_crawler : Crawler :=
  {| base_url := Demo.doc; domain := "www.slusd.us";
     visited_urls := ∅; found_pages := []; found_pdfs := [];
     files := {| output_file := Some (csv_row fieldnames);
                 progress_file := None |};
     clock := 0 |}.

Definition cafe_page : string :=
  "caf" +:+ String (ascii_of_N 233) (String (ascii_of_N 233) " 835 E 14th St").

(** ** extract_links *)

(** The parts of [urlparse(full_url)] that [extract_links] reads. *)
Record Parsed : Type := {
  scheme : string;
  netloc : string;
  path : string;
  query : string
}.

Module Links.

Section Extract.
Variable w : Web.
(** [tag['href']] of each tag of [soup.find_all(['a', 'link'], href=True)],
    in document order. *)
Variable find_all : Soup -> Outcome (list string).
Variable urljoin : string -> string -> Outcome string.
Variable urlparse : string -> Outcome Parsed.

Definition clean_url (parsed : Parsed) : string :=
  scheme parsed +:+ "://" +:+ netloc parsed +:+ path parsed
  +:+ (if Str.truthy (query parsed) then "?" +:+ query parsed else "").

(** The body of the loop over the tags: a link that raises is skipped. *)
Definition add_link (base : string) (links : gset string) (href : string)
  : gset string :=
  match urljoin base href with
  | Raised => links
  | Returned full_url =>
      match urlparse full_url with
      | Raised => links
      | Returned parsed => links ∪ {[ clean_url parsed ]}
      end
  end.

Definition extract_links (html base : string) : gset string :=
  match safe_parse_html w html with
  | None => ∅
  | Some soup =>
      match find_all soup with
      | Raised => ∅
      | Returned hrefs => fold_left (add_link base) hrefs ∅
      end
  end.

End Extract.

End Links.

(** Three tags on a page: a link, a link on which [urljoin] raises, and the
    first link again with a fragment. *)
Definition demo_find_all (soup : Soup) : Outcome (list string) :=
  Returned ["/a"; "http://[bad"; "/a#top"].

Definition demo_urljoin (base href : string) : Outcome string :=
  if Str.startswith "/" href then Returned (base +:+ href) else Raised.

(** An absolute URL [scheme://host/path#fragment], in its parts. *)
Definition demo_urlparse (full : string) : Outcome Parsed :=
  match Str.partition "://" full with
  | (sch, Some rest) =>
      let after_host := snd (Str.partition "/" rest) in
      Returned {| scheme := sch;
                  netloc := fst (Str.partition "/" rest);
                  path := match after_host with
                          | Some p => "/" +:+ fst (Str.partition "#" p)
                          | None => ""
                          end;
                  query := "" |}
  | (_, None) => Raised
  end.

(** ** Where findings come from *)

(** A finding of a page: its URL was taken up, and it has no parent page. *)
Definition page_ok (cr : list string) (r : Result) : Prop :=
  URL r ∈ cr /\ Parent_Page r = "" /\ Type_ r = "HTML Page".

(** A finding of a PDF: its URL was handed to [check_pdf_content]; either
    it has no parent page and its URL was taken up, or its parent page was
    taken up. *)
Definition pdf_ok (cr ck : list string) (r : Result) : Prop :=
  Type_ r = "PDF" /\ URL r ∈ ck
  /\ ((Parent_Page r = "" /\ URL r ∈ cr) \/ Parent_Page r ∈ cr).

(** The findings [fp] of pages and [fd] of PDFs of a run that has taken up
    the URLs [cr] and checked the PDFs [ck]. *)
Definition provenance (fp fd : list Result) (cr ck : list string) : Prop :=
  NoDup (map URL fp) /\ Forall (page_ok cr) fp /\ Forall (pdf_ok cr ck) fd.

(** What the run of crawler [c0] has added to its two lists so far. *)
Definition provenance_inv (c0 : Crawler) (st : Loop) : Prop :=
  exists pages pdfs,
    found_pages (self st) = found_pages c0 ++ pages
    /\ found_pdfs (self st) = found_pdfs c0 ++ pdfs
    /\ provenance pages pdfs (crawled (trace st)) (pdf_checked (trace st)).

(** ** print_summary *)

Module Summary.

(** [str(n)] of a number that is not negative. *)
Definition str (n : nat) : string :=
  DecimalString.NilEmpty.string_of_uint (Nat.to_uint n).

(** What an f-string makes of a value that is a [str] or [None]. *)
Definition format (o : option string) : string :=
  match o with Some s => s | None => "None" end.

Definition nl : string := String Re.newline EmptyString.

(** ['='*60] *)
Definition rule : string := string_of_list_ascii (repeat "="%char 60).

(** [enumerate(l, i)] *)
Fixpoint enumerate {A} (i : nat) (l : list A) : list (nat * A) :=
  match l with
  | [] => []
  | x :: l' => (i, x) :: enumerate (S i) l'
  end.

(** The lines that are printed: one string for each call of [print]. *)
Definition head (address_patterns : list string) (output_file : string)
    (c : Crawler) : list string :=
  [nl +:+ rule; "CRAWL SUMMARY"; rule; "Search patterns used:"]
  ++ map (fun '(i, pattern) => "  " +:+ str i +:+ ". " +:+ pattern)
         (enumerate 1 address_patterns)
  ++ ["Total pages crawled: " +:+ str (size (visited_urls c));
      "HTML pages with address: " +:+ str (length (found_pages c));
      "PDFs with address: " +:+ str (length (found_pdfs c));
      "Results saved to: " +:+ output_file].

Definition page_entry (e : nat * Result) : list string :=
  let '(i, page) := e in
  [str i +:+ ". " +:+ URL page;
   "   Found: '" +:+ format (Address_Found page) +:+ "'"]
  ++ match Title page with
     | Some t => if Str.truthy t then ["   Title: " +:+ t] else []
     | None => []
     end.

Definition pages_block (c : Crawler) : list string :=
  match found_pages c with
  | [] => []
  | _ :: _ =>
      (nl +:+ "HTML Pages containing address patterns:")
      :: flat_map page_entry (enumerate 1 (found_pages c))
  end.

(** [if pdf.get('Parent Page'): print(...)] *)
Definition linked_from (pdf : Result) : list string :=
  if Str.truthy (Parent_Page pdf)
  then ["   Linked from: " +:+ Parent_Page pdf] else [].

Definition pdfs_block (pdf_entry : nat * Result -> list string)
    (c : Crawler) : list string :=
  match found_pdfs c with
  | [] => []
  | _ :: _ =>
      (nl +:+ "PDFs containing address patterns:")
      :: flat_map pdf_entry (enumerate 1 (found_pdfs c))
  end.

End Summary.

(** [print_summary] of web_crawler_regex.py, whose loop over the PDFs has
    the [if] with the parent page twice (lines 331-334). *)
Module BaselineSummary.

Definition output_file : string := "slusd_address_audit.csv".

Definition pdf_entry (e : nat * Result) : list string :=
  let '(i, pdf) := e in
  [Summary.str i +:+ ". " +:+ URL pdf;
   "   Found: '" +:+ Summary.format (Address_Found pdf) +:+ "'"]
  ++ Summary.linked_from pdf ++ Summary.linked_from pdf.

Definition print_summary (c : Crawler) : list string :=
  Summary.head Baseline.address_patterns output_file c
  ++ Summary.pages_block c ++ Summary.pdfs_block pdf_entry c.

End BaselineSummary.

(** [print_summary] of web_crawler_regex_fast_juniper.py. *)
Module FastSummary.

Definition output_file : string := "slusd_juniper_audit.csv".

Definition pdf_entry (e : nat * Result) : list string :=
  let '(i, pdf) := e in
  [Summary.str i +:+ ". " +:+ URL pdf;
   "   Found: '" +:+ Summary.format (Address_Found pdf) +:+ "'"]
  ++ Summary.linked_from pdf.

Definition print_summary (c : Crawler) : list string :=
  Summary.head Fast.address_patterns output_file c
  ++ Summary.pages_block c ++ Summary.pdfs_block pdf_entry c.

End FastSummary.

(** What [main] prints after the crawl: the summary, after a crawl that
    returned and in the handler of the interrupt; nothing when the
    constructor, which is called outside the [try], has raised. *)
Definition main_prints (print_summary : Crawler -> list string) (r : Run)
  : list string :=
  match crawler r with
  | Some c =>
      match exit r with
      | Interrupted =>
          (Summary.nl +:+ "Crawl interrupted by user.") :: print_summary c
      | _ => print_summary c
      end
  | None => []
  end.

(** A line of the summary that names a parent page is printed twice. *)
Definition twice_linked_from (line : string) : list string :=
  if Str.startswith "   Linked from: " line then [line; line] else [line].

(** The text does not begin with a character that [str.strip] removes. *)
Definition no_leading_space (s : string) : bool :=
  match s with
  | String c _ => negb (Str.is_space c)
  | EmptyString => true
  end.

(** * Properties *)

(** ** Strings *)

Lemma app_empty_r (s : string) : s +:+ "" = s.
Proof. induction s as [|c s IH]; simpl; [reflexivity | now rewrite IH]. Qed.

Lemma app_assoc_s (a b c : string) : (a +:+ b) +:+ c = a +:+ (b +:+ c).
Proof. induction a as [|x a IH]; simpl; [reflexivity | now rewrite IH]. Qed.

Lemma startswith_spec (q t : string) :
  Str.startswith q t = true <-> exists b, t = q +:+ b.
Proof.
  revert t; induction q as [|a q IH]; intros t; simpl.
  - split; [intros _; now exists t | reflexivity].
  - destruct t as [|b t].
    + split; [discriminate | intros [x Hx]; discriminate].
    + rewrite andb_true_iff, Ascii.eqb_eq, IH. split.
      * intros [-> [x ->]]. now exists x.
      * intros [x Hx]. injection Hx as -> ->. split; [reflexivity | now exists x].
Qed.

Lemma contains_spec (q t : string) :
  Str.contains q t = true <-> Str.Substring q t.
Proof.
  unfold Str.Substring. induction t as [|c t IH].
  - simpl. rewrite orb_false_r, startswith_spec. split.
    + intros [b Hb]. now exists "", b.
    + intros [a [b Hab]]. destruct a; [now exists b | discriminate].
  - cbn [Str.contains]. rewrite orb_true_iff, startswith_spec, IH. split.
    + intros [[b Hb] | [a [b Hab]]].
      * now exists "", b.
      * exists (String c a), b. simpl. now rewrite Hab.
    + intros [a [b Hab]]. destruct a as [|x a].
      * left. now exists b.
      * right. simpl in Hab. injection Hab as _ ->. now exists a, b.
Qed.

Lemma contains_false (q t : string) :
  Str.contains q t = false <-> ~ Str.Substring q t.
Proof.
  rewrite <- contains_spec. destruct (Str.contains q t); split; congruence.
Qed.

Lemma substring_trans (a b c : string) :
  Str.Substring a b -> Str.Substring b c -> Str.Substring a c.
Proof.
  intros [x [y ->]] [x' [y' ->]]. exists (x' +:+ x), (y +:+ y').
  now rewrite !app_assoc_s.
Qed.

(** ** The matcher *)

Lemma in_one ok s m rest :
  In (m, rest) (one ok s) -> s = m +:+ rest.
Proof.
  destruct s as [|x s]; simpl; [tauto|].
  destruct (ok x); simpl; [|tauto].
  intros [H|[]]. now inversion H.
Qed.

Lemma in_star step :
  (forall s m rest, In (m, rest) (step s) -> s = m +:+ rest) ->
  forall n s m rest, In (m, rest) (star step n s) -> s = m +:+ rest.
Proof.
  intros Hstep n. induction n as [|n IH]; intros s m rest; simpl.
  - intros [H|[]]. now inversion H.
  - rewrite in_app_iff, in_flat_map. intros [[[m1 s1] [H1 H2]] | [H|[]]].
    + destruct m1 as [|x m1]; [destruct H2|].
      apply in_map_iff in H2 as [[m2 s2] [Heq H2]]. inversion Heq; subst.
      apply Hstep in H1. apply IH in H2. rewrite H1, H2.
      symmetry. apply (app_assoc_s (String x m1)).
    + now inversion H.
Qed.

(** Whatever the matcher reports splits the text it was started on. *)
Lemma matches_split r :
  forall s m rest, In (m, rest) (matches r s) -> s = m +:+ rest.
Proof.
  induction r as [ |c| | | |r1 IH1 r2 IH2|r1 IH1 r2 IH2|r IH|r IH|r IH];
    intros s m rest; simpl.
  - intros [H|[]]. now inversion H.
  - apply in_one.
  - apply in_one.
  - apply in_one.
  - destruct (at_end s); simpl; [|tauto]. intros [H|[]]. now inversion H.
  - rewrite in_flat_map. intros [[m1 s1] [H1 H2]].
    apply in_map_iff in H2 as [[m2 s2] [Heq H2]]. inversion Heq; subst.
    apply IH1 in H1. apply IH2 in H2. subst. now rewrite app_assoc_s.
  - rewrite in_app_iff. intros [H|H]; [now apply IH1 | now apply IH2].
  - rewrite in_app_iff. intros [H|[H|[]]]; [now apply IH | now inversion H].
  - apply in_star. exact IH.
  - destruct (matches r s); simpl; [|tauto]. intros [H|[]]. now inversion H.
Qed.

(** What [search] returns is the first report of the matcher at some
    position of the text. *)
Lemma search_spec r text m :
  search r text = Some m ->
  exists before rest tl,
    text = before +:+ m +:+ rest /\ matches r (m +:+ rest) = (m, rest) :: tl.
Proof.
  induction text as [|c text IH]; simpl.
  - destruct (matches r "") as [|[m0 r0] tl] eqn:E; [discriminate|].
    intros [= ->]. exists "", r0, tl.
    assert (H : "" = m +:+ r0) by (apply (matches_split r); rewrite E; now left).
    simpl. now rewrite <- H.
  - destruct (matches r (String c text)) as [|[m0 r0] tl] eqn:E.
    + intros H. destruct (IH H) as [b [rest [tl [-> Hm]]]].
      exists (String c b), rest, tl. now split.
    + intros [= ->]. exists "", r0, tl.
      assert (H : String c text = m +:+ r0)
        by (apply (matches_split r); rewrite E; now left).
      simpl. now rewrite <- H.
Qed.

Lemma search_substring r text m :
  search r text = Some m -> Str.Substring m text.
Proof.
  intros H. destruct (search_spec _ _ _ H) as [b [rest [_ [-> _]]]].
  now exists b, rest.
Qed.

(** A digit of a pattern is matched by that digit only. *)
Lemma lower_digit c : is_digit c = true -> Str.lower_char c = c.
Proof. destruct c as [[] [] [] [] [] [] [] []]; vm_compute; congruence. Qed.

Lemma ci_eqb_digit c x :
  is_digit c = true -> ci_eqb c x = true -> x = c.
Proof.
  unfold ci_eqb. intros Hd H. apply Ascii.eqb_eq in H.
  rewrite (lower_digit c Hd) in H. subst c.
  revert Hd. destruct x as [[] [] [] [] [] [] [] []]; vm_compute;
    intros; congruence.
Qed.

(** A pattern that begins with the digits [l] matches only text that
    begins with [l]. *)
Lemma literal_matches l :
  forall r s m rest,
    literal l r = true -> In (m, rest) (matches r s) -> exists m', m = l +:+ m'.
Proof.
  induction l as [|c l IH]; intros r s m rest; simpl.
  - intros _ _. now exists m.
  - destruct r as [ | | | | |r1 r2| | | | ]; try discriminate.
    destruct r1; try discriminate.
    rewrite !andb_true_iff, Ascii.eqb_eq. intros [[-> Hd] Hl].
    simpl. rewrite in_flat_map. intros [[m1 s1] [H1 H2]].
    apply in_map_iff in H2 as [[m2 s2] [Heq H2]]. inversion Heq; subst.
    destruct s as [|x s]; simpl in H1; [destruct H1|].
    destruct (ci_eqb c x) eqn:E; simpl in H1; [|destruct H1].
    destruct H1 as [H1|[]]. inversion H1; subst.
    apply (ci_eqb_digit _ _ Hd) in E. subst x.
    destruct (IH _ _ _ _ Hl H2) as [m' ->]. now exists m'.
Qed.

Lemma literal_search l r text m :
  literal l r = true -> search r text = Some m -> exists m', m = l +:+ m'.
Proof.
  intros Hl H. destruct (search_spec _ _ _ H) as [b [rest [tl [_ Hm]]]].
  apply (literal_matches l r (m +:+ rest) m rest Hl). rewrite Hm. now left.
Qed.

(** ** check_address_in_text *)

Lemma baseline_patterns_literal :
  forallb (literal "835") Baseline.compiled_patterns = true.
Proof. vm_compute. reflexivity. Qed.

Lemma fast_patterns_literal :
  forallb (literal Fast.quick_check) Fast.compiled_patterns = true.
Proof. vm_compute. reflexivity. Qed.

(** Every pattern string of both files is read in full. *)
Lemma patterns_compile :
  length Baseline.compiled_patterns = length Baseline.address_patterns
  /\ length Fast.compiled_patterns = length Fast.address_patterns
  /\ length Fast.compiled_skip_patterns = length Fast.skip_url_patterns.
Proof. vm_compute. repeat split. Qed.

(** The loop reports the first pattern, in list order, that is found. *)
Lemma check_each_pattern_first ps text i p m :
  ps !! i = Some p ->
  search p text = Some m ->
  Forall (fun q => search q text = None) (take i ps) ->
  check_each_pattern ps text = (true, Some m).
Proof.
  revert i. induction ps as [|q ps IH]; intros i Hi Hp Hnone.
  - destruct i; discriminate.
  - destruct i as [|i]; simpl in *.
    + injection Hi as ->. now rewrite Hp.
    + apply Forall_cons in Hnone as [Hq Hrest]. rewrite Hq. now apply (IH i).
Qed.

Lemma check_each_pattern_found ps text matched :
  check_each_pattern ps text = (true, matched) ->
  exists i p m,
    matched = Some m /\ ps !! i = Some p /\ search p text = Some m
    /\ Forall (fun q => search q text = None) (take i ps).
Proof.
  induction ps as [|q ps IH]; simpl; [discriminate|].
  destruct (search q text) as [m|] eqn:E.
  - intros [= <-]. exists 0%nat, q, m. repeat split; auto.
  - intros H. destruct (IH H) as [i [p [m [-> [Hi [Hp Hn]]]]]].
    exists (S i), p, m. repeat split; auto. simpl. now constructor.
Qed.

Lemma check_each_pattern_none ps text b matched :
  check_each_pattern ps text = (b, matched) ->
  b = false -> matched = None.
Proof.
  induction ps as [|q ps IH]; simpl.
  - now intros [= <- <-].
  - destruct (search q text); [intros [= <- <-]; discriminate | exact IH].
Qed.

(** The patterns after the one that is found play no part. *)
Lemma check_each_pattern_later ps text i p m later :
  ps !! i = Some p ->
  search p text = Some m ->
  Forall (fun q => search q text = None) (take i ps) ->
  check_each_pattern (take (S i) ps ++ later) text = (true, Some m).
Proof.
  intros Hi Hp Hn. apply (check_each_pattern_first _ _ i p); auto.
  - rewrite lookup_app_l; [now rewrite lookup_take_lt by lia|].
    apply lookup_lt_Some in Hi. rewrite length_take. lia.
  - rewrite take_app_le by (apply lookup_lt_Some in Hi; rewrite length_take; lia).
    now rewrite take_take, Nat.min_l by lia.
Qed.

(** A text in which a pattern beginning with the digits [l] is found holds
    [l], and is not empty. *)
Lemma found_holds_literal l ps text p m :
  forallb (literal l) ps = true -> p ∈ ps -> search p text = Some m ->
  exists m', m = l +:+ m'.
Proof.
  intros Hall Hin Hs. rewrite forallb_forall in Hall.
  apply (literal_search l p text m); auto. apply Hall. now apply list_elem_of_In.
Qed.

Lemma substring_prefix l m' : Str.Substring l (l +:+ m').
Proof. exists "", m'. reflexivity. Qed.

Lemma substring_truthy q t :
  q <> "" -> Str.Substring q t -> Str.truthy t = true.
Proof.
  intros Hq [a [b ->]]. destruct a; simpl; [|reflexivity].
  destruct q; [congruence | reflexivity].
Qed.

(** C1. Prefilter transparency.  With the patterns and the literal of any
    crawler: on a text that holds the literal, the check of the fast file
    gives what the check of the baseline file, which tries all patterns in
    order, gives; on a text that does not hold it, the fast check reports
    not found. *)
Theorem prefilter_transparency
    (compiled_patterns : list re) (quick_check text : string) :
  (Str.Substring quick_check text ->
   Fast.check_address_in_text compiled_patterns quick_check text
   = Baseline.check_address_in_text compiled_patterns text)
  /\ (~ Str.Substring quick_check text ->
      Fast.check_address_in_text compiled_patterns quick_check text
      = (false, None)).
Proof.
  unfold Fast.check_address_in_text, Baseline.check_address_in_text.
  split; intros H.
  - apply contains_spec in H. rewrite H. reflexivity.
  - apply contains_false in H. rewrite H.
    destruct (Str.truthy text); reflexivity.
Qed.

Lemma prefilter_transparency_witness :
  Fast.check_address_in_text Fast.compiled_patterns Fast.quick_check
    "Mail to 14735 Juniper St."
  = Baseline.check_address_in_text Fast.compiled_patterns
      "Mail to 14735 Juniper St."
  /\ Fast.check_address_in_text Fast.compiled_patterns Fast.quick_check
       "Mail to 835 E. 14th St."
     = (false, None).
Proof.
  split.
  - apply (proj1 (prefilter_transparency Fast.compiled_patterns
                    Fast.quick_check "Mail to 14735 Juniper St.")).
    exists "Mail to ", " Juniper St.". reflexivity.
  - apply (proj2 (prefilter_transparency Fast.compiled_patterns
                    Fast.quick_check "Mail to 835 E. 14th St.")).
    apply contains_false. vm_compute. reflexivity.
Defined.

(** On the patterns of the fast file the prefilter suppresses nothing. *)
Lemma fast_check_unfiltered (text : string) :
  Fast.check_address_in_text Fast.compiled_patterns Fast.quick_check text
  = Baseline.check_address_in_text Fast.compiled_patterns text.
Proof.
  unfold Fast.check_address_in_text, Baseline.check_address_in_text.
  destruct (Str.truthy text); cbn [negb]; [|reflexivity].
  destruct (Str.contains Fast.quick_check text) eqn:E; cbn [negb];
    [reflexivity|].
  destruct (check_each_pattern Fast.compiled_patterns text) as [[] matched] eqn:C.
  - exfalso. apply check_each_pattern_found in C
      as [i [p [m [_ [Hi [Hp _]]]]]].
    apply list_elem_of_lookup_2 in Hi.
    destruct (found_holds_literal _ _ _ _ _ fast_patterns_literal Hi Hp)
      as [m' ->].
    apply contains_false in E. apply E.
    apply (substring_trans _ (Fast.quick_check +:+ m')).
    + apply substring_prefix.
    + now apply (search_substring p).
  - now rewrite (check_each_pattern_none _ _ _ _ C eq_refl).
Qed.

Lemma check_sound ps number text matched :
  number <> "" ->
  forallb (literal number) ps = true ->
  check_each_pattern ps text = (true, matched) ->
  sound_match ps number text matched.
Proof.
  intros Hn Hlit C.
  apply check_each_pattern_found in C as [i [p [m [-> [Hi [Hp _]]]]]].
  apply list_elem_of_lookup_2 in Hi.
  destruct (found_holds_literal _ _ _ _ _ Hlit Hi Hp) as [m' ->].
  exists (number +:+ m'). repeat split.
  - destruct number; [congruence | discriminate].
  - now apply (search_substring p).
  - now exists p.
  - apply substring_prefix.
Qed.

(** C10. Match-result soundness.  Whenever a check reports found, what it
    reports with it is a non-empty text that occurs in the text checked, is
    what one of the configured patterns finds there, and holds the house
    number (835 in the baseline file, 14735 in the fast file); and so the
    prefilter of the fast file changes no result. *)
Theorem match_result_soundness (text : string) (matched : option string) :
  (Baseline.check_address_in_text Baseline.compiled_patterns text
   = (true, matched) ->
   sound_match Baseline.compiled_patterns "835" text matched)
  /\ (Fast.check_address_in_text Fast.compiled_patterns Fast.quick_check text
      = (true, matched) ->
      sound_match Fast.compiled_patterns "14735" text matched)
  /\ Fast.check_address_in_text Fast.compiled_patterns Fast.quick_check text
     = check_each_pattern Fast.compiled_patterns text.
Proof.
  split; [|split].
  - unfold Baseline.check_address_in_text.
    destruct (Str.truthy text); cbn [negb]; [|discriminate].
    apply check_sound; [discriminate | exact baseline_patterns_literal].
  - rewrite fast_check_unfiltered. unfold Baseline.check_address_in_text.
    destruct (Str.truthy text); cbn [negb]; [|discriminate].
    apply check_sound; [discriminate | exact fast_patterns_literal].
  - rewrite fast_check_unfiltered. unfold Baseline.check_address_in_text.
    destruct text; reflexivity.
Qed.

Lemma match_result_soundness_witness :
  sound_match Baseline.compiled_patterns "835"
    "Office: 835 E. 14th St., San Leandro" (Some "835 E. 14th St.")
  /\ sound_match Fast.compiled_patterns "14735"
       "Office: 14735 Juniper Street" (Some "14735 Juniper Street").
Proof.
  split.
  - apply (proj1 (match_result_soundness
                    "Office: 835 E. 14th St., San Leandro"
                    (Some "835 E. 14th St."))).
    vm_compute. reflexivity.
  - apply (proj1 (proj2 (match_result_soundness
                           "Office: 14735 Juniper Street"
                           (Some "14735 Juniper Street")))).
    vm_compute. reflexivity.
Defined.

(** C3. Pattern priority.  When the pattern at index [i] is found in a
    text and no pattern before it is, the check reports found with what
    that pattern matched, and the patterns after it play no part: with any
    other patterns [later] in their place the check reports the same. *)
Theorem pattern_priority
    (text : string) (i : nat) (p : re) (m : string) (later : list re) :
  (Baseline.compiled_patterns !! i = Some p ->
   search p text = Some m ->
   Forall (fun q => search q text = None) (take i Baseline.compiled_patterns) ->
   Baseline.check_address_in_text Baseline.compiled_patterns text
   = (true, Some m)
   /\ Baseline.check_address_in_text
        (take (S i) Baseline.compiled_patterns ++ later) text
      = (true, Some m))
  /\ (Fast.compiled_patterns !! i = Some p ->
      search p text = Some m ->
      Forall (fun q => search q text = None) (take i Fast.compiled_patterns) ->
      Fast.check_address_in_text Fast.compiled_patterns Fast.quick_check text
      = (true, Some m)
      /\ Fast.check_address_in_text
           (take (S i) Fast.compiled_patterns ++ later) Fast.quick_check text
         = (true, Some m)).
Proof.
  split; intros Hi Hp Hn.
  - assert (Ht : Str.truthy text = true).
    { destruct (found_holds_literal _ _ _ _ _ baseline_patterns_literal
                  (list_elem_of_lookup_2 _ _ _ Hi) Hp) as [m' ->].
      apply (substring_truthy "835"); [discriminate|].
      eapply substring_trans; [apply substring_prefix|].
      exact (search_substring _ _ _ Hp). }
    unfold Baseline.check_address_in_text. rewrite Ht. cbn [negb]. split.
    + exact (check_each_pattern_first _ _ i p m Hi Hp Hn).
    + exact (check_each_pattern_later _ _ i p m later Hi Hp Hn).
  - assert (Hq : Str.Substring Fast.quick_check text).
    { destruct (found_holds_literal _ _ _ _ _ fast_patterns_literal
                  (list_elem_of_lookup_2 _ _ _ Hi) Hp) as [m' ->].
      eapply substring_trans; [apply substring_prefix|].
      exact (search_substring _ _ _ Hp). }
    assert (Ht : Str.truthy text = true)
      by (apply (substring_truthy Fast.quick_check); [discriminate | exact Hq]).
    apply contains_spec in Hq.
    unfold Fast.check_address_in_text. rewrite Ht, Hq. cbn [negb]. split.
    + exact (check_each_pattern_first _ _ i p m Hi Hp Hn).
    + exact (check_each_pattern_later _ _ i p m later Hi Hp Hn).
Qed.

(** A computable form of "no earlier pattern is found". *)
Lemma none_before ps text i :
  forallb (fun q => negb (bool_decide (is_Some (search q text)))) (take i ps) = true ->
  Forall (fun q => search q text = None) (take i ps).
Proof.
  intros H. apply Forall_forall. intros q Hq.
  rewrite forallb_forall in H. apply list_elem_of_In in Hq. specialize (H q Hq).
  apply negb_true_iff, bool_decide_eq_false in H.
  destruct (search q text); [destruct H; eauto | reflexivity].
Qed.

Lemma pattern_priority_witness :
  (Baseline.check_address_in_text Baseline.compiled_patterns
     "Now at 835 E 14 St" = (true, Some "835 E 14 St")
   /\ Baseline.check_address_in_text
        (take 3 Baseline.compiled_patterns ++ []) "Now at 835 E 14 St"
      = (true, Some "835 E 14 St"))
  /\ (Fast.check_address_in_text Fast.compiled_patterns Fast.quick_check
        "Now at 14735 N Juniper" = (true, Some "14735 N Juniper")
      /\ Fast.check_address_in_text
           (take 5 Fast.compiled_patterns ++ []) Fast.quick_check
           "Now at 14735 N Juniper"
         = (true, Some "14735 N Juniper")).
Proof.
  split.
  - apply (proj1 (pattern_priority "Now at 835 E 14 St" 2
                    (nth 2 Baseline.compiled_patterns Eps) "835 E 14 St" [])).
    + vm_compute; reflexivity.
    + vm_compute; reflexivity.
    + apply none_before; vm_compute; reflexivity.
  - apply (proj2 (pattern_priority "Now at 14735 N Juniper" 4
                    (nth 4 Fast.compiled_patterns Eps) "14735 N Juniper" [])).
    + vm_compute. reflexivity.
    + vm_compute. reflexivity.
    + apply none_before; vm_compute; reflexivity.
Defined.

(** In both texts of the witness a later pattern is found as well (in the
    first with a shorter match). *)
Example later_patterns_found :
  search (nth 6 Baseline.compiled_patterns Eps) "Now at 835 E 14 St"
  = Some "835 E 14"
  /\ search (nth 6 Fast.compiled_patterns Eps) "Now at 14735 N Juniper"
     = Some "14735 N Juniper".
Proof. vm_compute. split; reflexivity. Qed.


(** ** What the loop body preserves *)

Section Preserved.
Variable V : Variant.
Variable w : Web.
Variable P : Loop -> Prop.

Hypothesis P_get : forall u st, P st -> P (emit (Get u) st).
Hypothesis P_check : forall u st, P st -> P (emit (CheckPdf u) st).
Hypothesis P_sleep : forall d st, P st -> P (emit (Sleep d) st).
Hypothesis P_record :
  forall url ct m t n pp st,
    ct = "PDF" \/ ct = "HTML Page" ->
    P st -> P (on_self (record_finding w url ct m t n pp) st).
Hypothesis P_enqueue :
  forall link st,
    is_valid_url w (self st) link = true ->
    skip_url V link = false ->
    link ∉ visited_urls (self st) ->
    link ∉ url_queue st ->
    Str.endswith ".pdf" (Str.lower link) = false ->
    P st -> P (enqueue link st).

Lemma pdf_preserved url notes parent st : P st -> P (pdf V w url notes parent st).
Proof.
  intros H. unfold pdf. destruct (check_pdf V w url) as [[] m]; auto.
Qed.

Lemma visit_link_preserved cur st link :
  P st -> P (visit_link V w cur st link).
Proof.
  intros H. unfold visit_link.
  destruct (is_valid_url w (self st) link) eqn:E1; simpl; auto.
  destruct (skip_url V link) eqn:E2; simpl; auto.
  destruct (bool_decide (link ∉ visited_urls (self st))) eqn:E3; simpl; auto.
  destruct (bool_decide (link ∉ url_queue st)) eqn:E4; simpl; auto.
  apply bool_decide_eq_true in E3, E4.
  destruct (Str.endswith ".pdf" (Str.lower link)) eqn:E5.
  - now apply pdf_preserved.
  - now apply P_enqueue.
Qed.

Lemma links_preserved cur links :
  forall st, P st -> P (fold_left (visit_link V w cur) links st).
Proof.
  induction links as [|l links IH]; intros st H; simpl; auto.
  apply IH. now apply visit_link_preserved.
Qed.

Lemma process_preserved cur st : P st -> P (process V w cur st).
Proof.
  intros H. unfold process.
  destruct (get_page_content w cur) as [[[|c html]|] ct]; auto.
  match goal with |- context [if ?b then _ else _] => destruct b end.
  - apply pdf_preserved. auto.
  - destruct (safe_parse_html w (String c html)) as [soup|]; auto.
    apply P_sleep. apply links_preserved.
    destruct (check_text V (get_text soup)) as [[] m]; auto.
Qed.

Hypothesis P_next : forall st, P st -> P (fst (next_url w st)).

Lemma iteration_preserved st : P st -> P (iteration V w st).
Proof.
  intros H. unfold iteration. specialize (P_next st H).
  destruct (next_url w st) as [st' [u|]]; simpl in *; auto.
  now apply process_preserved.
Qed.

Lemma iterations_preserved max_pages k :
  forall st, P st -> P (iterations V w k max_pages st).
Proof.
  induction k as [|k IH]; intros st H; simpl; auto.
  destruct (loop_condition max_pages st); auto.
  apply IH. now apply iteration_preserved.
Qed.

End Preserved.

(** The same for the states that the loop body passes through. *)
Section PreservedStates.
Variable V : Variant.
Variable w : Web.
Variable P : Loop -> Prop.

Hypothesis P_get : forall u st, P st -> P (emit (Get u) st).
Hypothesis P_check : forall u st, P st -> P (emit (CheckPdf u) st).
Hypothesis P_sleep : forall d st, P st -> P (emit (Sleep d) st).
Hypothesis P_listed :
  forall url ct m t n pp st,
    ct = "PDF" \/ ct = "HTML Page" ->
    P st -> P (on_self (listed w url ct m t n pp) st).
Hypothesis P_record :
  forall url ct m t n pp st,
    ct = "PDF" \/ ct = "HTML Page" ->
    P st -> P (on_self (record_finding w url ct m t n pp) st).
Hypothesis P_enqueue :
  forall link st,
    is_valid_url w (self st) link = true ->
    skip_url V link = false ->
    link ∉ visited_urls (self st) ->
    link ∉ url_queue st ->
    Str.endswith ".pdf" (Str.lower link) = false ->
    P st -> P (enqueue link st).

Lemma record_states_preserved url ct m t n pp st :
  ct = "PDF" \/ ct = "HTML Page" ->
  P st ->
  Forall P (map (set_self st)
              (record_finding_states w url ct m t n pp (self st))).
Proof.
  intros Hct H. unfold record_finding_states. cbn [map].
  constructor; [now apply (P_listed url ct m t n pp st)|].
  constructor; [|constructor].
  now apply (P_record url ct m t n pp st).
Qed.

Lemma pdf_states_preserved url notes parent st :
  P st -> Forall P (pdf_states V w url notes parent st).
Proof.
  intros H. unfold pdf_states. constructor; [auto|].
  destruct (check_pdf V w url) as [[] m]; [|constructor].
  apply (record_states_preserved url "PDF" m (Some "") notes parent
           (emit (CheckPdf url) st)); auto.
Qed.

Lemma visit_link_states_preserved cur st link :
  P st -> Forall P (visit_link_states V w cur st link).
Proof.
  intros H. unfold visit_link_states.
  destruct (is_valid_url w (self st) link) eqn:E1; simpl; [|constructor].
  destruct (skip_url V link) eqn:E2; simpl; [constructor|].
  destruct (bool_decide (link ∉ visited_urls (self st))) eqn:E3; simpl;
    [|constructor].
  destruct (bool_decide (link ∉ url_queue st)) eqn:E4; simpl; [|constructor].
  apply bool_decide_eq_true in E3, E4.
  destruct (Str.endswith ".pdf" (Str.lower link)) eqn:E5.
  - now apply pdf_states_preserved.
  - constructor; [|constructor]. now apply P_enqueue.
Qed.

Lemma visit_links_states_preserved cur links :
  forall st, P st -> Forall P (visit_links_states V w cur links st).
Proof.
  induction links as [|l links IH]; intros st H; simpl; [constructor|].
  apply Forall_app. split; [now apply visit_link_states_preserved|].
  apply IH. now apply (visit_link_preserved V w P).
Qed.

Lemma process_states_preserved cur st :
  P st -> Forall P (process_states V w cur st).
Proof.
  intros H. unfold process_states. constructor; [auto|].
  destruct (get_page_content w cur) as [[[|c html]|] ct]; try constructor.
  match goal with |- context [if ?b then _ else _] => destruct b end.
  - apply pdf_states_preserved. auto.
  - destruct (safe_parse_html w (String c html)) as [soup|]; [|constructor].
    cbv zeta.
    assert (H1 : P match check_text V (get_text soup) with
                   | (true, matched_text) =>
                       on_self (record_finding w cur "HTML Page" matched_text
                                  (match title soup with
                                   | Some s => s
                                   | None => Some "No title"
                                   end)
                                  "HTML page content" "") (emit (Get cur) st)
                   | (false, _) => emit (Get cur) st
                   end)
      by (destruct (check_text V (get_text soup)) as [[] m]; auto).
    apply Forall_app. split.
    { destruct (check_text V (get_text soup)) as [[] m]; [|constructor].
      apply record_states_preserved; auto. }
    apply Forall_app. split; [now apply visit_links_states_preserved|].
    constructor; [|constructor]. apply P_sleep.
    now apply (links_preserved V w P P_check P_record P_enqueue).
Qed.

Hypothesis P_next_states : forall st, P st -> Forall P (next_url_states w st).
Hypothesis P_next : forall st, P st -> P (fst (next_url w st)).
Hypothesis P_save :
  forall st current_url,
    P st ->
    Forall P (map (set_self st)
                (save_progress_states w (pages_crawled st) current_url
                                      (self st))).

Lemma iteration_states_preserved st :
  P st -> Forall P (iteration_states V w st).
Proof.
  intros H. unfold iteration_states. apply Forall_app. split; [auto|].
  specialize (P_next st H).
  destruct (next_url w st) as [st' [u|]]; [|constructor].
  now apply process_states_preserved.
Qed.

Lemma crawl_states_preserved max_pages fuel :
  forall st, P st -> Forall P (crawl_states V w fuel max_pages st).
Proof.
  induction fuel as [|fuel IH]; intros st H; simpl;
    destruct (loop_condition max_pages st).
  - constructor.
  - now apply P_save.
  - apply Forall_app. split; [now apply iteration_states_preserved|].
    apply IH.
    now apply (iteration_preserved V w P P_get P_check P_sleep P_record
                 P_enqueue P_next).
  - now apply P_save.
Qed.

End PreservedStates.

(** ** The frontier *)

Lemma snoc_split {A} (tr l1 l2 : list A) (e x : A) :
  tr ++ [e] = l1 ++ x :: l2 ->
  (l2 = [] /\ l1 = tr /\ x = e)
  \/ exists l2', l2 = l2' ++ [e] /\ tr = l1 ++ x :: l2'.
Proof.
  destruct l2 as [|y l2 _] using rev_ind; intros H.
  - left. apply app_inj_tail in H as [-> ->]. auto.
  - right. exists l2.
    change (tr ++ [e] = l1 ++ (x :: l2) ++ [y]) in H.
    rewrite app_assoc in H. apply app_inj_tail in H as [-> ->]. auto.
Qed.

Lemma crawled_snoc tr e :
  crawled (tr ++ [e])
  = crawled tr ++ match e with Crawling u => [u] | _ => [] end.
Proof. unfold crawled. rewrite omap_app. now destruct e. Qed.

Lemma appended_snoc tr e :
  appended (tr ++ [e])
  = appended tr ++ match e with Append u => [u] | _ => [] end.
Proof. unfold appended. rewrite omap_app. now destruct e. Qed.

Lemma enqueued_once_quiet c0 tr e :
  (forall u, e <> Append u) ->
  enqueued_once c0 tr -> enqueued_once c0 (tr ++ [e]).
Proof.
  intros He H l1 l2 u Heq.
  apply snoc_split in Heq as [[_ [_ Hx]] | [l2' [_ Htr]]].
  - now destruct (He u).
  - now apply (H l1 l2').
Qed.

Lemma enqueued_once_append c0 tr u :
  u ∉ visited_urls c0 -> u ∉ crawled tr -> u ∉ appended tr ->
  u <> base_url c0 ->
  enqueued_once c0 tr -> enqueued_once c0 (tr ++ [Append u]).
Proof.
  intros H1 H2 H3 H4 H l1 l2 v Heq.
  apply snoc_split in Heq as [[_ [-> Hx]] | [l2' [_ Htr]]].
  - injection Hx as ->. auto.
  - now apply (H l1 l2').
Qed.

Lemma frontier_quiet c0 e st :
  (forall u, e <> Append u) -> (forall u, e <> Crawling u) ->
  frontier_inv c0 st -> frontier_inv c0 (emit e st).
Proof.
  intros Ha Hc [H1 H2 H3 H4 H5 H6].
  assert (Ec : crawled (trace st ++ [e]) = crawled (trace st)).
  { rewrite crawled_snoc. destruct e; try apply app_nil_r. now destruct (Hc url). }
  assert (Ea : appended (trace st ++ [e]) = appended (trace st)).
  { rewrite appended_snoc. destruct e; try apply app_nil_r. now destruct (Ha url). }
  split; simpl; rewrite ?Ec, ?Ea; auto.
  now apply enqueued_once_quiet.
Qed.

Lemma frontier_record w c0 url ct m t n pp st :
  frontier_inv c0 st ->
  frontier_inv c0 (on_self (record_finding w url ct m t n pp) st).
Proof. intros [H1 H2 H3 H4 H5 H6]. split; simpl; auto. Qed.

Lemma frontier_enqueue c0 link st :
  link ∉ visited_urls (self st) -> link ∉ url_queue st ->
  frontier_inv c0 st -> frontier_inv c0 (enqueue link st).
Proof.
  intros Hv Hq [H1 H2 H3 H4 H5 H6].
  split; simpl; rewrite ?crawled_snoc, ?appended_snoc, ?app_nil_r; auto.
  - intros u Hu. apply elem_of_app in Hu as [Hu|Hu].
    + destruct (H3 u Hu); [left; apply elem_of_app; auto | auto].
    + apply list_elem_of_singleton in Hu as ->. left. apply elem_of_app.
      right. now apply list_elem_of_singleton.
  - destruct H4; [left; apply elem_of_app; auto | auto].
  - apply enqueued_once_append; auto.
    + intros Hu. now apply (H2 link) in Hu as [? ?].
    + intros Hu. now destruct (H3 link Hu).
    + intros ->. now destruct H4.
Qed.

Lemma frontier_next w c0 st :
  frontier_inv c0 st -> frontier_inv c0 (fst (next_url w st)).
Proof.
  intros [H1 H2 H3 H4 H5 H6]. unfold next_url.
  destruct (url_queue st) as [|u rest] eqn:Q;
    [simpl; split; rewrite ?Q; assumption|].
  case_bool_decide as Hu; simpl.
  - split; simpl; rewrite ?crawled_snoc, ?appended_snoc, ?app_nil_r; auto.
    + intros v Hv. destruct (H3 v Hv) as [Hq|]; auto.
      apply elem_of_cons in Hq as [->|]; auto.
    + destruct H4 as [Hq|]; auto. apply elem_of_cons in Hq as [->|]; auto.
    + now apply enqueued_once_quiet.
  - assert (Hvis : forall c, visited_urls
              (if (S (pages_crawled st) mod 50 =? 0)%nat
               then save_progress w (S (pages_crawled st)) u c else c)
              = visited_urls c)
      by (intros c; now destruct (_ =? _)%nat).
    split; simpl; rewrite ?Hvis; simpl;
      rewrite ?crawled_snoc, ?appended_snoc, ?app_nil_r; simpl;
      rewrite ?crawled_snoc, ?appended_snoc, ?app_nil_r.
    + set_solver.
    + intros v Hv. apply elem_of_app in Hv as [Hv|Hv].
      * destruct (H2 v Hv). split; [set_solver | auto].
      * apply list_elem_of_singleton in Hv as ->. split; [set_solver|].
        intros Hin. apply Hu. now apply H1.
    + intros v Hv. destruct (H3 v Hv) as [Hq|]; [|right; set_solver].
      apply elem_of_cons in Hq as [->|]; [right; set_solver | auto].
    + destruct H4 as [Hq|]; [|right; set_solver].
      apply elem_of_cons in Hq as [->|]; [right; set_solver | auto].
    + apply NoDup_app. repeat split; auto.
      * intros v Hv Hv'. apply list_elem_of_singleton in Hv' as ->.
        now destruct (H2 u Hv).
      * apply NoDup_singleton.
    + apply enqueued_once_quiet; [discriminate|].
      now apply enqueued_once_quiet.
Qed.

Lemma frontier_start c : frontier_inv c (start c).
Proof.
  split; simpl; try (intros u Hu; now apply elem_of_nil in Hu).
  - reflexivity.
  - left. now apply list_elem_of_singleton.
  - constructor.
  - intros l1 l2 u H. now destruct l1.
Qed.

(** The invariant holds after any number of iterations. *)
Lemma frontier_iterations V w max_pages k c :
  frontier_inv c (iterations V w k max_pages (start c)).
Proof.
  apply iterations_preserved; [..|apply frontier_start].
  - intros. now apply frontier_quiet.
  - intros. now apply frontier_quiet.
  - intros. now apply frontier_quiet.
  - intros. now apply frontier_record.
  - intros. now apply frontier_enqueue.
  - intros. now apply frontier_next.
Qed.

(** ** The loop ends *)

Lemma crawl_loop_iterations V w max_pages fuel :
  forall st st',
    crawl_loop V w fuel max_pages st = Some st' ->
    st' = iterations V w fuel max_pages st
    /\ loop_condition max_pages st' = false.
Proof.
  induction fuel as [|fuel IH]; intros st st'; simpl.
  - destruct (loop_condition max_pages st) eqn:E; [discriminate|].
    intros [= <-]. auto.
  - destruct (loop_condition max_pages st) eqn:E.
    + apply IH.
    + intros [= <-]. auto.
Qed.

Lemma iterations_add V w max_pages j :
  forall d st,
    iterations V w (j + d) max_pages st
    = iterations V w d max_pages (iterations V w j max_pages st).
Proof.
  induction j as [|j IH]; intros d st; simpl; [reflexivity|].
  destruct (loop_condition max_pages st) eqn:E; [apply IH|].
  destruct d; simpl; [reflexivity | now rewrite E].
Qed.

Lemma process_pages V w cur st :
  pages_crawled (process V w cur st) = pages_crawled st.
Proof.
  apply (process_preserved V w (fun s => pages_crawled s = pages_crawled st));
    auto.
Qed.

Lemma process_queue_fresh V w cur st :
  queue_fresh st -> queue_fresh (process V w cur st).
Proof.
  apply (process_preserved V w queue_fresh); auto.
  intros link s _ _ Hv Hq _ [Hnd Hfresh]. split; simpl.
  - apply NoDup_app. repeat split; auto.
    + intros u Hu Hu'. apply list_elem_of_singleton in Hu' as ->. auto.
    + apply NoDup_singleton.
  - intros u Hu. apply elem_of_app in Hu as [Hu|Hu]; auto.
    now apply list_elem_of_singleton in Hu as ->.
Qed.

(** With a fresh queue an iteration takes up a URL. *)
Lemma iteration_fresh V w max_pages st :
  queue_fresh st -> loop_condition max_pages st = true ->
  queue_fresh (iteration V w st)
  /\ pages_crawled (iteration V w st) = S (pages_crawled st).
Proof.
  intros [Hnd Hfresh] Hc. unfold iteration, next_url, loop_condition in *.
  destruct (url_queue st) as [|u rest] eqn:Q; [discriminate|].
  apply NoDup_cons in Hnd as [Hu Hnd].
  rewrite bool_decide_eq_false_2 by (apply Hfresh; now left).
  split.
  - apply process_queue_fresh. split; simpl; auto.
    intros v Hv.
    assert (Hvis : forall c, visited_urls
              (if (S (pages_crawled st) mod 50 =? 0)%nat
               then save_progress w (S (pages_crawled st)) u c else c)
              = visited_urls c)
      by (intros c; now destruct (_ =? _)%nat).
    rewrite Hvis. simpl. intros Hin. apply elem_of_union in Hin as [Hin|Hin].
    + apply (Hfresh v); [now right | auto].
    + apply elem_of_singleton in Hin as ->. auto.
  - now rewrite process_pages.
Qed.

Lemma crawl_loop_fresh V w max_pages fuel :
  forall st,
    queue_fresh st -> max_pages - pages_crawled st <= fuel ->
    exists st', crawl_loop V w fuel max_pages st = Some st'.
Proof.
  induction fuel as [|fuel IH]; intros st Hq Hf; simpl;
    destruct (loop_condition max_pages st) eqn:E; eauto.
  - exfalso. unfold loop_condition in E.
    destruct (url_queue st); [discriminate|].
    apply Nat.ltb_lt in E. lia.
  - destruct (iteration_fresh V w max_pages st Hq E) as [Hq' Hp].
    apply IH; auto.
    unfold loop_condition in E. destruct (url_queue st); [discriminate|].
    apply Nat.ltb_lt in E. lia.
Qed.

(** [crawl_site] returns: one more iteration than [max_pages] is never
    needed. *)
Lemma crawl_site_returns V w max_pages c :
  exists c' evs, crawl_site V w max_pages c = Some (c', evs).
Proof.
  unfold crawl_site.
  assert (H : exists st,
             crawl_loop V w (S max_pages) max_pages (start c) = Some st).
  { destruct (decide (base_url c ∈ visited_urls c)) as [Hin|Hout].
    - simpl. destruct (loop_condition max_pages (start c)); eauto.
      unfold iteration, next_url. simpl.
      rewrite bool_decide_eq_true_2 by exact Hin.
      destruct max_pages; simpl; eauto.
    - apply crawl_loop_fresh; [|simpl; lia].
      split; simpl; [apply NoDup_singleton|].
      intros u Hu. now apply list_elem_of_singleton in Hu as ->. }
  destruct H as [st ->]. simpl. unfold finish. eauto.
Qed.

(** ** No revisit *)

Lemma next_url_visited w st :
  visited_urls (self st) ⊆ visited_urls (self (fst (next_url w st))).
Proof.
  unfold next_url. destruct (url_queue st) as [|u rest]; [reflexivity|].
  case_bool_decide; simpl; [reflexivity|].
  destruct (_ =? _)%nat; simpl; apply union_subseteq_l.
Qed.

Lemma iterations_visited V w max_pages d st :
  visited_urls (self st)
  ⊆ visited_urls (self (iterations V w d max_pages st)).
Proof.
  apply (iterations_preserved V w
           (fun s => visited_urls (self st) ⊆ visited_urls (self s)));
    auto.
  intros s H. etransitivity; [exact H | apply next_url_visited].
Qed.

(** A URL is marked visited when it is handed out. *)
Lemma next_url_marks w st st' u :
  next_url w st = (st', Some u) ->
  (u ∉ visited_urls (self st)) /\ u ∈ visited_urls (self st')
  /\ url_queue st = u :: url_queue st'.
Proof.
  unfold next_url. destruct (url_queue st) as [|v rest]; [discriminate|].
  case_bool_decide as Hv; [discriminate|]. intros [= <- <-]. simpl.
  repeat split; auto.
  destruct (_ =? _)%nat; simpl; apply elem_of_union_r, elem_of_singleton;
    reflexivity.
Qed.

Lemma enqueued_once_prefix c tr l :
  enqueued_once c (tr ++ l) -> enqueued_once c tr.
Proof.
  intros H l1 l2 u Heq. apply (H l1 (l2 ++ l)).
  rewrite Heq, <- app_assoc. reflexivity.
Qed.

Lemma enqueued_once_nodup c tr :
  enqueued_once c tr -> NoDup (appended tr).
Proof.
  induction tr as [|e tr IH] using rev_ind; intros H; [constructor|].
  specialize (IH (enqueued_once_prefix _ _ _ H)).
  rewrite appended_snoc. destruct e; rewrite ?app_nil_r; auto.
  apply NoDup_app. repeat split; auto; [|apply NoDup_singleton].
  intros u Hu Hu'. apply list_elem_of_singleton in Hu' as ->.
  destruct (H tr [] url eq_refl) as [_ [_ [Hn _]]]. auto.
Qed.

(** A link that is visited or queued already is passed over. *)
Lemma visit_link_known V w cur st link :
  link ∈ visited_urls (self st) \/ link ∈ url_queue st ->
  visit_link V w cur st link = st.
Proof.
  intros H. unfold visit_link.
  destruct (is_valid_url w (self st) link); [|reflexivity].
  destruct (skip_url V link); [reflexivity|]. cbn [negb andb].
  destruct H as [H|H].
  - rewrite (bool_decide_eq_false_2 (link ∉ visited_urls (self st)))
      by (intros Hn; now apply Hn).
    reflexivity.
  - rewrite (bool_decide_eq_false_2 (link ∉ url_queue st))
      by (intros Hn; now apply Hn).
    now rewrite andb_false_r.
Qed.

(** C2. No revisit.  In a run of [crawl_site], after any number of
    iterations: no URL has been taken up for processing twice; every URL
    taken up is in the visited set; the visited set only grows; and every
    URL appended to the queue was, when it was appended, neither visited
    nor ever in the queue before, so that no URL is appended twice.  A URL
    is put into the visited set by the step that hands it out, and a link
    that is visited or queued already is passed over.  The run ends, and
    the same holds of its whole trace. *)
Theorem no_revisit (V : Variant) (w : Web) (max_pages : nat) (c : Crawler) :
  (forall k,
      let st := iterations V w k max_pages (start c) in
      NoDup (crawled (trace st))
      /\ (forall u, u ∈ crawled (trace st) -> u ∈ visited_urls (self st))
      /\ (forall j, j <= k ->
            visited_urls (self (iterations V w j max_pages (start c)))
            ⊆ visited_urls (self st))
      /\ enqueued_once c (trace st)
      /\ NoDup (appended (trace st)))
  /\ (forall st st' u,
        next_url w st = (st', Some u) ->
        (u ∉ visited_urls (self st)) /\ u ∈ visited_urls (self st')
        /\ url_queue st = u :: url_queue st')
  /\ (forall cur st link,
        link ∈ visited_urls (self st) \/ link ∈ url_queue st ->
        visit_link V w cur st link = st)
  /\ (exists c' evs,
        crawl_site V w max_pages c = Some (c', evs)
        /\ NoDup (crawled evs)
        /\ (forall u, u ∈ crawled evs -> u ∈ visited_urls c')
        /\ visited_urls c ⊆ visited_urls c'
        /\ enqueued_once c evs
        /\ NoDup (appended evs)).
Proof.
  split; [|split; [|split]].
  - intros k st. destruct (frontier_iterations V w max_pages k c)
      as [H1 H2 H3 H4 H5 H6].
    split; [exact H5|]. split; [|split; [|split]].
    + intros u Hu. now destruct (H2 u Hu).
    + intros j Hj. subst st. replace k with (j + (k - j)) by lia.
      rewrite iterations_add. apply iterations_visited.
    + exact H6.
    + now apply (enqueued_once_nodup c).
  - apply next_url_marks.
  - apply visit_link_known.
  - destruct (crawl_site_returns V w max_pages c) as [c' [evs Hrun]].
    exists c', evs. split; [exact Hrun|].
    unfold crawl_site in Hrun.
    destruct (crawl_loop V w (S max_pages) max_pages (start c)) as [st|] eqn:E;
      [|discriminate].
    apply crawl_loop_iterations in E as [-> _].
    injection Hrun as <- <-.
    destruct (frontier_iterations V w max_pages (S max_pages) c)
      as [H1 H2 H3 H4 H5 H6].
    split; [exact H5|]. split; [|split; [|split]].
    + intros u Hu. now destruct (H2 u Hu).
    + exact H1.
    + exact H6.
    + now apply (enqueued_once_nodup c).
Qed.

Lemma no_revisit_witness :
  exists c' evs,
    crawl_site Baseline.variant (Demo.web Demo.site_with_failure) 10
               Demo.crawler = Some (c', evs)
    /\ crawled evs
       = [Demo.root; "https://www.slusd.us/a"; "https://www.slusd.us/b"]
    /\ (forall u, u ∈ crawled evs -> u ∈ visited_urls c').
Proof.
  destruct (proj2 (proj2 (proj2 (no_revisit Baseline.variant
                                   (Demo.web Demo.site_with_failure) 10
                                   Demo.crawler))))
    as [c' [evs [Hrun [_ [Hvis _]]]]].
  exists c', evs. repeat split; auto.
  vm_compute in Hrun. injection Hrun as _ <-. reflexivity.
Defined.

(** ** check_pdf_content *)

Lemma text_content_from acc pages :
  fold_left (fun acc page =>
               match page with
               | Returned page_text => acc +:+ page_text
               | Raised => acc
               end) pages acc
  = acc +:+ joined (extracted pages).
Proof.
  revert acc. induction pages as [|[|t] pages IH]; intros acc; simpl.
  - now rewrite app_empty_r.
  - apply IH.
  - rewrite IH. apply app_assoc_s.
Qed.

(** The text the baseline file checks is the concatenation of the pages
    that could be read. *)
Lemma text_content_joined pages :
  Baseline.text_content pages = joined (extracted pages).
Proof. unfold Baseline.text_content. now rewrite text_content_from. Qed.

(** The fast file checks the pages that could be read one by one. *)
Lemma check_pages_first_found ps q pages :
  Fast.check_pages ps q pages
  = first_found (Fast.check_address_in_text ps q) (extracted pages).
Proof.
  induction pages as [|[|t] pages IH]; simpl; auto.
  destruct (Str.contains q t) eqn:E.
  - destruct (Fast.check_address_in_text ps q t) as [[] m]; auto.
  - assert (H : Fast.check_address_in_text ps q t = (false, None)).
    { unfold Fast.check_address_in_text. rewrite E.
      destruct (Str.truthy t); reflexivity. }
    now rewrite H.
Qed.

(** C7. Partial document resilience, as the two files have it.  No page
    that cannot be read stops the check, and [check_pdf_content] always
    returns.  In the baseline file the text that is checked is the
    concatenation, in page order, of the pages that could be read.  In the
    fast file these pages are checked one by one, in page order, and the
    result is that of the first page in which the address is found.  That
    is the result of the fast [check_pdf_content] when the size probe
    returns and names no length, or a length of at most 50 MB; when the
    probe raises, names a length that is no number, or names more than
    50 MB, the result is not found. *)
Theorem partial_document_resilience
    (ps : list re) (q : string) (w : Web) (url : string)
    (pages : list (Outcome string)) :
  pdf_reader w url = Returned pages ->
  Baseline.check_pdf_content ps w url
  = Baseline.check_address_in_text ps (joined (extracted pages))
  /\ Fast.check_pages ps q pages
     = first_found (Fast.check_address_in_text ps q) (extracted pages)
  /\ (session_head w url = Returned None
      \/ (exists n, session_head w url = Returned (Some (Returned n))
                    /\ (n <= 50 * 1024 * 1024)%Z) ->
      Fast.check_pdf_content ps q w url
      = first_found (Fast.check_address_in_text ps q) (extracted pages))
  /\ (session_head w url = Raised
      \/ session_head w url = Returned (Some Raised)
      \/ (exists n, session_head w url = Returned (Some (Returned n))
                    /\ (50 * 1024 * 1024 < n)%Z) ->
      Fast.check_pdf_content ps q w url = (false, None)).
Proof.
  intros Hp. split; [|split; [|split]].
  - unfold Baseline.check_pdf_content. now rewrite Hp, text_content_joined.
  - apply check_pages_first_found.
  - rewrite <- check_pages_first_found. unfold Fast.check_pdf_content.
    intros [H | [n [H Hn]]]; rewrite H, Hp; [reflexivity|].
    unfold Fast.too_large.
    now destruct (Z.ltb_spec (50 * 1024 * 1024) n); [lia|].
  - unfold Fast.check_pdf_content.
    intros [H | [H | [n [H Hn]]]]; rewrite H; try reflexivity.
    unfold Fast.too_large.
    now destruct (Z.ltb_spec (50 * 1024 * 1024) n); [|lia].
Qed.

(** A document of ten pages whose pages 3 and 7 cannot be read. *)
Lemma partial_document_resilience_witness :
  joined (extracted Demo.ten_pages)
  = "one Office: 835 E. 14th St. five six eight nine ten"
  /\ Baseline.check_pdf_content Baseline.compiled_patterns
       (Demo.document_web Demo.ten_pages) Demo.doc
     = (true, Some "835 E. 14th St.").
Proof.
  split; [reflexivity|].
  rewrite (proj1 (partial_document_resilience Baseline.compiled_patterns
                    Fast.quick_check (Demo.document_web Demo.ten_pages)
                    Demo.doc Demo.ten_pages eq_refl)).
  vm_compute. reflexivity.
Defined.

(** In the fast file the text that is checked is not the concatenation of
    the pages: an address that runs over a page break is found in the
    concatenation and not by [check_pdf_content]. *)
Lemma partial_document_counterexample :
  Fast.check_address_in_text Fast.compiled_patterns Fast.quick_check
    (joined (extracted Demo.split_pages)) = (true, Some "14735 Juniper St")
  /\ Fast.check_pdf_content Fast.compiled_patterns Fast.quick_check
       (Demo.document_web Demo.split_pages) Demo.doc = (false, None)
  /\ Fast.check_pdf_content Fast.compiled_patterns Fast.quick_check
       (Demo.document_web Demo.split_pages) Demo.doc
     <> Fast.check_address_in_text Fast.compiled_patterns Fast.quick_check
          (joined (extracted Demo.split_pages)).
Proof.
  assert (H1 : Fast.check_address_in_text Fast.compiled_patterns
                 Fast.quick_check (joined (extracted Demo.split_pages))
               = (true, Some "14735 Juniper St"))
    by (vm_compute; reflexivity).
  assert (H2 : Fast.check_pdf_content Fast.compiled_patterns Fast.quick_check
                 (Demo.document_web Demo.split_pages) Demo.doc
               = (false, None))
    by (vm_compute; reflexivity).
  split; [exact H1 | split; [exact H2|]].
  rewrite H1, H2. discriminate.
Qed.

(** ** Failed fetches and the sleep *)











(** C9, on the code.  The root links to two pages, of which the first
    cannot be fetched: the crawler sleeps after the root, and takes up the
    second page right after the failed fetch of the first, without a sleep
    between the two.  Both files behave so; the [continue] statements of
    the loop body leave it before [time.sleep]. *)
Theorem no_sleep_after_failed_fetch :
  (exists c,
      crawl_site Baseline.variant (Demo.web Demo.site_with_failure) 10
                 Demo.crawler
      = Some (c, [ Popleft Demo.root; Crawling Demo.root; Get Demo.root;
                   Append "https://www.slusd.us/a";
                   Append "https://www.slusd.us/b"; Sleep 500;
                   Popleft "https://www.slusd.us/a";
                   Crawling "https://www.slusd.us/a";
                   Get "https://www.slusd.us/a";
                   Popleft "https://www.slusd.us/b";
                   Crawling "https://www.slusd.us/b";
                   Get "https://www.slusd.us/b"; Sleep 500 ]))
  /\ (exists c evs,
        crawl_site Baseline.variant (Demo.web Demo.site_with_failure) 10
                   Demo.crawler = Some (c, evs)
        /\ rate_limited evs = false)
  /\ (exists c evs,
        crawl_site Fast.variant (Demo.web Demo.site_with_failure) 10
                   Demo.crawler = Some (c, evs)
        /\ rate_limited evs = false).
Proof.
  split; [|split].
  - eexists. vm_compute. reflexivity.
  - do 2 eexists. split; [vm_compute; reflexivity|]. vm_compute. reflexivity.
  - do 2 eexists. split; [vm_compute; reflexivity|]. vm_compute. reflexivity.
Qed.

(** ** The progress file *)







Lemma record_finding_progress w url ct m t n pp c :
  progress_file (files (record_finding w url ct m t n pp c))
  = progress_file (files c).
Proof. reflexivity. Qed.
















(** The state in which an interrupted run of [main] ends is one of the
    states of the run. *)
Lemma main_interrupted V w fs n r :
  main V w fs (Some n) = Some r -> exit r = Interrupted ->
  exists c st,
    SLUSDCrawler w "https://www.slusd.us" fs = Returned c
    /\ (start c :: crawl_states V w (S (main_max_pages V)) (main_max_pages V)
                                (start c)) !! n = Some st
    /\ crawler r = Some (self st) /\ events r = trace st.
Proof.
  unfold main.
  destruct (SLUSDCrawler w "https://www.slusd.us" fs) as [|c];
    [intros [= <-]; discriminate|].
  destruct ((start c :: crawl_states V w _ _ (start c)) !! n) as [st|] eqn:E.
  - intros [= <-] _. exists c, st. auto.
  - destruct (crawl_site V w (main_max_pages V) c) as [[c' evs]|];
      [|discriminate].
    intros [= <-]. discriminate.
Qed.






(** On a site of sixty pages the interrupt arrives while the fiftieth URL
    is taken up: before the save for it begins the progress file is as it
    was, then it is empty, then it holds the first lines of the save; a
    step after the save it holds the five lines. *)
Example interruption_during_save :
  (exists r c,
      main Baseline.variant (Demo.web (Demo.chain 60)) Demo.no_files
           (Some 297) = Some r
      /\ crawler r = Some c /\ length (crawled (events r)) = 50
      /\ progress_file (files c) = None)
  /\ (exists r c,
        main Baseline.variant (Demo.web (Demo.chain 60)) Demo.no_files
             (Some 298) = Some r
        /\ crawler r = Some c /\ length (crawled (events r)) = 50
        /\ progress_file (files c) = Some "")
  /\ (exists r c,
        main Baseline.variant (Demo.web (Demo.chain 60)) Demo.no_files
             (Some 300) = Some r
        /\ crawler r = Some c /\ length (crawled (events r)) = 50
        /\ progress_file (files c)
           = Some (written
                     [ "Pages crawled: 50" +:+ Summary.nl;
                       "Current URL: https://www.slusd.us/p49"
                       +:+ Summary.nl ]))
  /\ (exists r c,
        main Baseline.variant (Demo.web (Demo.chain 60)) Demo.no_files
             (Some 304) = Some r
        /\ crawler r = Some c /\ length (crawled (events r)) = 50
        /\ progress_file (files c)
           = Some (written
                     [ "Pages crawled: 50" +:+ Summary.nl;
                       "Current URL: https://www.slusd.us/p49"
                       +:+ Summary.nl;
                       "Found pages: 0" +:+ Summary.nl;
                       "Found PDFs: 0" +:+ Summary.nl;
                       "Last update: 2025-01-01 00:00:00" +:+ Summary.nl ])).
Proof.
  repeat split; do 2 eexists;
    (split; [vm_compute; reflexivity|]);
    (split; [reflexivity|]); split; vm_compute; reflexivity.
Qed.

(** ** The findings file *)

Lemma written_cons x l : written (x :: l) = x +:+ written l.
Proof.
  unfold written. destruct l as [|y l]; [|reflexivity].
  simpl. now rewrite app_empty_r.
Qed.

Lemma written_app l1 l2 : written (l1 ++ l2) = written l1 +:+ written l2.
Proof.
  induction l1 as [|x l1 IH]; [reflexivity|].
  change ((x :: l1) ++ l2) with (x :: (l1 ++ l2)).
  now rewrite !written_cons, IH, app_assoc_s.
Qed.

Lemma rows_text_app rows new :
  rows_text (rows ++ new) = rows_text rows +:+ rows_text new.
Proof. unfold rows_text. now rewrite map_app, written_app. Qed.

Lemma rows_text_one row : rows_text [row] = csv_row row.
Proof. reflexivity. Qed.

Lemma finding_row_not_header row : finding_row row -> row <> fieldnames.
Proof.
  intros [r [-> [H|H]]] E; unfold writerow, fieldnames in E;
    injection E as _ E _; rewrite H in E; discriminate.
Qed.

Lemma header_rows_app rows new :
  Forall finding_row new -> header_rows (rows ++ new) = header_rows rows.
Proof.
  intros H. unfold header_rows. rewrite filter_app, length_app.
  induction H as [|row new Hrow _ IH]; [simpl; lia|].
  rewrite filter_cons_False by (now apply finding_row_not_header). exact IH.
Qed.

(** What [record_finding] does to the findings file. *)
Lemma record_finding_output w url ct m t n pp c :
  output_file (files (record_finding w url ct m t n pp c))
  = Some (default "" (output_file (files c))
          +:+ csv_row (writerow
                {| URL := url; Type_ := ct; Title := t;
                   Address_Found := m; Notes := n; Parent_Page := pp;
                   Timestamp := datetime_now w (clock c) |})).
Proof. reflexivity. Qed.

Lemma output_record w text url ct m t n pp c :
  ct = "PDF" \/ ct = "HTML Page" ->
  output_inv text (files c) ->
  output_inv text (files (record_finding w url ct m t n pp c)).
Proof.
  intros Hct [new [Ho Hn]]. unfold output_inv.
  rewrite record_finding_output.
  exists (new ++ [writerow
    {| URL := url; Type_ := ct; Title := t; Address_Found := m; Notes := n;
       Parent_Page := pp; Timestamp := datetime_now w (clock c) |}]).
  split.
  - rewrite Ho. cbn [from_option id].
    now rewrite rows_text_app, app_assoc_s.
  - apply Forall_app. split; [exact Hn|]. constructor; [|constructor].
    eexists. split; [reflexivity|]. exact Hct.
Qed.

(** The head of the loop body and [save_progress] leave the findings file
    alone. *)
Lemma save_states_output w pages u c :
  Forall (fun c' => output_file (files c') = output_file (files c))
         (save_progress_states w pages u c).
Proof. unfold save_progress_states. cbn [map app]. repeat constructor. Qed.

Lemma next_url_states_files w st :
  Forall (fun s => output_file (files (self s)) = output_file (files (self st))
                   /\ found_pages (self s) = found_pages (self st)
                   /\ found_pdfs (self s) = found_pdfs (self st))
         (next_url_states w st).
Proof.
  unfold next_url_states. destruct (url_queue st) as [|u rest]; [constructor|].
  case_bool_decide; [repeat constructor|].
  cbv zeta. apply Forall_app. split; [repeat constructor|].
  destruct (_ =? _)%nat; [|constructor].
  unfold save_progress_states. cbn [map app]. repeat constructor.
Qed.

Lemma next_url_files w st :
  output_file (files (self (fst (next_url w st))))
  = output_file (files (self st))
  /\ found_pages (self (fst (next_url w st))) = found_pages (self st)
  /\ found_pdfs (self (fst (next_url w st))) = found_pdfs (self st).
Proof.
  unfold next_url. destruct (url_queue st) as [|u rest]; [auto|].
  case_bool_decide; cbn [fst self]; [auto|].
  destruct (_ =? _)%nat; auto.
Qed.

Lemma output_next w text st :
  output_inv text (files (self st)) ->
  output_inv text (files (self (fst (next_url w st)))).
Proof.
  intros [new [H1 H2]]. exists new. split; [|exact H2].
  now rewrite (proj1 (next_url_files w st)).
Qed.

Lemma output_iterations V w max_pages k text c :
  output_inv text (files c) ->
  output_inv text (files (self (iterations V w k max_pages (start c)))).
Proof.
  intros H.
  apply (iterations_preserved V w
           (fun st => output_inv text (files (self st)))); auto.
  - intros. now apply output_record.
  - intros. now apply output_next.
Qed.

(** The same at every step of a run. *)
Lemma output_crawl_states V w max_pages fuel text st :
  output_inv text (files (self st)) ->
  Forall (fun s => output_inv text (files (self s)))
         (crawl_states V w fuel max_pages st).
Proof.
  apply (crawl_states_preserved V w
           (fun s => output_inv text (files (self s)))); auto.
  - intros. now apply output_record.
  - intros s [new [H1 H2]].
    eapply Forall_impl; [apply next_url_states_files|].
    intros s' [E _]. exists new. now rewrite E.
  - intros. now apply output_next.
  - intros s u [new [H1 H2]]. apply Forall_fmap.
    eapply Forall_impl; [apply save_states_output|].
    intros c' E. exists new. simpl. now rewrite E.
Qed.

Lemma main_returns V w fs signal : exists r, main V w fs signal = Some r.
Proof.
  unfold main. destruct (SLUSDCrawler w _ fs) as [|c]; [eauto|].
  destruct (crawl_site_returns V w (main_max_pages V) c) as [c' [evs Hrun]].
  rewrite Hrun. simpl. destruct signal as [n|]; [|eauto].
  destruct (_ !! n); eauto.
Qed.

Lemma crawl_site_appends V w max_pages text c c' evs :
  output_inv text (files c) ->
  crawl_site V w max_pages c = Some (c', evs) ->
  output_inv text (files c').
Proof.
  intros Hc Hrun. unfold crawl_site in Hrun.
  destruct (crawl_loop V w _ _ (start c)) as [st|] eqn:E; [|discriminate].
  apply crawl_loop_iterations in E as [E _]. injection Hrun as <- _.
  rewrite E.
  exact (output_iterations V w max_pages (S max_pages) text c Hc).
Qed.

(** The constructor writes the header when there is no findings file, and
    leaves the file alone when there is one. *)
Lemma constructor_output w base fs c :
  SLUSDCrawler w base fs = Returned c ->
  output_file (files c)
  = Some (default (csv_row fieldnames) (output_file fs))
  /\ found_pages c = [] /\ found_pdfs c = [].
Proof.
  unfold SLUSDCrawler. destruct (urlparse_netloc w _); [discriminate|].
  intros [= <-]. simpl. unfold init_csv_file.
  destruct (output_file fs) eqn:E; simpl; rewrite ?E; auto.
Qed.

(** A run of [main], completed or interrupted at any step, leaves the text
    of the findings file in place and adds rows of findings only. *)
Lemma main_appends V w fs signal r :
  main V w fs signal = Some r ->
  match crawler r with
  | Some c =>
      output_inv (default (csv_row fieldnames) (output_file fs)) (files c)
  | None => SLUSDCrawler w "https://www.slusd.us" fs = Raised
  end.
Proof.
  unfold main.
  destruct (SLUSDCrawler w _ fs) as [|c] eqn:Ec.
  { now intros [= <-]. }
  assert (Hc : output_inv (default (csv_row fieldnames) (output_file fs))
                          (files c)).
  { exists []. split; [|constructor].
    rewrite (proj1 (constructor_output _ _ _ _ Ec)).
    unfold rows_text. simpl. now rewrite app_empty_r. }
  pose proof (fun c' evs =>
                crawl_site_appends V w (main_max_pages V) _ c c' evs Hc)
    as Hdone.
  pose proof (output_crawl_states V w (main_max_pages V)
                (S (main_max_pages V)) _ (start c) Hc) as Hall.
  assert (Hint : forall n st,
             (start c :: crawl_states V w (S (main_max_pages V))
                           (main_max_pages V) (start c)) !! n = Some st ->
             output_inv (default (csv_row fieldnames) (output_file fs))
                        (files (self st))).
  { intros n st Hn. apply list_elem_of_lookup_2 in Hn.
    apply elem_of_cons in Hn as [->|Hn]; [exact Hc|].
    rewrite Forall_forall in Hall. now apply Hall. }
  destruct signal as [n|].
  - destruct (_ !! n) as [st|] eqn:En.
    + intros [= <-]. exact (Hint n st En).
    + destruct (crawl_site V w (main_max_pages V) c) as [[c' evs]|];
        [|discriminate].
      intros [= <-]. now apply (Hdone c' evs).
  - destruct (crawl_site V w (main_max_pages V) c) as [[c' evs]|];
      [|discriminate].
    intros [= <-]. now apply (Hdone c' evs).
Qed.

Lemma rerun_returns runs : forall fs, exists fs', rerun runs fs = Some fs'.
Proof.
  induction runs as [|[[V w] signal] runs IH]; intros fs; simpl; [eauto|].
  destruct (main_returns V w fs signal) as [r ->]. apply IH.
Qed.

(** Runs on a findings file that exists. *)
Lemma rerun_appends runs :
  forall fs fs' text,
    output_file fs = Some text ->
    rerun runs fs = Some fs' ->
    exists new,
      output_file fs' = Some (text +:+ rows_text new)
      /\ Forall finding_row new.
Proof.
  induction runs as [|[[V w] signal] runs IH]; intros fs fs' text Hfs; simpl.
  - intros [= <-]. exists []. unfold rows_text. simpl.
    rewrite app_empty_r. auto.
  - destruct (main V w fs signal) as [r|] eqn:Hr; [|discriminate].
    pose proof (main_appends V w fs signal r Hr) as Hm.
    destruct (crawler r) as [c|]; cbn [files_after].
    + destruct Hm as [new1 [H1 F1]]. rewrite Hfs in H1. cbn [from_option id] in H1.
      intros Hrest. destruct (IH _ _ _ H1 Hrest) as [new2 [H2 F2]].
      exists (new1 ++ new2). split; [|now apply Forall_app].
      now rewrite H2, rows_text_app, app_assoc_s.
    + apply IH. exact Hfs.
Qed.

(** Runs when there is no findings file: as long as the constructor raises
    there is none; the first constructor that returns writes the header. *)
Lemma rerun_creates runs :
  forall fs fs',
    output_file fs = None ->
    rerun runs fs = Some fs' ->
    output_file fs' = None
    \/ exists new,
         output_file fs' = Some (rows_text (fieldnames :: new))
         /\ Forall finding_row new.
Proof.
  induction runs as [|[[V w] signal] runs IH]; intros fs fs' Hfs; simpl.
  - intros [= <-]. now left.
  - destruct (main V w fs signal) as [r|] eqn:Hr; [|discriminate].
    pose proof (main_appends V w fs signal r Hr) as Hm.
    destruct (crawler r) as [c|]; cbn [files_after].
    + destruct Hm as [new1 [H1 F1]]. rewrite Hfs in H1. cbn [from_option id] in H1.
      intros Hrest.
      destruct (rerun_appends runs _ _ _ H1 Hrest) as [new2 [H2 F2]].
      right. exists (new1 ++ new2). split; [|now apply Forall_app].
      rewrite H2.
      change (fieldnames :: new1 ++ new2)
        with ([fieldnames] ++ (new1 ++ new2)).
      now rewrite !rows_text_app, rows_text_one, !app_assoc_s.
    + apply IH. exact Hfs.
Qed.

(** ** Linked documents *)

Lemma pdf_effect V w url notes parent st :
  url_queue (pdf V w url notes parent st) = url_queue st
  /\ trace (pdf V w url notes parent st) = trace st ++ [CheckPdf url]
  /\ visited_urls (self (pdf V w url notes parent st))
     = visited_urls (self st)
  /\ match check_pdf V w url with
     | (true, m) =>
         found_pdfs (self (pdf V w url notes parent st))
         = found_pdfs (self st)
           ++ [{| URL := url; Type_ := "PDF"; Title := Some "";
                  Address_Found := m; Notes := notes; Parent_Page := parent;
                  Timestamp := datetime_now w (clock (self st)) |}]
         /\ found_pages (self (pdf V w url notes parent st))
            = found_pages (self st)
     | (false, _) => self (pdf V w url notes parent st) = self st
     end.
Proof.
  unfold pdf. destruct (check_pdf V w url) as [[] m]; simpl; auto.
Qed.

Lemma visit_link_pdf V w cur st link :
  is_valid_url w (self st) link = true ->
  skip_url V link = false ->
  link ∉ visited_urls (self st) ->
  link ∉ url_queue st ->
  Str.endswith ".pdf" (Str.lower link) = true ->
  visit_link V w cur st link = pdf V w link "PDF document (linked)" cur st.
Proof.
  intros H1 H2 H3 H4 H5. unfold visit_link.
  rewrite H1, H2, H5, !bool_decide_eq_true_2 by assumption. reflexivity.
Qed.

(** No URL that ends in .pdf is appended to the queue, and none is in it,
    the root apart. *)
Lemma no_pdf_queued V w max_pages k c :
  let st := iterations V w k max_pages (start c) in
  (forall u, u ∈ appended (trace st) ->
             Str.endswith ".pdf" (Str.lower u) = false)
  /\ (forall u, u ∈ url_queue st ->
                u = base_url c \/ Str.endswith ".pdf" (Str.lower u) = false).
Proof.
  apply (iterations_preserved V w
           (fun st =>
              (forall u, u ∈ appended (trace st) ->
                         Str.endswith ".pdf" (Str.lower u) = false)
              /\ (forall u, u ∈ url_queue st ->
                            u = base_url c
                            \/ Str.endswith ".pdf" (Str.lower u) = false))).
  - intros u st [H1 H2]. split; simpl; auto.
    now rewrite appended_snoc, app_nil_r.
  - intros u st [H1 H2]. split; simpl; auto.
    now rewrite appended_snoc, app_nil_r.
  - intros d st [H1 H2]. split; simpl; auto.
    now rewrite appended_snoc, app_nil_r.
  - intros url ct m t n pp st _ [H1 H2]. now split.
  - intros link st _ _ _ _ Hp [H1 H2]. split; simpl.
    + intros u Hu. rewrite appended_snoc in Hu.
      apply elem_of_app in Hu as [Hu|Hu]; auto.
      now apply list_elem_of_singleton in Hu as ->.
    + intros u Hu. apply elem_of_app in Hu as [Hu|Hu]; auto.
      apply list_elem_of_singleton in Hu as ->. auto.
  - intros st [H1 H2]. unfold next_url.
    destruct (url_queue st) as [|u rest] eqn:Q;
      [simpl; split; rewrite ?Q; assumption|].
    case_bool_decide; simpl.
    + split; simpl.
      * now rewrite appended_snoc, app_nil_r.
      * intros v Hv. apply H2. now right.
    + split; simpl.
      * now rewrite !appended_snoc, !app_nil_r.
      * intros v Hv. apply H2. now right.
  - split; simpl.
    + intros u Hu. now apply elem_of_nil in Hu.
    + intros u Hu. left. now apply list_elem_of_singleton in Hu.
Qed.

Lemma crawl_loop_done V w fuel max_pages st :
  loop_condition max_pages st = false ->
  crawl_loop V w fuel max_pages st = Some st.
Proof. intros H. destruct fuel; simpl; now rewrite H. Qed.

(** A fresh crawler on a root page whose only link is a PDF in which the
    address is found. *)
Lemma root_with_pdf_link V w max_pages c html ct soup link m :
  visited_urls c = ∅ -> found_pdfs c = [] ->
  get_page_content w (base_url c) = (Some html, Some ct) ->
  html <> "" -> Str.contains "pdf" (Str.lower ct) = false ->
  safe_parse_html w html = Some soup ->
  extract_links w html (base_url c) = [link] ->
  is_valid_url w c link = true -> skip_url V link = false ->
  link <> base_url c ->
  Str.endswith ".pdf" (Str.lower link) = true ->
  check_pdf V w link = (true, m) ->
  0 < max_pages ->
  exists c' evs r,
    crawl_site V w max_pages c = Some (c', evs)
    /\ found_pdfs c' = [r]
    /\ URL r = link /\ Type_ r = "PDF" /\ Parent_Page r = base_url c
    /\ Address_Found r = m
    /\ crawled evs = [base_url c]
    /\ pdf_checked evs = [link]
    /\ appended evs = [].
Proof.
  intros Hv Hf Hget Hhtml Hct Hparse Hlinks Hvalid Hskip Hne Hpdf Hcheck Hmax.
  unfold crawl_site. cbn [crawl_loop].
  assert (Hc : loop_condition max_pages (start c) = true)
    by (simpl; now apply Nat.ltb_lt).
  rewrite Hc.
  assert (Hroot : bool_decide (base_url c ∈ visited_urls c) = false)
    by (apply bool_decide_eq_false_2; rewrite Hv; apply not_elem_of_empty).
  assert (Hlink : bool_decide (link ∉ visited_urls c ∪ {[base_url c]}) = true).
  { apply bool_decide_eq_true_2. rewrite Hv. set_solver. }
  assert (Hnil : bool_decide (link ∉ @nil string) = true)
    by (apply bool_decide_eq_true_2; apply not_elem_of_nil).
  assert (Hit : exists st,
             iteration V w (start c) = st /\ url_queue st = []
             /\ (exists r, found_pdfs (self st) = [r]
                   /\ URL r = link /\ Type_ r = "PDF"
                   /\ Parent_Page r = base_url c /\ Address_Found r = m)
             /\ trace st = [Popleft (base_url c); Crawling (base_url c);
                            Get (base_url c); CheckPdf link; Sleep (delay V)]).
  { eexists. split; [reflexivity|].
    unfold iteration, next_url. cbn [start url_queue self pages_crawled trace].
    rewrite Hroot. change (1 mod 50 =? 0)%nat with false. cbv iota.
    unfold process. rewrite Hget.
    destruct html as [|a html]; [congruence|].
    rewrite Hct, andb_false_r, Hparse, Hlinks. cbn [fold_left].
    unfold visit_link, is_valid_url in *.
    destruct (check_text V (get_text soup)) as [[] m0];
      cbn [emit on_self self url_queue trace pages_crawled domain
             record_finding add_visited visited_urls];
      rewrite Hvalid, Hskip, Hlink, Hnil, Hpdf; cbn [andb negb];
      unfold pdf; rewrite Hcheck;
      cbn [emit on_self self url_queue trace pages_crawled domain
             record_finding add_visited visited_urls found_pdfs
             String.eqb Ascii.eqb Bool.eqb app];
      rewrite Hf; (split; [reflexivity|]);
      (split; [eexists; repeat split; reflexivity | reflexivity]). }
  destruct Hit as [st [-> [Hq [[r [Hr1 Hr]] Ht]]]].
  rewrite crawl_loop_done by (unfold loop_condition; now rewrite Hq).
  cbn [fmap option_fmap option_map finish].
  do 2 eexists. exists r. split; [reflexivity|].
  cbn [save_progress found_pdfs]. split; [exact Hr1|].
  rewrite Ht. destruct Hr as [? [? [? ?]]]. repeat split; auto.
Qed.

(** C6, as the code has it.  During link discovery a link that passes the
    filter of the loop (in scope, not rejected by the skip filter, not
    visited and not queued) and ends in .pdf, in any case of letters, is
    handed to [check_pdf_content] at once and is not appended to the queue;
    a finding of type PDF with the current page as parent page is recorded
    exactly when that check finds the address.  In no run is a URL that
    ends in .pdf appended to the queue.  So a fresh crawler whose root page
    has one link, to such a PDF in which the check finds the address, ends
    its run with exactly one PDF finding, whose parent page is the root,
    and with nothing appended to the queue. *)
Theorem linked_documents_are_leaves
    (V : Variant) (w : Web) (max_pages : nat) (c : Crawler) :
  (forall cur st link,
      is_valid_url w (self st) link = true ->
      skip_url V link = false ->
      link ∉ visited_urls (self st) ->
      link ∉ url_queue st ->
      Str.endswith ".pdf" (Str.lower link) = true ->
      url_queue (visit_link V w cur st link) = url_queue st
      /\ trace (visit_link V w cur st link) = trace st ++ [CheckPdf link]
      /\ match check_pdf V w link with
         | (true, m) =>
             found_pdfs (self (visit_link V w cur st link))
             = found_pdfs (self st)
               ++ [{| URL := link; Type_ := "PDF"; Title := Some "";
                      Address_Found := m; Notes := "PDF document (linked)";
                      Parent_Page := cur;
                      Timestamp := datetime_now w (clock (self st)) |}]
             /\ found_pages (self (visit_link V w cur st link))
                = found_pages (self st)
         | (false, _) => self (visit_link V w cur st link) = self st
         end)
  /\ (forall k u,
        u ∈ appended (trace (iterations V w k max_pages (start c))) ->
        Str.endswith ".pdf" (Str.lower u) = false)
  /\ (forall html ct soup link m,
        visited_urls c = ∅ -> found_pdfs c = [] ->
        get_page_content w (base_url c) = (Some html, Some ct) ->
        html <> "" -> Str.contains "pdf" (Str.lower ct) = false ->
        safe_parse_html w html = Some soup ->
        extract_links w html (base_url c) = [link] ->
        is_valid_url w c link = true -> skip_url V link = false ->
        link <> base_url c ->
        Str.endswith ".pdf" (Str.lower link) = true ->
        check_pdf V w link = (true, m) ->
        0 < max_pages ->
        exists c' evs r,
          crawl_site V w max_pages c = Some (c', evs)
          /\ found_pdfs c' = [r]
          /\ URL r = link /\ Type_ r = "PDF" /\ Parent_Page r = base_url c
          /\ Address_Found r = m
          /\ crawled evs = [base_url c]
          /\ pdf_checked evs = [link]
          /\ appended evs = []).
Proof.
  split; [|split].
  - intros cur st link H1 H2 H3 H4 H5.
    rewrite (visit_link_pdf V w cur st link H1 H2 H3 H4 H5).
    destruct (pdf_effect V w link "PDF document (linked)" cur st)
      as [Hq [Ht [_ Hf]]].
    auto.
  - intros k u. apply (no_pdf_queued V w max_pages k c).
  - intros. eapply root_with_pdf_link; eassumption.
Qed.

Lemma linked_documents_are_leaves_witness :
  exists c' evs r,
    crawl_site Baseline.variant
      (Demo.web (Demo.site_with_pdf Demo.filed_pdf "835 E. 14th St."))
      10 Demo.crawler = Some (c', evs)
    /\ found_pdfs c' = [r]
    /\ URL r = Demo.filed_pdf /\ Type_ r = "PDF"
    /\ Parent_Page r = Demo.root
    /\ Address_Found r = Some "835 E. 14th St."
    /\ crawled evs = [Demo.root]
    /\ pdf_checked evs = [Demo.filed_pdf]
    /\ appended evs = [].
Proof.
  apply (proj2 (proj2 (linked_documents_are_leaves Baseline.variant
                  (Demo.web (Demo.site_with_pdf Demo.filed_pdf
                               "835 E. 14th St."))
                  10 Demo.crawler))
           "Documents" "text/html; charset=utf-8"
           {| get_text := "Documents"; title := Some (Some "Page") |}
           Demo.filed_pdf (Some "835 E. 14th St.")).
  - reflexivity.
  - reflexivity.
  - vm_compute. reflexivity.
  - discriminate.
  - vm_compute. reflexivity.
  - vm_compute. reflexivity.
  - vm_compute. reflexivity.
  - vm_compute. reflexivity.
  - reflexivity.
  - discriminate.
  - vm_compute. reflexivity.
  - vm_compute. reflexivity.
  - lia.
Defined.

(** In the fast file a link that is in scope and ends in .pdf is not
    fetched when the skip filter rejects it: the root links to a PDF under
    /assets/ in which the check would find the address, and the run checks
    no PDF and records nothing. *)
Lemma linked_documents_counterexample :
  exists c' evs,
    crawl_site Fast.variant
      (Demo.web (Demo.site_with_pdf Demo.asset_pdf "14735 Juniper St"))
      10 Demo.crawler = Some (c', evs)
    /\ is_valid_url
         (Demo.web (Demo.site_with_pdf Demo.asset_pdf "14735 Juniper St"))
         Demo.crawler Demo.asset_pdf = true
    /\ Str.endswith ".pdf" (Str.lower Demo.asset_pdf) = true
    /\ check_pdf Fast.variant
         (Demo.web (Demo.site_with_pdf Demo.asset_pdf "14735 Juniper St"))
         Demo.asset_pdf = (true, Some "14735 Juniper St")
    /\ evs = [Popleft Demo.root; Crawling Demo.root; Get Demo.root; Sleep 200]
    /\ pdf_checked evs = []
    /\ found_pdfs c' = []
    /\ found_pages c' = [].
Proof.
  do 2 eexists. split; [vm_compute; reflexivity|].
  repeat split; vm_compute; reflexivity.
Qed.

(** ** Order, scope and budget of a run *)

Lemma popped_snoc tr e :
  popped (tr ++ [e])
  = popped tr ++ match e with Popleft u => [u] | _ => [] end.
Proof. unfold popped. rewrite omap_app. now destruct e. Qed.

Lemma fifo_quiet c0 e st :
  (forall u, e <> Append u) -> (forall u, e <> Crawling u) ->
  (forall u, e <> Popleft u) ->
  fifo_inv c0 st -> fifo_inv c0 (emit e st).
Proof.
  intros Ha Hc Hp [H1 H2]. unfold fifo_inv. simpl.
  rewrite appended_snoc, popped_snoc, crawled_snoc.
  destruct e; rewrite ?app_nil_r; auto.
  - now destruct (Hp url).
  - now destruct (Hc url).
  - now destruct (Ha url).
Qed.

Lemma fifo_iterations V w max_pages k c :
  fifo_inv c (iterations V w k max_pages (start c)).
Proof.
  apply iterations_preserved.
  - intros. now apply fifo_quiet.
  - intros. now apply fifo_quiet.
  - intros. now apply fifo_quiet.
  - intros url ct m t n pp st _ H. exact H.
  - intros link st _ _ _ _ _ [H1 H2]. unfold fifo_inv. simpl.
    rewrite appended_snoc, popped_snoc, crawled_snoc, !app_nil_r.
    split; [|exact H2].
    now rewrite app_assoc, <- H1.
  - intros st [H1 H2]. unfold next_url, fifo_inv.
    destruct (url_queue st) as [|u rest] eqn:Q;
      [simpl; rewrite Q; auto|].
    case_bool_decide; simpl;
      rewrite ?appended_snoc, ?popped_snoc, ?crawled_snoc, ?app_nil_r;
      simpl; rewrite ?appended_snoc, ?popped_snoc, ?crawled_snoc, ?app_nil_r.
    + split.
      * rewrite H1, <- app_assoc. reflexivity.
      * intros v Hv. apply elem_of_app. left. auto.
    + split.
      * rewrite H1, <- app_assoc. reflexivity.
      * intros v Hv. apply elem_of_app in Hv as [Hv|Hv].
        -- apply elem_of_app. left. auto.
        -- apply elem_of_app. right. exact Hv.
  - split; simpl; [reflexivity|]. intros u Hu. now apply elem_of_nil in Hu.
Qed.

Lemma is_valid_url_domain w c c' url :
  domain c' = domain c -> is_valid_url w c' url = is_valid_url w c url.
Proof. intros H. unfold is_valid_url. now rewrite H. Qed.

Lemma scope_iterations V w max_pages k c :
  scope_inv V w c (iterations V w k max_pages (start c)).
Proof.
  apply iterations_preserved.
  - intros u st [H1 H2]. split; simpl; auto.
    now rewrite appended_snoc, app_nil_r.
  - intros u st [H1 H2]. split; simpl; auto.
    now rewrite appended_snoc, app_nil_r.
  - intros d st [H1 H2]. split; simpl; auto.
    now rewrite appended_snoc, app_nil_r.
  - intros url ct m t n pp st _ [H1 H2]. now split.
  - intros link st Hv Hs _ _ _ [H1 H2]. split; simpl; auto.
    intros u Hu. rewrite appended_snoc in Hu.
    apply elem_of_app in Hu as [Hu|Hu]; auto.
    apply list_elem_of_singleton in Hu as ->.
    now rewrite <- (is_valid_url_domain w c (self st)).
  - intros st [H1 H2]. unfold next_url.
    destruct (url_queue st) as [|u rest]; [now split|].
    case_bool_decide; simpl.
    + split; simpl; auto. now rewrite appended_snoc, app_nil_r.
    + split; simpl.
      * now destruct (_ =? _)%nat.
      * now rewrite !appended_snoc, !app_nil_r.
  - split; simpl; [reflexivity|]. intros u Hu. now apply elem_of_nil in Hu.
Qed.

Lemma count_iterations V w max_pages k c :
  count_inv c (iterations V w k max_pages (start c)).
Proof.
  apply iterations_preserved.
  - intros u st [H1 H2]. split; simpl; auto.
    now rewrite crawled_snoc, app_nil_r.
  - intros u st [H1 H2]. split; simpl; auto.
    now rewrite crawled_snoc, app_nil_r.
  - intros d st [H1 H2]. split; simpl; auto.
    now rewrite crawled_snoc, app_nil_r.
  - intros url ct m t n pp st _ [H1 H2]. now split.
  - intros link st _ _ _ _ _ [H1 H2]. split; simpl; auto.
    now rewrite crawled_snoc, app_nil_r.
  - intros st [H1 H2]. unfold next_url.
    destruct (url_queue st) as [|u rest]; [now split|].
    case_bool_decide as Hu; simpl.
    + split; simpl; auto. now rewrite crawled_snoc, app_nil_r.
    + split; simpl.
      * assert (E : forall c', visited_urls
                  (if (S (pages_crawled st) mod 50 =? 0)%nat
                   then save_progress w (S (pages_crawled st)) u c' else c')
                  = visited_urls c')
          by (intros c'; now destruct (_ =? _)%nat).
        rewrite E. simpl. rewrite size_union by set_solver.
        rewrite size_singleton. lia.
      * rewrite !crawled_snoc, app_nil_r, length_app. simpl. lia.
  - split; simpl; lia.
Qed.

(** An iteration takes at most one URL up. *)
Lemma iteration_pages V w st :
  pages_crawled (iteration V w st) <= S (pages_crawled st).
Proof.
  unfold iteration, next_url. destruct (url_queue st) as [|u rest]; [lia|].
  case_bool_decide; simpl; [lia|]. rewrite process_pages. simpl. lia.
Qed.

Lemma budget_iterations V w max_pages k :
  forall st,
    pages_crawled st <= max_pages ->
    pages_crawled (iterations V w k max_pages st) <= max_pages.
Proof.
  induction k as [|k IH]; intros st H; simpl; auto.
  destruct (loop_condition max_pages st) eqn:E; auto.
  apply IH. unfold loop_condition in E.
  destruct (url_queue st); [discriminate|]. apply Nat.ltb_lt in E.
  pose proof (iteration_pages V w st). lia.
Qed.

(** An iteration takes one URL from the queue. *)
Lemma iteration_popped V w st :
  length (popped (trace (iteration V w st)))
  <= S (length (popped (trace st))).
Proof.
  unfold iteration.
  assert (Hn : length (popped (trace (fst (next_url w st))))
               <= S (length (popped (trace st)))).
  { unfold next_url. destruct (url_queue st) as [|u rest]; [simpl; lia|].
    case_bool_decide; simpl; rewrite !popped_snoc, ?app_nil_r, ?length_app;
      simpl; lia. }
  destruct (next_url w st) as [st' [u|]]; simpl in *; auto.
  enough (popped (trace (process V w u st')) = popped (trace st')) as ->
    by exact Hn.
  apply (process_preserved V w
           (fun s => popped (trace s) = popped (trace st'))); auto;
    intros; simpl; rewrite popped_snoc, app_nil_r; auto.
Qed.

Lemma popped_iterations V w max_pages k :
  forall st,
    length (popped (trace (iterations V w k max_pages st)))
    <= k + length (popped (trace st)).
Proof.
  induction k as [|k IH]; intros st; simpl; [lia|].
  destruct (loop_condition max_pages st); [|lia].
  pose proof (IH (iteration V w st)). pose proof (iteration_popped V w st).
  lia.
Qed.

Lemma findings_record w c0 url ct m t n pp c :
  ct = "PDF" \/ ct = "HTML Page" ->
  findings_inv c0 c -> findings_inv c0 (record_finding w url ct m t n pp c).
Proof.
  intros Hct [pages [pdfs [new [H1 [H2 [H3 [H4 [H5 H6]]]]]]]].
  set (r := {| URL := url; Type_ := ct; Title := t; Address_Found := m;
               Notes := n; Parent_Page := pp;
               Timestamp := datetime_now w (clock c) |}).
  assert (Ho : output_file (files (record_finding w url ct m t n pp c))
               = Some (default "" (output_file (files c0))
                       +:+ rows_text (map writerow (new ++ [r])))).
  { rewrite record_finding_output, H3. cbn [from_option id].
    now rewrite map_app, rows_text_app, app_assoc_s. }
  destruct Hct as [-> | ->].
  - exists pages, (pdfs ++ [r]), (new ++ [r]).
    split; [exact H1|]. split; [simpl; now rewrite H2, app_assoc|].
    split; [exact Ho|]. split; [|split; auto].
    + now rewrite H4, app_assoc.
    + apply Forall_app. split; auto.
  - exists (pages ++ [r]), pdfs, (new ++ [r]).
    split; [simpl; now rewrite H1, app_assoc|]. split; [exact H2|].
    split; [exact Ho|]. split; [|split; auto].
    + rewrite H4, <- !app_assoc.
      apply Permutation_app_head. simpl. symmetry.
      apply Permutation_cons_append.
    + apply Forall_app. split; auto.
Qed.

Lemma findings_iterations V w max_pages k c rows0 :
  output_file (files c) = Some rows0 ->
  findings_inv c (self (iterations V w k max_pages (start c))).
Proof.
  intros Hc.
  apply (iterations_preserved V w (fun st => findings_inv c (self st)));
    auto.
  - intros. now apply findings_record.
  - intros st H. unfold next_url.
    destruct (url_queue st) as [|u rest]; [auto|].
    case_bool_decide; simpl; [auto|].
    destruct (_ =? _)%nat; auto.
  - exists [], [], []. simpl. rewrite Hc, !app_nil_r.
    cbn [from_option id]. change (rows_text []) with "".
    rewrite app_empty_r. repeat split; auto.
Qed.

Lemma crawl_site_state V w max_pages c c' evs :
  crawl_site V w max_pages c = Some (c', evs) ->
  exists st,
    st = iterations V w (S max_pages) max_pages (start c)
    /\ loop_condition max_pages st = false
    /\ c' = save_progress w (pages_crawled st) "COMPLETED" (self st)
    /\ evs = trace st.
Proof.
  unfold crawl_site.
  destruct (crawl_loop V w (S max_pages) max_pages (start c)) as [st|] eqn:E;
    [|discriminate].
  apply crawl_loop_iterations in E as [E1 E2]. intros [= <- <-].
  exists st. auto.
Qed.

(** ** The findings file over runs *)

(** A run of [main] that is not interrupted writes after the text of the
    findings file, or after the header that its constructor wrote, the
    records of its findings. *)
Lemma main_findings V w fs :
  exists r,
    main V w fs None = Some r
    /\ match crawler r with
       | Some c =>
           exists new,
             output_file (files c)
             = Some (default (csv_row fieldnames) (output_file fs)
                     +:+ rows_text (map writerow new))
             /\ new ≡ₚ found_pages c ++ found_pdfs c
       | None => SLUSDCrawler w "https://www.slusd.us" fs = Raised
       end.
Proof.
  unfold main.
  destruct (SLUSDCrawler w "https://www.slusd.us" fs) as [|c0] eqn:Ec.
  { eexists. split; [reflexivity|]. reflexivity. }
  destruct (constructor_output _ _ _ _ Ec) as [Ho [Hp Hd]].
  destruct (crawl_site_returns V w (main_max_pages V) c0) as [c' [evs Hrun]].
  rewrite Hrun. cbn [mbind option_bind].
  eexists. split; [reflexivity|]. cbn [crawler].
  apply crawl_site_state in Hrun as [st [Est [_ [-> ->]]]].
  destruct (findings_iterations V w (main_max_pages V)
              (S (main_max_pages V)) c0 _ Ho)
    as [pages [pdfs [new [H1 [H2 [H3 [H4 _]]]]]]].
  rewrite <- Est in H1, H2, H3. rewrite Hp in H1. rewrite Hd in H2.
  rewrite Ho in H3. cbn [from_option id] in H3.
  exists new. cbn [save_progress files output_file found_pages found_pdfs].
  split; [exact H3|]. now rewrite H1, H2.
Qed.

(** C8, as the code has it.  The constructor initialises the findings
    file: when there is none it writes the header row, and nothing else;
    when there is one it leaves the file as it is, with or without a header
    in it.  [record_finding] hands its record to [append_to_csv], which
    writes the record at the end of the file, after whatever text is there.
    A run of [main] that is not interrupted ends, and the findings file
    then holds what it held before (the header, when there was no file)
    followed by one record for each finding of the run.  However often the
    crawler is run, whatever the web, the variant and the interrupts, the
    runs end; a findings file that exists keeps its text and gains records
    of findings only; when it held complete rows, it holds these rows and
    the new ones, has as many header rows as before and does not get
    shorter; when there was no file, the file that the runs leave begins
    with the one header row. *)
Theorem idempotent_store_initialization
    (fs : Files) (result : Result)
    (runs : list (Variant * Web * option nat)) :
  (forall w base c,
      SLUSDCrawler w base fs = Returned c ->
      files c = init_csv_file fs
      /\ progress_file (files c) = progress_file fs
      /\ match output_file fs with
         | None => output_file (files c) = Some (csv_row fieldnames)
         | Some text => output_file (files c) = Some text
         end)
  /\ csv_row fieldnames
     = "URL,Type,Title,Address Found,Notes,Parent Page,Timestamp"
       +:+ lineterminator
  /\ output_file (append_to_csv result fs)
     = Some (default "" (output_file fs) +:+ csv_row (writerow result))
  /\ (forall w url ct m t n pp c,
        files (record_finding w url ct m t n pp c)
        = append_to_csv
            {| URL := url; Type_ := ct; Title := t; Address_Found := m;
               Notes := n; Parent_Page := pp;
               Timestamp := datetime_now w (clock c) |} (files c))
  /\ (forall V w,
        exists r,
          main V w fs None = Some r
          /\ match crawler r with
             | Some c =>
                 exists new,
                   output_file (files c)
                   = Some (default (csv_row fieldnames) (output_file fs)
                           +:+ rows_text (map writerow new))
                   /\ new ≡ₚ found_pages c ++ found_pdfs c
             | None => SLUSDCrawler w "https://www.slusd.us" fs = Raised
             end)
  /\ exists fs',
       rerun runs fs = Some fs'
       /\ (forall text,
             output_file fs = Some text ->
             exists new,
               output_file fs' = Some (text +:+ rows_text new)
               /\ Forall finding_row new
               /\ forall rows,
                    text = rows_text rows ->
                    output_file fs' = Some (rows_text (rows ++ new))
                    /\ header_rows (rows ++ new) = header_rows rows
                    /\ length rows <= length (rows ++ new))
       /\ (output_file fs = None ->
           output_file fs' = None
           \/ exists new,
                output_file fs' = Some (rows_text (fieldnames :: new))
                /\ Forall finding_row new
                /\ header_rows (fieldnames :: new) = 1).
Proof.
  split; [|split; [|split; [|split; [|split]]]].
  - intros w base c Hc. unfold SLUSDCrawler in Hc.
    destruct (urlparse_netloc w base); [discriminate|].
    injection Hc as <-. cbn [files]. split; [reflexivity|].
    unfold init_csv_file.
    destruct (output_file fs) as [text|] eqn:E; cbn [progress_file output_file];
      auto.
  - reflexivity.
  - reflexivity.
  - reflexivity.
  - intros V w. apply main_findings.
  - destruct (rerun_returns runs fs) as [fs' Hrun]. exists fs'.
    split; [exact Hrun|]. split.
    + intros text Hfs.
      destruct (rerun_appends runs fs fs' text Hfs Hrun) as [new [H1 H2]].
      exists new. split; [exact H1|]. split; [exact H2|].
      intros rows ->. split; [now rewrite rows_text_app|].
      split; [now apply header_rows_app|]. rewrite length_app. lia.
    + intros Hfs.
      destruct (rerun_creates runs fs fs' Hfs Hrun) as [H|[new [H1 H2]]];
        [now left|].
      right. exists new. split; [exact H1|]. split; [exact H2|].
      change (fieldnames :: new) with ([fieldnames] ++ new).
      now rewrite header_rows_app.
Qed.

(** With no findings file the constructor writes the header; two runs on
    the files of an earlier run keep its two rows and its one header. *)
Lemma idempotent_store_initialization_witness :
  output_file (files Demo.crawler) = Some (csv_row fieldnames)
  /\ exists fs' new,
       rerun Demo.two_runs Demo.old_files = Some fs'
       /\ output_file fs'
          = Some (rows_text ([fieldnames; writerow Demo.old_result] ++ new))
       /\ header_rows ([fieldnames; writerow Demo.old_result] ++ new) = 1.
Proof.
  split.
  - apply (proj1 (idempotent_store_initialization Demo.no_files
                    Demo.old_result [])
             (Demo.web Demo.site_with_failure) Demo.root Demo.crawler).
    reflexivity.
  - destruct (proj2 (proj2 (proj2 (proj2 (proj2
                (idempotent_store_initialization Demo.old_files
                   Demo.old_result Demo.two_runs))))))
      as [fs' [Hrun [H _]]].
    destruct (H _ eq_refl) as [new [_ [_ Hrows]]].
    destruct (Hrows [fieldnames; writerow Demo.old_result] eq_refl)
      as [H1 [H2 _]].
    exists fs', new. split; [exact Hrun|]. split; [exact H1|].
    rewrite H2. reflexivity.
Defined.

(** A findings file whose last row does not end with a line break: the
    run records a finding, and its record is no new row of the file; it
    goes on the last row, which has thirteen cells after the run. *)
Lemma idempotent_store_counterexample :
  exists r c,
    main Baseline.variant (Demo.web Demo.site_with_failure) Demo.cut_files
         None = Some r
    /\ crawler r = Some c
    /\ found_pages c = [Demo.b_result] /\ found_pdfs c = []
    /\ output_file (files c)
       = Some (default "" (output_file Demo.cut_files)
               +:+ csv_row (writerow Demo.b_result))
    /\ output_file (files c)
       = Some (rows_text
                 [ fieldnames;
                   take 6 (writerow Demo.old_result)
                   ++ [Timestamp Demo.old_result +:+ URL Demo.b_result]
                   ++ drop 1 (writerow Demo.b_result) ])
    /\ output_file (files c)
       <> Some (rows_text [ fieldnames; writerow Demo.old_result;
                            writerow Demo.b_result ]).
Proof.
  do 2 eexists. split; [vm_compute; reflexivity|].
  split; [reflexivity|].
  split; [vm_compute; reflexivity|]. split; [reflexivity|].
  split; [vm_compute; reflexivity|]. split; [vm_compute; reflexivity|].
  intros H. vm_compute in H. discriminate H.
Qed.

(** The first run adds a finding; the second, interrupted before it
    fetches that page, adds none; neither adds a header. *)
Example two_runs_rows :
  rerun Demo.two_runs Demo.old_files
  = Some {| output_file :=
              Some (rows_text [ fieldnames; writerow Demo.old_result;
                                writerow Demo.b_result ]);
            progress_file :=
              Some (progress_text
                      {| Pages_crawled := 3; Current_URL := "COMPLETED";
                         Found_pages := 1; Found_PDFs := 0;
                         Last_update := "2025-01-01 00:00:00" |}) |}.
Proof. vm_compute. reflexivity. Qed.

(** X1. Breadth-first order.  A run of [crawl_site] ends, and the URLs it
    takes from the queue are, in order, the first of the URLs that were put
    into it: the root, then the links in the order in which they were
    appended.  After any number of iterations the URLs still in the queue
    are the rest of that sequence. *)
Theorem breadth_first_order (V : Variant) (w : Web) (max_pages : nat)
    (c : Crawler) :
  (forall k,
      base_url c :: appended (trace (iterations V w k max_pages (start c)))
      = popped (trace (iterations V w k max_pages (start c)))
        ++ url_queue (iterations V w k max_pages (start c)))
  /\ exists c' evs,
       crawl_site V w max_pages c = Some (c', evs)
       /\ popped evs `prefix_of` base_url c :: appended evs
       /\ crawled evs ⊆ popped evs.
Proof.
  split.
  - intros k. apply (fifo_iterations V w max_pages k c).
  - destruct (crawl_site_returns V w max_pages c) as [c' [evs Hrun]].
    exists c', evs. split; [exact Hrun|].
    apply crawl_site_state in Hrun as [st [-> [_ [_ ->]]]].
    destruct (fifo_iterations V w max_pages (S max_pages) c) as [H1 H2].
    split; [|exact H2]. eexists. exact H1.
Qed.

(** X2. Scope of a run.  Every URL that a run takes up for processing is
    the root, or a link that is in scope, passes the skip filter and does
    not end in .pdf. *)
Theorem crawl_stays_in_scope (V : Variant) (w : Web) (max_pages : nat)
    (c : Crawler) :
  exists c' evs,
    crawl_site V w max_pages c = Some (c', evs)
    /\ forall u, u ∈ crawled evs ->
         u = base_url c
         \/ (is_valid_url w c u = true /\ skip_url V u = false
             /\ Str.endswith ".pdf" (Str.lower u) = false).
Proof.
  destruct (crawl_site_returns V w max_pages c) as [c' [evs Hrun]].
  exists c', evs. split; [exact Hrun|].
  apply crawl_site_state in Hrun as [st [-> [_ [_ ->]]]].
  intros u Hu.
  destruct (fifo_iterations V w max_pages (S max_pages) c) as [H1 H2].
  destruct (scope_iterations V w max_pages (S max_pages) c) as [_ H3].
  destruct (no_pdf_queued V w max_pages (S max_pages) c) as [H4 _].
  apply H2 in Hu.
  assert (Hin : u ∈ base_url c
                    :: appended (trace (iterations V w (S max_pages)
                                          max_pages (start c))))
    by (rewrite H1; apply elem_of_app; now left).
  apply elem_of_cons in Hin as [->|Hin]; [now left|].
  right. destruct (H3 u Hin). auto.
Qed.

Lemma fetched_snoc tr e :
  fetched (tr ++ [e])
  = fetched tr ++ match e with Get u => [u] | _ => [] end.
Proof. unfold fetched. rewrite omap_app. now destruct e. Qed.

(** What [process] adds to the trace begins with the fetch of the URL, and
    holds no other fetch. *)
Lemma process_fetched V w u st :
  fetched (trace (process V w u st)) = fetched (trace st) ++ [u]
  /\ crawled (trace (process V w u st)) = crawled (trace st).
Proof.
  set (P := fun s : Loop =>
              fetched (trace s) = fetched (trace st) ++ [u]
              /\ crawled (trace s) = crawled (trace st)).
  assert (H0 : P (emit (Get u) st)).
  { split; simpl; [now rewrite fetched_snoc|].
    now rewrite crawled_snoc, app_nil_r. }
  assert (Hq : forall e s, (forall v, e <> Get v) ->
                           (forall v, e <> Crawling v) -> P s -> P (emit e s)).
  { intros e s Hg Hc [H1 H2]. split; simpl.
    - rewrite fetched_snoc. destruct e; rewrite ?app_nil_r; auto.
      now destruct (Hg url).
    - rewrite crawled_snoc. destruct e; rewrite ?app_nil_r; auto.
      now destruct (Hc url). }
  assert (Hr : forall url ct m t n pp s,
             ct = "PDF" \/ ct = "HTML Page" ->
             P s -> P (on_self (record_finding w url ct m t n pp) s))
    by (intros; assumption).
  assert (Hp : forall url notes parent s, P s -> P (pdf V w url notes parent s))
    by (intros; apply pdf_preserved; auto; intros; now apply Hq).
  change (P (process V w u st)). unfold process.
  fold (emit (Get u) st).
  destruct (get_page_content w u) as [[[|a html]|] ct]; try exact H0.
  match goal with |- context [if ?b then _ else _] => destruct b end;
    [now apply Hp|].
  destruct (safe_parse_html w (String a html)) as [soup|]; [|exact H0].
  apply Hq; [discriminate | discriminate |].
  apply (links_preserved V w P).
  - intros; now apply Hq.
  - exact Hr.
  - intros link s _ _ _ _ _ [H1 H2]. split; simpl.
    + now rewrite fetched_snoc, app_nil_r.
    + now rewrite crawled_snoc, app_nil_r.
  - destruct (check_text V (get_text soup)) as [[] m]; [|exact H0].
    apply Hr; auto.
Qed.

Lemma fetched_iterations V w max_pages k :
  forall st,
    fetched (trace st) = crawled (trace st) ->
    fetched (trace (iterations V w k max_pages st))
    = crawled (trace (iterations V w k max_pages st)).
Proof.
  induction k as [|k IH]; intros st H; simpl; auto.
  destruct (loop_condition max_pages st); auto.
  apply IH. unfold iteration, next_url.
  destruct (url_queue st) as [|u rest]; auto.
  case_bool_decide; simpl.
  - now rewrite fetched_snoc, crawled_snoc, !app_nil_r.
  - destruct (process_fetched V w u
                {| self := if (S (pages_crawled st) mod 50 =? 0)%nat
                           then save_progress w (S (pages_crawled st)) u
                                  (add_visited u (self st))
                           else add_visited u (self st);
                   url_queue := rest;
                   pages_crawled := S (pages_crawled st);
                   trace := (trace st ++ [Popleft u]) ++ [Crawling u] |})
      as [H1 H2].
    rewrite H1, H2. simpl.
    rewrite !fetched_snoc, !crawled_snoc, !app_nil_r. now rewrite H.
Qed.

(** X3. Page budget.  A run ends after at most [max_pages + 1] iterations
    of its loop, takes up at most [max_pages] URLs, fetches as pages
    exactly the URLs it takes up, once each and in that order, and adds
    as many URLs to the visited set as it takes up. *)
Theorem page_budget (V : Variant) (w : Web) (max_pages : nat) (c : Crawler) :
  exists c' evs,
    crawl_site V w max_pages c = Some (c', evs)
    /\ length (popped evs) <= S max_pages
    /\ length (crawled evs) <= max_pages
    /\ fetched evs = crawled evs
    /\ size (visited_urls c') = size (visited_urls c) + length (crawled evs).
Proof.
  destruct (crawl_site_returns V w max_pages c) as [c' [evs Hrun]].
  exists c', evs. split; [exact Hrun|].
  apply crawl_site_state in Hrun as [st [Est [_ [-> ->]]]].
  destruct (count_iterations V w max_pages (S max_pages) c) as [H1 H2].
  pose proof (popped_iterations V w max_pages (S max_pages) (start c)) as H3.
  pose proof (budget_iterations V w max_pages (S max_pages) (start c)) as H4.
  change (length (popped (trace (start c)))) with 0 in H3.
  rewrite <- Est in H1, H2, H3, H4.
  repeat split.
  - lia.
  - rewrite <- H2. apply H4. simpl. lia.
  - rewrite Est. now apply fetched_iterations.
  - change (visited_urls (save_progress w (pages_crawled st) "COMPLETED"
                            (self st)))
      with (visited_urls (self st)).
    rewrite H1, H2. reflexivity.
Qed.

(** X4. The final checkpoint.  The checkpoint that a completed run leaves
    agrees with the crawler: the progress file holds the five lines of a
    checkpoint whose current URL is COMPLETED, whose counts of findings are
    the lengths of the two lists of findings, and whose count of pages is
    the number of URLs the run added to the visited set. *)
Theorem final_checkpoint_agrees (V : Variant) (w : Web) (max_pages : nat)
    (c : Crawler) :
  exists c' evs p,
    crawl_site V w max_pages c = Some (c', evs)
    /\ progress_file (files c') = Some (progress_text p)
    /\ Current_URL p = "COMPLETED"
    /\ Found_pages p = length (found_pages c')
    /\ Found_PDFs p = length (found_pdfs c')
    /\ size (visited_urls c') = size (visited_urls c) + Pages_crawled p.
Proof.
  destruct (crawl_site_returns V w max_pages c) as [c' [evs Hrun]].
  exists c', evs.
  apply crawl_site_state in Hrun as Hst.
  destruct Hst as [st [Est [_ [-> ->]]]].
  destruct (count_iterations V w max_pages (S max_pages) c) as [H1 H2].
  rewrite <- Est in H1.
  eexists. split; [exact Hrun|]. split; [reflexivity|].
  repeat split. exact H1.
Qed.

(** X5. Findings in memory and on file.  On a crawler whose findings file
    exists, a run keeps the text of the file and writes after it one record
    for each finding it adds to its two lists, and nothing else; the list
    of pages gains results of type HTML Page only and the list of PDFs
    results of type PDF only.  When the file held complete records before,
    it holds those and the new ones after. *)
Theorem findings_on_file (V : Variant) (w : Web) (max_pages : nat)
    (c : Crawler) (text0 : string) :
  output_file (files c) = Some text0 ->
  exists c' evs pages pdfs new,
    crawl_site V w max_pages c = Some (c', evs)
    /\ found_pages c' = found_pages c ++ pages
    /\ found_pdfs c' = found_pdfs c ++ pdfs
    /\ output_file (files c') = Some (text0 +:+ rows_text (map writerow new))
    /\ new ≡ₚ pages ++ pdfs
    /\ Forall (fun r => Type_ r = "HTML Page") pages
    /\ Forall (fun r => Type_ r = "PDF") pdfs
    /\ (forall rows,
          text0 = rows_text rows ->
          output_file (files c')
          = Some (rows_text (rows ++ map writerow new))).
Proof.
  intros Hc.
  destruct (crawl_site_returns V w max_pages c) as [c' [evs Hrun]].
  apply crawl_site_state in Hrun as Hst.
  destruct Hst as [st [Est [_ [-> ->]]]].
  destruct (findings_iterations V w max_pages (S max_pages) c text0 Hc)
    as [pages [pdfs [new [H1 [H2 [H3 [H4 [H5 H6]]]]]]]].
  rewrite <- Est in H1, H2, H3.
  do 2 eexists. exists pages, pdfs, new. split; [exact Hrun|].
  rewrite Hc in H3. cbn [from_option id] in H3.
  repeat split; try assumption.
  intros rows ->. rewrite rows_text_app. exact H3.
Qed.

Lemma findings_on_file_witness :
  output_file (files Demo.crawler) = Some (csv_row fieldnames)
  /\ exists c' evs r,
       crawl_site Baseline.variant
         (Demo.web (Demo.site_with_pdf Demo.filed_pdf "835 E. 14th St."))
         10 Demo.crawler = Some (c', evs)
       /\ found_pages c' = [] /\ found_pdfs c' = [r]
       /\ URL r = Demo.filed_pdf
       /\ output_file (files c')
          = Some (rows_text [fieldnames; writerow r]).
Proof.
  split; [reflexivity|].
  destruct (findings_on_file Baseline.variant
              (Demo.web (Demo.site_with_pdf Demo.filed_pdf "835 E. 14th St."))
              10 Demo.crawler (csv_row fieldnames) eq_refl)
    as [c' [evs [pages [pdfs [new [H [H1 [H2 [H3 [H4 _]]]]]]]]]].
  assert (E : exists r, found_pages c' = [] /\ found_pdfs c' = [r]
                        /\ URL r = Demo.filed_pdf).
  { vm_compute in H. injection H as <- _. eexists. repeat split. }
  destruct E as [r [E1 [E2 E3]]].
  rewrite E1 in H1. rewrite E2 in H2. simpl in H1, H2. subst pages pdfs.
  simpl in H4. apply Permutation_singleton_r in H4 as ->.
  exists c', evs, r. repeat split; auto.
Defined.

(** ** What the matcher finds *)

Lemma search_finds r t m rest :
  In (m, rest) (matches r t) -> forall a, is_Some (search r (a +:+ t)).
Proof.
  intros H a. induction a as [|c a IH]; simpl.
  - destruct t; simpl; destruct (matches r _) as [|[m0 r0] tl] eqn:E;
      try (now destruct H); eauto.
  - destruct (matches r (String c (a +:+ t))) as [|[m0 r0] tl]; eauto.
Qed.

Lemma in_chr c x k m rest rest' :
  ci_eqb c x = true ->
  In (m, rest') (matches k rest) ->
  In (String x m, rest') (matches (Seq (Chr c) k) (String x rest)).
Proof.
  intros Hc H. simpl. rewrite Hc. simpl. rewrite app_nil_r.
  apply in_map_iff. exists (m, rest'). auto.
Qed.

Lemma in_star_zero step n s : In (EmptyString, s) (star step n s).
Proof. destruct n; simpl; [now left|]. apply in_app_iff. right. now left. Qed.

(** [\s*] may take one white space. *)
Lemma in_spaces_one x k m rest rest' :
  Str.is_space x = true ->
  In (m, rest') (matches k rest) ->
  In (String x m, rest') (matches (Seq (Star Space) k) (String x rest)).
Proof.
  intros Hx H. cbn [matches String.length star one]. rewrite Hx.
  cbn [flat_map map app]. rewrite app_nil_r.
  apply in_flat_map. exists (String x EmptyString, rest). split.
  - apply in_app_iff. left.
    apply in_map_iff. exists (EmptyString, rest). split; [reflexivity|].
    apply in_star_zero.
  - apply in_map_iff. exists (m, rest'). auto.
Qed.

(** [r?] may take nothing. *)
Lemma in_opt_skip r k m s rest' :
  In (m, rest') (matches k s) ->
  In (m, rest') (matches (Seq (Opt r) k) s).
Proof.
  intros H. cbn [matches]. apply in_flat_map. exists (EmptyString, s). split.
  - apply in_app_iff. right. now left.
  - apply in_map_iff. exists (m, rest'). auto.
Qed.

(** [c?] may take the character. *)
Lemma in_opt_take c x k m rest rest' :
  ci_eqb c x = true ->
  In (m, rest') (matches k rest) ->
  In (String x m, rest') (matches (Seq (Opt (Chr c)) k) (String x rest)).
Proof.
  intros Hc H. cbn [matches one]. rewrite Hc.
  apply in_flat_map. exists (String x EmptyString, rest). split.
  - now left.
  - apply in_map_iff. exists (m, rest'). auto.
Qed.

(** A word is read by its pattern in any case of letters. *)
Lemma in_lit s :
  forall s' k m rest rest',
    Str.lower s' = Str.lower s ->
    In (m, rest') (matches k rest) ->
    In (s' +:+ m, rest') (matches (lit s k) (s' +:+ rest)).
Proof.
  induction s as [|c s IH]; intros [|x s'] k m rest rest' Hl H;
    simpl in Hl; try discriminate; [exact H|].
  injection Hl as Hc Hl. cbn [lit].
  apply (in_chr c x (lit s k) (s' +:+ m) (s' +:+ rest) rest').
  - unfold ci_eqb. rewrite Hc. apply Ascii.eqb_refl.
  - now apply IH.
Qed.

(** ** should_skip_url *)

Lemma lower_char_idem c : Str.lower_char (Str.lower_char c) = Str.lower_char c.
Proof. destruct c as [[] [] [] [] [] [] [] []]; vm_compute; reflexivity. Qed.

Lemma lower_idem s : Str.lower (Str.lower s) = Str.lower s.
Proof.
  induction s as [|c s IH]; simpl; [reflexivity|].
  now rewrite lower_char_idem, IH.
Qed.

(** Each fragment and each extension is one of the compiled skip
    patterns. *)
Lemma skip_patterns_compiled :
  forallb (fun f => bool_decide (lit f Eps ∈ Fast.compiled_skip_patterns))
          skip_fragments = true
  /\ forallb (fun e => bool_decide
                         (lit e (Seq Eol Eps) ∈ Fast.compiled_skip_patterns))
             skip_extensions = true
  /\ length Fast.compiled_skip_patterns
     = length skip_fragments + length skip_extensions.
Proof. vm_compute. auto. Qed.

Lemma should_skip_url_found p url :
  p ∈ Fast.compiled_skip_patterns -> is_Some (search p url) ->
  Fast.should_skip_url Fast.compiled_skip_patterns url = true.
Proof.
  intros Hp Hs. unfold Fast.should_skip_url. apply existsb_exists.
  exists p. split; [now apply list_elem_of_In|]. now apply bool_decide_eq_true_2.
Qed.

(** X6. The skip filter.  The fast file skips every URL that holds one of
    the fragments /css/, /js/, /images/, /img/, /assets/, /feeds/, /rss/,
    /sitemap, #, javascript:, mailto:, tel:, ftp: anywhere, and every URL
    that ends in one of the extensions .css, .js, .png, .jpg, .jpeg, .gif,
    .ico, .woff, .woff2, .ttf, .eot, .svg, .webp, .xml, .json, in any case
    of letters. *)
Theorem skip_filter_covers (a s b : string) :
  (Str.lower s ∈ skip_fragments ->
   Fast.should_skip_url Fast.compiled_skip_patterns (a +:+ s +:+ b) = true)
  /\ (Str.lower s ∈ skip_extensions ->
      Fast.should_skip_url Fast.compiled_skip_patterns (a +:+ s) = true).
Proof.
  destruct skip_patterns_compiled as [Hf [He _]].
  rewrite forallb_forall in Hf, He. split; intros Hin.
  - apply list_elem_of_In in Hin. specialize (Hf _ Hin).
    apply bool_decide_eq_true in Hf.
    apply (should_skip_url_found _ _ Hf).
    apply (search_finds _ (s +:+ b) (s +:+ "") b).
    apply in_lit; [now rewrite lower_idem | now left].
  - apply list_elem_of_In in Hin. specialize (He _ Hin).
    apply bool_decide_eq_true in He.
    apply (should_skip_url_found _ _ He).
    rewrite <- (app_empty_r s) at 2.
    apply (search_finds _ (s +:+ "") (s +:+ "") "").
    apply in_lit; [now rewrite lower_idem | now left].
Qed.

Lemma skip_filter_covers_witness :
  Fast.should_skip_url Fast.compiled_skip_patterns
    ("https://www.slusd.us" +:+ "/Images/" +:+ "logo") = true
  /\ Fast.should_skip_url Fast.compiled_skip_patterns
       ("https://www.slusd.us/site" +:+ ".CSS") = true.
Proof.
  split.
  - apply (proj1 (skip_filter_covers "https://www.slusd.us" "/Images/"
                    "logo")).
    apply (bool_decide_unpack _). vm_compute. exact I.
  - apply (proj2 (skip_filter_covers "https://www.slusd.us/site" ".CSS" "")).
    apply (bool_decide_unpack _). vm_compute. exact I.
Defined.

(** An ordinary content path is not skipped. *)
Example about_us_not_skipped :
  Fast.should_skip_url Fast.compiled_skip_patterns
    "https://www.slusd.us/about-us" = false.
Proof. vm_compute. reflexivity. Qed.

(** ** Addresses that are found *)

Lemma length_app_s (a b : string) :
  String.length (a +:+ b) = String.length a + String.length b.
Proof. induction a as [|c a IH]; simpl; [reflexivity | now rewrite IH]. Qed.

Lemma in_star_spaces ws :
  forall n rest,
    all_space ws = true -> String.length ws <= n ->
    In (ws, rest) (star (matches Space) n (ws +:+ rest)).
Proof.
  induction ws as [|x ws IH]; intros n rest Hs Hn.
  - apply in_star_zero.
  - simpl in Hs. apply andb_true_iff in Hs as [Hx Hs].
    destruct n as [|n]; [simpl in Hn; lia|].
    cbn [star String.append matches one]. rewrite Hx.
    cbn [flat_map]. rewrite app_nil_r. apply in_app_iff. left.
    apply in_map_iff. exists (ws, rest). split; [reflexivity|].
    apply IH; [exact Hs | simpl in Hn; lia].
Qed.

(** [\s*] may take a run of white space. *)
Lemma in_spaces ws k m rest rest' :
  all_space ws = true ->
  In (m, rest') (matches k rest) ->
  In (ws +:+ m, rest') (matches (Seq (Star Space) k) (ws +:+ rest)).
Proof.
  intros Hs H. cbn [matches]. apply in_flat_map. exists (ws, rest). split.
  - apply in_star_spaces; [exact Hs|]. rewrite length_app_s. lia.
  - apply in_map_iff. exists (m, rest'). auto.
Qed.

(** [\.?] takes a period or nothing. *)
Lemma in_opt_dot dot k m rest rest' :
  dot = "" \/ dot = "." ->
  In (m, rest') (matches k rest) ->
  In (dot +:+ m, rest') (matches (Seq (Opt (Chr ".")) k) (dot +:+ rest)).
Proof.
  intros [-> | ->] H; simpl String.append.
  - now apply in_opt_skip.
  - now apply in_opt_take.
Qed.

Lemma check_each_pattern_some ps text p :
  p ∈ ps -> is_Some (search p text) ->
  fst (check_each_pattern ps text) = true.
Proof.
  induction ps as [|q ps IH]; intros Hin Hs.
  - now apply elem_of_nil in Hin.
  - simpl. destruct (search q text) eqn:E; [reflexivity|].
    apply elem_of_cons in Hin as [->|Hin]; [|now apply IH].
    rewrite E in Hs. now destruct Hs.
Qed.

Lemma truthy_app a c s : Str.truthy (a +:+ String c s) = true.
Proof. destruct a; reflexivity. Qed.

Lemma plain_patterns_compiled :
  baseline_plain_pattern ∈ Baseline.compiled_patterns
  /\ fast_plain_pattern ∈ Fast.compiled_patterns.
Proof. split; apply (bool_decide_unpack _); vm_compute; exact I. Qed.

(** X7. Addresses that are found.  The baseline file reports found for
    every text that holds, anywhere, the street address written as 835,
    E or E., 14th and St, with any white space or none between its parts;
    the fast file for every text that holds 14735, Juniper and St so.  The
    letters may be in any case. *)
Theorem address_is_found
    (a b e dot th j st ws1 ws2 ws3 : string) :
  (Str.lower e = "e" -> dot = "" \/ dot = "." -> Str.lower th = "th" ->
   Str.lower st = "st" ->
   all_space ws1 = true -> all_space ws2 = true -> all_space ws3 = true ->
   fst (Baseline.check_address_in_text Baseline.compiled_patterns
          (a +:+ "835" +:+ ws1 +:+ e +:+ dot +:+ ws2 +:+ "14" +:+ th
             +:+ ws3 +:+ st +:+ b)) = true)
  /\ (Str.lower j = "juniper" -> Str.lower st = "st" ->
      all_space ws1 = true -> all_space ws2 = true ->
      fst (Fast.check_address_in_text Fast.compiled_patterns Fast.quick_check
             (a +:+ "14735" +:+ ws1 +:+ j +:+ ws2 +:+ st +:+ b)) = true).
Proof.
  destruct plain_patterns_compiled as [Hb Hf]. split.
  - intros He Hdot Hth Hst H1 H2 H3.
    unfold Baseline.check_address_in_text.
    change (a +:+ "835" +:+ ws1 +:+ e +:+ dot +:+ ws2 +:+ "14" +:+ th
              +:+ ws3 +:+ st +:+ b)
      with (a +:+ String "8" ("35" +:+ ws1 +:+ e +:+ dot +:+ ws2 +:+ "14"
                                +:+ th +:+ ws3 +:+ st +:+ b)).
    rewrite truthy_app. cbn [negb].
    apply (check_each_pattern_some _ _ _ Hb).
    destruct th as [|t [|h [|]]]; try discriminate.
    injection Hth as Ht Hh.
    change (a +:+ String "8" ("35" +:+ ws1 +:+ e +:+ dot +:+ ws2 +:+ "14"
                                +:+ String t (String h "") +:+ ws3 +:+ st
                                +:+ b))
      with (a +:+ ("835" +:+ ws1 +:+ e +:+ dot +:+ ws2
                     +:+ String "1" (String "4" (String t ""))
                     +:+ String h (ws3 +:+ st +:+ b))).
    eapply search_finds. unfold baseline_plain_pattern.
    apply in_lit; [reflexivity|]. apply in_spaces; [exact H1|].
    apply in_lit; [exact He|]. apply in_opt_dot; [exact Hdot|].
    apply in_spaces; [exact H2|].
    apply in_lit; [simpl; now rewrite Ht|].
    apply in_opt_take; [unfold ci_eqb; rewrite Hh; reflexivity|].
    apply in_spaces; [exact H3|].
    apply in_lit; [exact Hst|].
    apply in_opt_skip. now left.
  - intros Hj Hst H1 H2.
    unfold Fast.check_address_in_text.
    change (a +:+ "14735" +:+ ws1 +:+ j +:+ ws2 +:+ st +:+ b)
      with (a +:+ String "1" ("4735" +:+ ws1 +:+ j +:+ ws2 +:+ st +:+ b)).
    rewrite truthy_app. cbn [negb].
    change (a +:+ String "1" ("4735" +:+ ws1 +:+ j +:+ ws2 +:+ st +:+ b))
      with (a +:+ "14735" +:+ (ws1 +:+ j +:+ ws2 +:+ st +:+ b)).
    assert (Hq : Str.contains Fast.quick_check
                   (a +:+ "14735" +:+ (ws1 +:+ j +:+ ws2 +:+ st +:+ b))
                 = true)
      by (apply contains_spec; now exists a, (ws1 +:+ j +:+ ws2 +:+ st +:+ b)).
    rewrite Hq. cbn [negb].
    apply (check_each_pattern_some _ _ _ Hf).
    eapply search_finds. unfold fast_plain_pattern.
    apply in_lit; [reflexivity|]. apply in_spaces; [exact H1|].
    apply in_lit; [exact Hj|]. apply in_spaces; [exact H2|].
    apply in_lit; [exact Hst|].
    apply in_opt_skip. now left.
Qed.

Lemma address_is_found_witness :
  fst (Baseline.check_address_in_text Baseline.compiled_patterns
         ("Mail: " +:+ "835" +:+ " " +:+ "e" +:+ "." +:+ "" +:+ "14" +:+ "TH"
            +:+ "  " +:+ "st" +:+ "reet")) = true
  /\ fst (Fast.check_address_in_text Fast.compiled_patterns Fast.quick_check
            ("Mail: " +:+ "14735" +:+ "" +:+ "JUNIPER" +:+ " " +:+ "St"
               +:+ "x")) = true.
Proof.
  split.
  - apply (proj1 (address_is_found "Mail: " "reet" "e" "." "TH" "" "st"
                    " " "" "  ")); auto.
  - apply (proj2 (address_is_found "Mail: " "x" "" "" "" "JUNIPER" "St"
                    "" " " "")); auto.
Defined.

Lemma check_each_pattern_shape ps text found matched :
  check_each_pattern ps text = (found, matched) ->
  (found = true <-> is_Some matched).
Proof.
  induction ps as [|q ps IH]; simpl.
  - intros [= <- <-]. split; [discriminate | intros [x Hx]; discriminate].
  - destruct (search q text); [|exact IH].
    intros [= <- <-]. split; eauto.
Qed.

(** X8. The shape of a check.  On the empty text both checks report not
    found.  Whatever the patterns and the text, a check reports a matched
    text exactly when it reports found. *)
Theorem check_result_shape
    (ps : list re) (q text : string) (found : bool) (matched : option string) :
  Baseline.check_address_in_text ps "" = (false, None)
  /\ Fast.check_address_in_text ps q "" = (false, None)
  /\ (Baseline.check_address_in_text ps text = (found, matched) ->
      (found = true <-> is_Some matched))
  /\ (Fast.check_address_in_text ps q text = (found, matched) ->
      (found = true <-> is_Some matched)).
Proof.
  assert (Hnone : (false, @None string) = (found, matched) ->
                  (found = true <-> is_Some matched)).
  { intros [= <- <-]. split; [discriminate | intros [x Hx]; discriminate]. }
  split; [reflexivity|]. split; [reflexivity|].
  unfold Fast.check_address_in_text, Baseline.check_address_in_text.
  split.
  - destruct (Str.truthy text); cbn [negb]; auto.
    apply check_each_pattern_shape.
  - destruct (Str.truthy text); cbn [negb]; auto.
    destruct (Str.contains q text); cbn [negb]; auto.
    apply check_each_pattern_shape.
Qed.

Lemma check_result_shape_witness :
  (true = true <-> is_Some (Some "835 E. 14th St."))
  /\ (false = true <-> is_Some (@None string)).
Proof.
  split.
  - apply (proj1 (proj2 (proj2 (check_result_shape Baseline.compiled_patterns
             Fast.quick_check "Office: 835 E. 14th St., San Leandro"
             true (Some "835 E. 14th St."))))).
    vm_compute. reflexivity.
  - apply (proj2 (proj2 (proj2 (check_result_shape Fast.compiled_patterns
             Fast.quick_check "Office: 835 E. 14th St., San Leandro"
             false None)))).
    vm_compute. reflexivity.
Defined.

(** ** safe_parse_html *)

Lemma sub_non_ascii_ascii in_run s :
  all_ascii (Str.sub_non_ascii in_run s) = true.
Proof.
  revert in_run. induction s as [|c s IH]; intros in_run; simpl; auto.
  destruct (Str.code c <? 128)%N eqn:E; simpl.
  - now rewrite E, IH.
  - destruct in_run; [apply IH|]. simpl. apply IH.
Qed.

Lemma sub_non_ascii_id in_run s :
  all_ascii s = true -> Str.sub_non_ascii in_run s = s.
Proof.
  revert in_run. induction s as [|c s IH]; intros in_run; simpl; auto.
  rewrite andb_true_iff. intros [-> Hs]. now rewrite IH.
Qed.

Lemma sub_non_ascii_length in_run s :
  String.length (Str.sub_non_ascii in_run s) <= String.length s.
Proof.
  revert in_run. induction s as [|c s IH]; intros in_run; simpl; auto.
  destruct (Str.code c <? 128)%N; simpl.
  - specialize (IH false). lia.
  - destruct in_run; simpl; specialize (IH true); lia.
Qed.

(** X9. The parser chain.  [safe_parse_html] gives the soup of the first of
    html.parser, lxml and html5lib that does not raise on the markup; when
    all three raise it gives what html.parser makes of the markup with each
    run of non-ASCII characters replaced by one space, a text that is all
    ASCII, not longer than the markup, and the markup itself when that is
    all ASCII; it gives nothing only when that last attempt raises too. *)
Theorem safe_parse_html_chain (w : Web) (html : string) :
  (forall soup, BeautifulSoup w html "html.parser" = Returned soup ->
                safe_parse_html w html = Some soup)
  /\ (forall soup, BeautifulSoup w html "html.parser" = Raised ->
                   BeautifulSoup w html "lxml" = Returned soup ->
                   safe_parse_html w html = Some soup)
  /\ (forall soup, BeautifulSoup w html "html.parser" = Raised ->
                   BeautifulSoup w html "lxml" = Raised ->
                   BeautifulSoup w html "html5lib" = Returned soup ->
                   safe_parse_html w html = Some soup)
  /\ (BeautifulSoup w html "html.parser" = Raised ->
      BeautifulSoup w html "lxml" = Raised ->
      BeautifulSoup w html "html5lib" = Raised ->
      safe_parse_html w html
      = match BeautifulSoup w (Str.sub_non_ascii false html) "html.parser"
        with
        | Returned soup => Some soup
        | Raised => None
        end)
  /\ all_ascii (Str.sub_non_ascii false html) = true
  /\ String.length (Str.sub_non_ascii false html) <= String.length html
  /\ (all_ascii html = true -> Str.sub_non_ascii false html = html)
  /\ (safe_parse_html w html = None ->
      BeautifulSoup w html "html.parser" = Raised
      /\ BeautifulSoup w html "lxml" = Raised
      /\ BeautifulSoup w html "html5lib" = Raised
      /\ BeautifulSoup w (Str.sub_non_ascii false html) "html.parser"
         = Raised).
Proof.
  unfold safe_parse_html, parsers. cbn [first_parser].
  repeat split.
  - intros soup ->. reflexivity.
  - intros soup -> ->. reflexivity.
  - intros soup -> -> ->. reflexivity.
  - intros -> -> ->. reflexivity.
  - apply sub_non_ascii_ascii.
  - apply sub_non_ascii_length.
  - apply sub_non_ascii_id.
  - destruct (BeautifulSoup w html "html.parser"); [reflexivity|discriminate].
  - destruct (BeautifulSoup w html "html.parser"); [|discriminate].
    destruct (BeautifulSoup w html "lxml"); [reflexivity|discriminate].
  - destruct (BeautifulSoup w html "html.parser"); [|discriminate].
    destruct (BeautifulSoup w html "lxml"); [|discriminate].
    destruct (BeautifulSoup w html "html5lib"); [reflexivity|discriminate].
  - destruct (BeautifulSoup w html "html.parser"); [|discriminate].
    destruct (BeautifulSoup w html "lxml"); [|discriminate].
    destruct (BeautifulSoup w html "html5lib"); [|discriminate].
    destruct (BeautifulSoup w _ "html.parser"); [reflexivity|discriminate].
Qed.

Lemma safe_parse_html_chain_witness :
  safe_parse_html strict_web cafe_page
  = Some {| get_text := "caf  835 E 14th St"; title := None |}.
Proof.
  rewrite (proj1 (proj2 (proj2 (proj2
             (safe_parse_html_chain strict_web cafe_page)))));
    reflexivity.
Defined.

(** ** The size probe of the fast file *)

(** X10. The size ceiling.  In the fast file a PDF whose size probe
    declares more than 50 * 1024 * 1024 bytes is reported not found,
    whatever its pages hold, and so is one whose probe raises or declares a
    length that is no number; with a declared length up to the ceiling, or
    with none, the pages are checked. *)
Theorem size_ceiling
    (ps : list re) (q : string) (w : Web) (url : string) (n : Z)
    (pages : list (Outcome string)) :
  (session_head w url = Returned (Some (Returned n)) ->
   (52428800 < n)%Z ->
   Fast.check_pdf_content ps q w url = (false, None))
  /\ (session_head w url = Raised ->
      Fast.check_pdf_content ps q w url = (false, None))
  /\ (session_head w url = Returned (Some Raised) ->
      Fast.check_pdf_content ps q w url = (false, None))
  /\ (session_head w url = Returned (Some (Returned n)) ->
      (n <= 52428800)%Z ->
      pdf_reader w url = Returned pages ->
      Fast.check_pdf_content ps q w url = Fast.check_pages ps q pages)
  /\ (session_head w url = Returned None ->
      pdf_reader w url = Returned pages ->
      Fast.check_pdf_content ps q w url = Fast.check_pages ps q pages).
Proof.
  unfold Fast.check_pdf_content, Fast.too_large. repeat split.
  - intros -> Hn. apply Z.ltb_lt in Hn. change (50 * 1024 * 1024)%Z
      with 52428800%Z. now rewrite Hn.
  - now intros ->.
  - now intros ->.
  - intros -> Hn ->. change (50 * 1024 * 1024)%Z with 52428800%Z.
    apply Z.ltb_ge in Hn. now rewrite Hn.
  - now intros -> ->.
Qed.

Lemma size_ceiling_witness :
  Fast.check_pdf_content Fast.compiled_patterns Fast.quick_check
    huge_pdf_web Demo.doc = (false, None)
  /\ Fast.check_pages Fast.compiled_patterns Fast.quick_check
       [Returned "Office: 14735 Juniper St"]
     = (true, Some "14735 Juniper St").
Proof.
  split; [|vm_compute; reflexivity].
  apply (proj1 (size_ceiling Fast.compiled_patterns Fast.quick_check
                  huge_pdf_web Demo.doc 60000000 [])).
  - reflexivity.
  - lia.
Defined.

(** ** is_valid_url *)

Lemma endswith_spec q t :
  Str.endswith q t = true <-> exists a, t = a +:+ q.
Proof.
  induction t as [|c t IH]; simpl.
  - rewrite orb_false_r, String.eqb_eq. split.
    + intros ->. now exists "".
    + intros [a Ha]. destruct a; [now rewrite Ha | discriminate].
  - rewrite orb_true_iff, String.eqb_eq, IH. split.
    + intros [-> | [a ->]]; [now exists "" | now exists (String c a)].
    + intros [[|x a] Ha]; [left; now rewrite Ha|].
      right. injection Ha as _ ->. now exists a.
Qed.

(** The scope test.  A URL is in scope exactly when [urlparse] gives
    it a host that is the host of the base URL, or is empty, or ends in
    .slusd.us, whatever the base URL is; a URL on which [urlparse] raises
    is not in scope. *)
Theorem is_valid_url_scope (w : Web) (c : Crawler) (url : string) :
  (is_valid_url w c url = true <->
   exists netloc,
     urlparse_netloc w url = Returned netloc
     /\ (netloc = domain c \/ netloc = ""
         \/ exists sub, netloc = sub +:+ ".slusd.us"))
  /\ (urlparse_netloc w url = Raised -> is_valid_url w c url = false).
Proof.
  unfold is_valid_url. split.
  - destruct (urlparse_netloc w url) as [|netloc].
    + split; [discriminate | intros [n [Hn _]]; discriminate].
    + rewrite !orb_true_iff, !String.eqb_eq, endswith_spec. split.
      * intros H. exists netloc. split; [reflexivity | tauto].
      * intros [n [[= <-] H]]. tauto.
  - now intros ->.
Qed.

(** ** Iterations that end early *)

Lemma next_url_fresh w st u rest :
  url_queue st = u :: rest -> u ∉ visited_urls (self st) ->
  exists c,
    next_url w st
    = ({| self := c; url_queue := rest;
          pages_crawled := S (pages_crawled st);
          trace := trace st ++ [Popleft u; Crawling u] |}, Some u)
    /\ found_pages c = found_pages (self st)
    /\ found_pdfs c = found_pdfs (self st)
    /\ output_file (files c) = output_file (files (self st))
    /\ visited_urls c = visited_urls (self st) ∪ {[ u ]}.
Proof.
  intros Hq Hv. unfold next_url. rewrite Hq.
  rewrite bool_decide_eq_false_2 by exact Hv.
  eexists. split; [cbn [trace]; rewrite <- app_assoc; reflexivity|].
  destruct (_ =? _)%nat; simpl; auto.
Qed.

(** X11. A PDF fetched as a page.  When the response to the URL at the
    head of the queue declares a content type that holds pdf, in any case
    of letters, the iteration hands the URL to [check_pdf_content] and ends:
    the page is not parsed, no link is followed and nothing is appended to
    the queue.  A finding of type PDF with an empty parent page is recorded
    exactly when the check finds the address. *)
Theorem direct_pdf_is_leaf
    (V : Variant) (w : Web) (st : Loop) (u : string) (rest : list string)
    (html ct : string) :
  url_queue st = u :: rest ->
  u ∉ visited_urls (self st) ->
  get_page_content w u = (Some html, Some ct) ->
  html <> "" -> ct <> "" ->
  Str.contains "pdf" (Str.lower ct) = true ->
  url_queue (iteration V w st) = rest
  /\ trace (iteration V w st)
     = trace st ++ [Popleft u; Crawling u; Get u; CheckPdf u]
  /\ found_pages (self (iteration V w st)) = found_pages (self st)
  /\ match check_pdf V w u with
     | (true, m) =>
         exists r,
           found_pdfs (self (iteration V w st))
           = found_pdfs (self st) ++ [r]
           /\ URL r = u /\ Type_ r = "PDF" /\ Address_Found r = m
           /\ Notes r = "PDF document (direct access)"
           /\ Parent_Page r = ""
     | (false, _) =>
         found_pdfs (self (iteration V w st)) = found_pdfs (self st)
     end.
Proof.
  intros Hq Hv Hg Hh Hc Hp.
  destruct (next_url_fresh w st u rest Hq Hv) as [c [Hn [H1 [H2 [H3 H4]]]]].
  unfold iteration. rewrite Hn. unfold process. rewrite Hg.
  destruct html as [|a html]; [congruence|].
  destruct ct as [|b ct]; [congruence|].
  rewrite Hp. cbn [Str.truthy andb].
  destruct (pdf_effect V w u "PDF document (direct access)" ""
              (emit (Get u)
                 {| self := c; url_queue := rest;
                    pages_crawled := S (pages_crawled st);
                    trace := trace st ++ [Popleft u; Crawling u] |}))
    as [E1 [E2 [_ E3]]].
  split; [rewrite E1; reflexivity|].
  split; [rewrite E2; simpl; now rewrite <- !app_assoc|].
  destruct (check_pdf V w u) as [[] m].
  - destruct E3 as [E3 E4]. split; [rewrite E4; exact H1|].
    eexists. rewrite E3. simpl. rewrite H2. repeat split.
  - rewrite E3. simpl. auto.
Qed.

Lemma direct_pdf_is_leaf_witness :
  url_queue (iteration Baseline.variant (Demo.document_web Demo.ten_pages)
               (start doc_crawler)) = []
  /\ trace (iteration Baseline.variant (Demo.document_web Demo.ten_pages)
              (start doc_crawler))
     = [] ++ [Popleft Demo.doc; Crawling Demo.doc; Get Demo.doc;
              CheckPdf Demo.doc].
Proof.
  destruct (direct_pdf_is_leaf Baseline.variant
              (Demo.document_web Demo.ten_pages) (start doc_crawler)
              Demo.doc [] "%PDF-1.4" "application/pdf")
    as [H1 [H2 _]].
  - reflexivity.
  - apply not_elem_of_empty.
  - vm_compute. reflexivity.
  - discriminate.
  - discriminate.
  - vm_compute. reflexivity.
  - split; [exact H1 | exact H2].
Defined.

(** X12. A page that cannot be parsed.  When no parser accepts the page at
    the head of the queue, the iteration only takes the URL up: nothing is
    recorded, no link is followed and nothing is appended to the queue. *)
Theorem unparsable_page_is_skipped
    (V : Variant) (w : Web) (st : Loop) (u : string) (rest : list string)
    (html : string) (ct : option string) :
  url_queue st = u :: rest ->
  u ∉ visited_urls (self st) ->
  get_page_content w u = (Some html, ct) ->
  html <> "" ->
  match ct with
  | Some t => Str.truthy t && Str.contains "pdf" (Str.lower t)
  | None => false
  end = false ->
  safe_parse_html w html = None ->
  url_queue (iteration V w st) = rest
  /\ trace (iteration V w st) = trace st ++ [Popleft u; Crawling u; Get u]
  /\ found_pages (self (iteration V w st)) = found_pages (self st)
  /\ found_pdfs (self (iteration V w st)) = found_pdfs (self st)
  /\ output_file (files (self (iteration V w st)))
     = output_file (files (self st)).
Proof.
  intros Hq Hv Hg Hh Hc Hp.
  destruct (next_url_fresh w st u rest Hq Hv) as [c [Hn [H1 [H2 [H3 H4]]]]].
  unfold iteration. rewrite Hn. unfold process. rewrite Hg.
  destruct html as [|a html]; [congruence|].
  rewrite Hc, Hp. simpl. rewrite <- !app_assoc. auto.
Qed.

Lemma unparsable_page_is_skipped_witness :
  url_queue (iteration Fast.variant broken_parser_web (start Demo.crawler))
  = []
  /\ found_pages (self (iteration Fast.variant broken_parser_web
                          (start Demo.crawler))) = [].
Proof.
  destruct (unparsable_page_is_skipped Fast.variant broken_parser_web
              (start Demo.crawler) Demo.root [] "<html" (Some "text/html"))
    as [H1 [_ [H2 _]]].
  - reflexivity.
  - apply not_elem_of_empty.
  - vm_compute. reflexivity.
  - discriminate.
  - vm_compute. reflexivity.
  - vm_compute. reflexivity.
  - split; [exact H1 | exact H2].
Defined.

(** ** extract_links *)

Lemma add_links_spec urljoin urlparse base hrefs :
  forall links u,
    u ∈ fold_left (Links.add_link urljoin urlparse base) hrefs links
    <-> u ∈ links
        \/ exists href full parsed,
             href ∈ hrefs /\ urljoin base href = Returned full
             /\ urlparse full = Returned parsed
             /\ u = Links.clean_url parsed.
Proof.
  induction hrefs as [|h hrefs IH]; intros links u; simpl.
  - split; [auto|]. intros [H|[href [full [parsed [H _]]]]]; [exact H|].
    now apply elem_of_nil in H.
  - rewrite IH. unfold Links.add_link. split.
    + intros [H|[href [full [parsed [H1 H2]]]]].
      * destruct (urljoin base h) as [|full] eqn:E1; [auto|].
        destruct (urlparse full) as [|parsed] eqn:E2; [auto|].
        apply elem_of_union in H as [H|H]; [auto|].
        apply elem_of_singleton in H. right. exists h, full, parsed.
        repeat split; auto. now left.
      * right. exists href, full, parsed. split; [now right | exact H2].
    + intros [H|[href [full [parsed [H1 [H2 [H3 H4]]]]]]].
      * left. destruct (urljoin base h) as [|full]; [auto|].
        destruct (urlparse full); [auto|]. apply elem_of_union. now left.
      * apply elem_of_cons in H1 as [->|H1].
        -- left. rewrite H2, H3. apply elem_of_union. right.
           now apply elem_of_singleton.
        -- right. exists href, full, parsed. auto.
Qed.

(** X13. The links of a page.  [extract_links] gives exactly the cleaned
    URLs of the links whose [urljoin] and [urlparse] do not raise: a link
    that raises is left out and the others are kept.  It gives no link when
    the page cannot be parsed or the search for tags raises.  Every URL it
    gives holds ://, after the scheme. *)
Theorem extract_links_spec
    (w : Web) (find_all : Soup -> Outcome (list string))
    (urljoin : string -> string -> Outcome string)
    (urlparse : string -> Outcome Parsed) (html base u : string) :
  (u ∈ Links.extract_links w find_all urljoin urlparse html base <->
   exists soup hrefs href full parsed,
     safe_parse_html w html = Some soup
     /\ find_all soup = Returned hrefs
     /\ href ∈ hrefs
     /\ urljoin base href = Returned full
     /\ urlparse full = Returned parsed
     /\ u = Links.clean_url parsed)
  /\ (safe_parse_html w html = None ->
      Links.extract_links w find_all urljoin urlparse html base = ∅)
  /\ (u ∈ Links.extract_links w find_all urljoin urlparse html base ->
      exists parsed rest, u = scheme parsed +:+ "://" +:+ rest).
Proof.
  assert (Hspec :
    u ∈ Links.extract_links w find_all urljoin urlparse html base <->
    exists soup hrefs href full parsed,
      safe_parse_html w html = Some soup
      /\ find_all soup = Returned hrefs
      /\ href ∈ hrefs
      /\ urljoin base href = Returned full
      /\ urlparse full = Returned parsed
      /\ u = Links.clean_url parsed).
  { unfold Links.extract_links.
    destruct (safe_parse_html w html) as [soup|].
    - destruct (find_all soup) as [|hrefs] eqn:Ef.
      + split; [intros H; now apply not_elem_of_empty in H|].
        intros [s [hs [h [f [p [[= <-] [H _]]]]]]]. congruence.
      + rewrite add_links_spec. split.
        * intros [H|[href [full [parsed H]]]];
            [now apply not_elem_of_empty in H|].
          exists soup, hrefs, href, full, parsed. tauto.
        * intros [s [hs [h [f [p [[= <-] [Hf H]]]]]]].
          rewrite Ef in Hf. injection Hf as <-.
          right. exists h, f, p. exact H.
    - split; [intros H; now apply not_elem_of_empty in H|].
      intros [s [hs [h [f [p [H _]]]]]]. discriminate. }
  split; [exact Hspec|]. split.
  - intros H. unfold Links.extract_links. now rewrite H.
  - intros H. apply Hspec in H as [s [hs [h [f [p [_ [_ [_ [_ [_ ->]]]]]]]]]].
    exists p. eexists. reflexivity.
Qed.

Lemma extract_links_spec_witness :
  "https://www.slusd.us/a"
  ∈ Links.extract_links (Demo.web []) demo_find_all demo_urljoin
      demo_urlparse "<a href=/a>" Demo.root
  /\ Links.extract_links (Demo.web []) demo_find_all demo_urljoin
       demo_urlparse "<a href=/a>" Demo.root
     = {[ "https://www.slusd.us/a" ]}.
Proof.
  split.
  - apply (proj1 (extract_links_spec (Demo.web []) demo_find_all
                    demo_urljoin demo_urlparse "<a href=/a>" Demo.root
                    "https://www.slusd.us/a")).
    exists {| get_text := "<a href=/a>"; title := Some (Some "Page") |},
      ["/a"; "http://[bad"; "/a#top"], "/a#top",
      "https://www.slusd.us/a#top",
      {| scheme := "https"; netloc := "www.slusd.us"; path := "/a";
         query := "" |}.
    repeat split; try reflexivity.
    apply elem_of_cons. right. apply elem_of_cons. right. now left.
  - apply (bool_decide_unpack _). vm_compute. exact I.
Defined.

(** ** The sleeps of a run *)

Lemma sleeps_snoc tr e :
  sleeps (tr ++ [e])
  = sleeps tr ++ match e with Sleep d => [d] | _ => [] end.
Proof. unfold sleeps. rewrite omap_app. now destruct e. Qed.

(** [process] takes no URL up and sleeps at most once, for the delay of the
    variant. *)
Lemma process_sleeps V w u st :
  crawled (trace (process V w u st)) = crawled (trace st)
  /\ (sleeps (trace (process V w u st)) = sleeps (trace st)
      \/ sleeps (trace (process V w u st)) = sleeps (trace st) ++ [delay V]).
Proof.
  split; [apply process_fetched|].
  set (P := fun s : Loop => sleeps (trace s) = sleeps (trace st)).
  assert (Hq : forall e s, (forall d, e <> Sleep d) -> P s -> P (emit e s)).
  { intros e s He H. unfold P in *. simpl. rewrite sleeps_snoc, H.
    destruct e; rewrite ?app_nil_r; auto. now destruct (He milliseconds). }
  assert (Hr : forall url ct m t n pp s,
             ct = "PDF" \/ ct = "HTML Page" ->
             P s -> P (on_self (record_finding w url ct m t n pp) s))
    by (intros; assumption).
  assert (H0 : P (emit (Get u) st)) by (apply Hq; [discriminate | reflexivity]).
  assert (Hp : forall url notes parent s, P s -> P (pdf V w url notes parent s))
    by (intros; apply pdf_preserved; auto; intros; now apply Hq).
  unfold process. fold (emit (Get u) st).
  destruct (get_page_content w u) as [[[|a html]|] ct]; try (left; exact H0).
  match goal with |- context [if ?b then _ else _] => destruct b end;
    [left; now apply Hp|].
  destruct (safe_parse_html w (String a html)) as [soup|]; [|left; exact H0].
  right. cbn [emit trace]. rewrite sleeps_snoc. f_equal.
  apply (links_preserved V w P).
  - intros; now apply Hq.
  - exact Hr.
  - intros link s _ _ _ _ _ H. unfold P in *. simpl.
    now rewrite sleeps_snoc, app_nil_r.
  - destruct (check_text V (get_text soup)) as [[] m]; [|exact H0].
    apply Hr; auto.
Qed.

Lemma sleeps_iterations V w max_pages k :
  forall st,
    Forall (fun d => d = delay V) (sleeps (trace st))
    /\ length (sleeps (trace st)) <= length (crawled (trace st)) ->
    Forall (fun d => d = delay V)
           (sleeps (trace (iterations V w k max_pages st)))
    /\ length (sleeps (trace (iterations V w k max_pages st)))
       <= length (crawled (trace (iterations V w k max_pages st))).
Proof.
  induction k as [|k IH]; intros st H; simpl; auto.
  destruct (loop_condition max_pages st); auto.
  apply IH. destruct H as [H1 H2]. unfold iteration, next_url.
  destruct (url_queue st) as [|u rest]; auto.
  case_bool_decide; simpl.
  - rewrite sleeps_snoc, crawled_snoc, !app_nil_r. auto.
  - match goal with
    | |- context [process V w u ?s] =>
        destruct (process_sleeps V w u s) as [Hc Hs]; rewrite Hc;
        assert (Es : sleeps (trace s) = sleeps (trace st))
          by (simpl; now rewrite !sleeps_snoc, !app_nil_r);
        assert (Ec : length (crawled (trace s))
                     = S (length (crawled (trace st))))
          by (simpl; rewrite !crawled_snoc, app_nil_r, length_app; simpl; lia)
    end.
    rewrite Ec. destruct Hs as [-> | ->]; rewrite Es.
    + split; [exact H1 | lia].
    + split; [apply Forall_app; auto|]. rewrite length_app. simpl. lia.
Qed.

(** Links that lead to no PDF in which the address is found: following
    them records nothing. *)
Lemma links_record_nothing V w cur links :
  forall st,
    (forall link, link ∈ links -> fst (check_pdf V w link) = false) ->
    found_pages (self (fold_left (visit_link V w cur) links st))
    = found_pages (self st)
    /\ found_pdfs (self (fold_left (visit_link V w cur) links st))
       = found_pdfs (self st)
    /\ files (self (fold_left (visit_link V w cur) links st))
       = files (self st).
Proof.
  induction links as [|l links IH]; intros st H; [now repeat split|].
  cbn [fold_left].
  assert (E : self (visit_link V w cur st l) = self st).
  { unfold visit_link.
    destruct (_ && _); [|reflexivity].
    destruct (Str.endswith ".pdf" (Str.lower l)); [|reflexivity].
    unfold pdf. specialize (H l ltac:(left)).
    destruct (check_pdf V w l) as [[] m]; [discriminate | reflexivity]. }
  rewrite <- E. apply IH. intros link Hl. apply H. now right.
Qed.

(** X14. The sleeps of a run.  A run sleeps for the delay of its file only
    (0.5 s in the baseline file, 0.2 s in the fast file), and at most once
    for each URL it takes up.  An iteration whose page is fetched and
    parsed, and in which the address is found neither in the page nor in a
    document that the page links to, records nothing and ends with that
    sleep. *)
Theorem sleeps_of_a_run (V : Variant) (w : Web) (max_pages : nat)
    (c : Crawler) :
  (exists c' evs,
      crawl_site V w max_pages c = Some (c', evs)
      /\ Forall (fun d => d = delay V) (sleeps evs)
      /\ length (sleeps evs) <= length (crawled evs))
  /\ (forall st u rest html ct soup,
        url_queue st = u :: rest ->
        u ∉ visited_urls (self st) ->
        get_page_content w u = (Some html, ct) ->
        html <> "" ->
        match ct with
        | Some t => Str.truthy t && Str.contains "pdf" (Str.lower t)
        | None => false
        end = false ->
        safe_parse_html w html = Some soup ->
        fst (check_text V (get_text soup)) = false ->
        (forall link, link ∈ extract_links w html u ->
                      fst (check_pdf V w link) = false) ->
        found_pages (self (iteration V w st)) = found_pages (self st)
        /\ found_pdfs (self (iteration V w st)) = found_pdfs (self st)
        /\ output_file (files (self (iteration V w st)))
           = output_file (files (self st))
        /\ exists tr, trace (iteration V w st) = tr ++ [Sleep (delay V)])
  /\ delay Baseline.variant = 500%N /\ delay Fast.variant = 200%N.
Proof.
  split; [|split; [|split; reflexivity]].
  - destruct (crawl_site_returns V w max_pages c) as [c' [evs Hrun]].
    exists c', evs. split; [exact Hrun|].
    apply crawl_site_state in Hrun as [st [-> [_ [_ ->]]]].
    apply sleeps_iterations. simpl. split; [constructor | lia].
  - intros st u rest html ct soup Hq Hv Hg Hh Hc Hp Ht Hl.
    destruct (next_url_fresh w st u rest Hq Hv) as [c0 [Hn [F1 [F2 [F3 _]]]]].
    unfold iteration. rewrite Hn. unfold process. rewrite Hg.
    destruct html as [|a html]; [congruence|].
    rewrite Hc, Hp.
    destruct (check_text V (get_text soup)) as [[] m0]; [discriminate|].
    match goal with
    | |- context [fold_left _ _ ?s] =>
        destruct (links_record_nothing V w u
                    (extract_links w (String a html) u) s Hl)
          as [G1 [G2 G3]]
    end.
    cbn [emit self trace]. rewrite G1, G2, G3. cbn [emit self].
    repeat split; auto. eexists. reflexivity.
Qed.

Lemma sleeps_of_a_run_witness :
  found_pages (self (iteration Baseline.variant
                       (Demo.web Demo.site_with_failure) (start Demo.crawler)))
  = []
  /\ exists tr,
       trace (iteration Baseline.variant (Demo.web Demo.site_with_failure)
                (start Demo.crawler)) = tr ++ [Sleep 500].
Proof.
  destruct (proj1 (proj2 (sleeps_of_a_run Baseline.variant
                            (Demo.web Demo.site_with_failure) 10
                            Demo.crawler))
              (start Demo.crawler) Demo.root [] "Welcome"
              (Some "text/html; charset=utf-8")
              {| get_text := "Welcome"; title := Some (Some "Page") |})
    as [H1 [_ [_ H4]]].
  - reflexivity.
  - apply not_elem_of_empty.
  - vm_compute. reflexivity.
  - discriminate.
  - vm_compute. reflexivity.
  - vm_compute. reflexivity.
  - vm_compute. reflexivity.
  - intros link Hl.
    change (link ∈ ["https://www.slusd.us/a"; "https://www.slusd.us/b"]) in Hl.
    apply elem_of_cons in Hl as [-> | Hl]; [vm_compute; reflexivity|].
    apply elem_of_cons in Hl as [-> | Hl]; [vm_compute; reflexivity|].
    now apply elem_of_nil in Hl.
  - split; [exact H1 | exact H4].
Defined.

(** ** Where findings come from *)

Lemma pdf_checked_snoc tr e :
  pdf_checked (tr ++ [e])
  = pdf_checked tr ++ match e with CheckPdf u => [u] | _ => [] end.
Proof. unfold pdf_checked. rewrite omap_app. now destruct e. Qed.

Lemma provenance_weaken fp fd cr ck cr' ck' :
  cr ⊆ cr' -> ck ⊆ ck' ->
  provenance fp fd cr ck -> provenance fp fd cr' ck'.
Proof.
  intros Hc Hk [H1 [H2 H3]]. split; [exact H1|]. split.
  - eapply Forall_impl; [exact H2|]. intros r [Ha [Hb Hd]]. split; auto.
  - eapply Forall_impl; [exact H3|]. intros r [Ha [Hb Hd]].
    split; [exact Ha|]. split; [auto|].
    destruct Hd as [[Hp Hu]|Hp]; [left | right]; auto.
Qed.

Lemma visit_link_cases V w cur st link :
  visit_link V w cur st link = st
  \/ visit_link V w cur st link = enqueue link st
  \/ visit_link V w cur st link = pdf V w link "PDF document (linked)" cur st.
Proof.
  unfold visit_link.
  destruct (_ && _ && _ && _); [|now left].
  destruct (Str.endswith _ _); auto.
Qed.

Lemma provenance_step c0 st st' :
  found_pages (self st') = found_pages (self st) ->
  found_pdfs (self st') = found_pdfs (self st) ->
  crawled (trace st) ⊆ crawled (trace st') ->
  pdf_checked (trace st) ⊆ pdf_checked (trace st') ->
  provenance_inv c0 st -> provenance_inv c0 st'.
Proof.
  intros E1 E2 Hc Hk [pages [pdfs [H1 [H2 H3]]]].
  exists pages, pdfs. rewrite E1, E2. split; [exact H1|].
  split; [exact H2|]. exact (provenance_weaken _ _ _ _ _ _ Hc Hk H3).
Qed.

Lemma provenance_emit c0 e st :
  provenance_inv c0 st -> provenance_inv c0 (emit e st).
Proof.
  apply provenance_step; simpl; try reflexivity.
  - rewrite crawled_snoc. set_solver.
  - rewrite pdf_checked_snoc. set_solver.
Qed.

Lemma provenance_enqueue c0 u st :
  provenance_inv c0 st -> provenance_inv c0 (enqueue u st).
Proof.
  apply provenance_step; simpl; try reflexivity.
  - rewrite crawled_snoc. set_solver.
  - rewrite pdf_checked_snoc. set_solver.
Qed.

(** A PDF that is checked for a page that was taken up. *)
Lemma provenance_pdf V w c0 url notes parent st :
  (parent = "" /\ url ∈ crawled (trace st)) \/ parent ∈ crawled (trace st) ->
  provenance_inv c0 st -> provenance_inv c0 (pdf V w url notes parent st).
Proof.
  intros Hp H.
  destruct (pdf_effect V w url notes parent st) as [_ [E2 [_ E3]]].
  destruct (check_pdf V w url) as [[] m].
  - destruct E3 as [E3 E4].
    destruct H as [pages [pdfs [H1 [H2 [H3 [H4 H5]]]]]].
    exists pages, (pdfs ++ [{| URL := url; Type_ := "PDF"; Title := Some "";
                  Address_Found := m; Notes := notes; Parent_Page := parent;
                  Timestamp := datetime_now w (clock (self st)) |}]).
    rewrite E3, E4, E2, H2, crawled_snoc, pdf_checked_snoc, !app_nil_r.
    split; [exact H1|]. split; [now rewrite <- app_assoc|].
    split; [exact H3|]. split; [exact H4|].
    apply Forall_app. split.
    + eapply Forall_impl; [exact H5|]. intros r [Ha [Hb Hd]].
      split; [exact Ha|]. split; [|exact Hd].
      apply elem_of_app. now left.
    + constructor; [|constructor]. split; [reflexivity|]. split.
      * apply elem_of_app. right. now left.
      * exact Hp.
  - revert H. apply provenance_step.
    + now rewrite E3.
    + now rewrite E3.
    + rewrite E2, crawled_snoc. set_solver.
    + rewrite E2, pdf_checked_snoc. set_solver.
Qed.

(** A page that was taken up and is recorded for the first time. *)
Lemma provenance_page w c0 url m t notes st :
  url ∈ crawled (trace st) ->
  (forall r, r ∈ drop (length (found_pages c0)) (found_pages (self st)) ->
             URL r <> url) ->
  provenance_inv c0 st ->
  provenance_inv c0
    (on_self (record_finding w url "HTML Page" m t notes "") st).
Proof.
  intros Hu Hn [pages [pdfs [H1 [H2 [H3 [H4 H5]]]]]].
  exists (pages ++ [{| URL := url; Type_ := "HTML Page"; Title := t;
                       Address_Found := m; Notes := notes;
                       Parent_Page := "";
                       Timestamp := datetime_now w (clock (self st)) |}]), pdfs.
  cbn [on_self self trace record_finding found_pages found_pdfs].
  change (String.eqb "HTML Page" "PDF") with false. cbn iota.
  rewrite H1. split; [now rewrite <- app_assoc|]. split; [exact H2|].
  split; [|split; [|exact H5]].
  - rewrite map_app. apply NoDup_app. split; [exact H3|]. split.
    + intros x Hx [->|Hf]%elem_of_cons; [|now apply elem_of_nil in Hf].
      apply list_elem_of_fmap in Hx as [r [Er Hr]].
      apply (Hn r); [|now symmetry].
      now rewrite H1, drop_app_length.
    + apply NoDup_singleton.
  - apply Forall_app. split; [exact H4|].
    constructor; [|constructor]. repeat split. exact Hu.
Qed.

Lemma visit_link_trace V w cur st link :
  crawled (trace (visit_link V w cur st link)) = crawled (trace st).
Proof.
  destruct (visit_link_cases V w cur st link) as [-> | [-> | ->]].
  - reflexivity.
  - simpl. now rewrite crawled_snoc, app_nil_r.
  - destruct (pdf_effect V w link "PDF document (linked)" cur st)
      as [_ [E2 _]].
    now rewrite E2, crawled_snoc, app_nil_r.
Qed.

Lemma provenance_links V w c0 cur links :
  forall st,
    cur ∈ crawled (trace st) ->
    provenance_inv c0 st ->
    provenance_inv c0 (fold_left (visit_link V w cur) links st).
Proof.
  induction links as [|link links IH]; intros st Hc H; simpl; [exact H|].
  apply IH; [now rewrite visit_link_trace|].
  destruct (visit_link_cases V w cur st link) as [-> | [-> | ->]].
  - exact H.
  - now apply provenance_enqueue.
  - apply provenance_pdf; [now right | exact H].
Qed.

Lemma provenance_process V w c0 cur st :
  cur ∈ crawled (trace st) ->
  (forall r, r ∈ drop (length (found_pages c0)) (found_pages (self st)) ->
             URL r <> cur) ->
  provenance_inv c0 st -> provenance_inv c0 (process V w cur st).
Proof.
  intros Hc Hn H. unfold process.
  assert (H2 : provenance_inv c0 (emit (Get cur) st))
    by now apply provenance_emit.
  assert (Hc2 : cur ∈ crawled (trace (emit (Get cur) st))).
  { simpl. now rewrite crawled_snoc, app_nil_r. }
  destruct (get_page_content w cur) as [[[|ch html]|] ct]; auto.
  match goal with |- context [if ?b then _ else _] => destruct b end.
  - apply provenance_pdf; [now left | exact H2].
  - destruct (safe_parse_html w (String ch html)) as [soup|]; auto.
    apply provenance_emit. apply provenance_links.
    + now destruct (check_text V (get_text soup)) as [[] m].
    + destruct (check_text V (get_text soup)) as [[] m]; [|exact H2].
      apply provenance_page; assumption.
Qed.

Lemma provenance_iteration V w c0 st :
  (forall u, u ∈ crawled (trace st) -> u ∈ visited_urls (self st)) ->
  provenance_inv c0 st -> provenance_inv c0 (iteration V w st).
Proof.
  intros Hv H. unfold iteration, next_url.
  destruct (url_queue st) as [|cur rest]; [exact H|].
  destruct (bool_decide (cur ∈ visited_urls (self st))) eqn:E.
  - revert H. apply provenance_step; simpl; try reflexivity.
    + rewrite crawled_snoc. set_solver.
    + rewrite pdf_checked_snoc. set_solver.
  - apply bool_decide_eq_false in E.
    assert (Hpg : forall r,
               r ∈ drop (length (found_pages c0)) (found_pages (self st)) ->
               URL r <> cur).
    { intros r Hr Er. apply E, Hv. rewrite <- Er.
      destruct H as [pages [pdfs [H1 [_ [_ [H4 _]]]]]].
      rewrite H1, drop_app_length in Hr.
      rewrite Forall_forall in H4. now destruct (H4 r Hr). }
    apply provenance_process.
    + cbn [trace]. rewrite !crawled_snoc, app_nil_r.
      apply elem_of_app. right. now left.
    + cbn [self]. now destruct (_ =? _)%nat.
    + revert H. apply provenance_step; cbn [self trace].
      * now destruct (_ =? _)%nat.
      * now destruct (_ =? _)%nat.
      * rewrite !crawled_snoc. set_solver.
      * rewrite !pdf_checked_snoc. set_solver.
Qed.

Lemma frontier_iteration V w c0 st :
  frontier_inv c0 st -> frontier_inv c0 (iteration V w st).
Proof.
  apply iteration_preserved.
  - intros. now apply frontier_quiet.
  - intros. now apply frontier_quiet.
  - intros. now apply frontier_quiet.
  - intros. now apply frontier_record.
  - intros. now apply frontier_enqueue.
  - intros. now apply frontier_next.
Qed.

Lemma provenance_iterations V w c0 max_pages k :
  forall st,
    frontier_inv c0 st -> provenance_inv c0 st ->
    provenance_inv c0 (iterations V w k max_pages st).
Proof.
  induction k as [|k IH]; intros st Hf H; simpl; [exact H|].
  destruct (loop_condition max_pages st); [|exact H].
  apply IH; [now apply frontier_iteration|].
  apply provenance_iteration; [|exact H].
  intros u Hu. now destruct (fi_crawled _ _ Hf u Hu).
Qed.

Lemma provenance_start c0 : provenance_inv c0 (start c0).
Proof.
  exists [], []. simpl. rewrite !app_nil_r. repeat split; constructor.
Qed.

(** X15. Where findings come from.  A run of [crawl_site] ends, and of
    what it has added to its two lists: every finding of a page is of a URL
    that the run took up, has no parent page, and no two are of the same
    URL; every finding of a PDF is of a URL that the run handed to
    [check_pdf_content], and either has no parent page and is of a URL that
    the run took up, or has a page that the run took up as parent page. *)
Theorem findings_provenance (V : Variant) (w : Web) (max_pages : nat)
    (c : Crawler) :
  exists c' evs pages pdfs,
    crawl_site V w max_pages c = Some (c', evs)
    /\ found_pages c' = found_pages c ++ pages
    /\ found_pdfs c' = found_pdfs c ++ pdfs
    /\ NoDup (map URL pages)
    /\ Forall (fun r => URL r ∈ crawled evs /\ Parent_Page r = ""
                        /\ Type_ r = "HTML Page") pages
    /\ Forall (fun r => Type_ r = "PDF" /\ URL r ∈ pdf_checked evs
                        /\ ((Parent_Page r = "" /\ URL r ∈ crawled evs)
                            \/ Parent_Page r ∈ crawled evs)) pdfs.
Proof.
  destruct (crawl_site_returns V w max_pages c) as [c' [evs Hrun]].
  apply crawl_site_state in Hrun as Hst.
  destruct Hst as [st [Est [_ [-> ->]]]].
  destruct (provenance_iterations V w c max_pages (S max_pages) (start c)
              (frontier_start c) (provenance_start c))
    as [pages [pdfs [H1 [H2 [H3 [H4 H5]]]]]].
  rewrite <- Est in H1, H2, H4, H5.
  do 2 eexists. exists pages, pdfs. split; [exact Hrun|].
  split; [exact H1|]. split; [exact H2|]. split; [exact H3|].
  split; [exact H4 | exact H5].
Qed.

(** ** The summary *)

Lemma enumerate_length {A} (l : list A) :
  forall i, length (Summary.enumerate i l) = length l.
Proof. induction l as [|x l IH]; intros i; simpl; auto. Qed.

Lemma head_length ps file c : length (Summary.head ps file c) = 8 + length ps.
Proof.
  unfold Summary.head. rewrite !length_app, length_map, enumerate_length.
  simpl. lia.
Qed.

Lemma head_counts ps file c :
  Summary.head ps file c !! (4 + length ps)
  = Some ("Total pages crawled: " +:+ Summary.str (size (visited_urls c)))
  /\ Summary.head ps file c !! (5 + length ps)
     = Some ("HTML pages with address: "
             +:+ Summary.str (length (found_pages c)))
  /\ Summary.head ps file c !! (6 + length ps)
     = Some ("PDFs with address: " +:+ Summary.str (length (found_pdfs c))).
Proof.
  unfold Summary.head.
  repeat split.
  - rewrite lookup_app_r by (simpl; lia).
    rewrite lookup_app_r by (rewrite length_map, enumerate_length; simpl; lia).
    rewrite length_map, enumerate_length.
    replace (4 + length ps - length _ - length ps) with 0 by (simpl; lia).
    reflexivity.
  - rewrite lookup_app_r by (simpl; lia).
    rewrite lookup_app_r by (rewrite length_map, enumerate_length; simpl; lia).
    rewrite length_map, enumerate_length.
    replace (5 + length ps - length _ - length ps) with 1 by (simpl; lia).
    reflexivity.
  - rewrite lookup_app_r by (simpl; lia).
    rewrite lookup_app_r by (rewrite length_map, enumerate_length; simpl; lia).
    rewrite length_map, enumerate_length.
    replace (6 + length ps - length _ - length ps) with 2 by (simpl; lia).
    reflexivity.
Qed.

(** A run of [main] that is not interrupted ends; when it has a crawler,
    the crawl has returned, and the crawler's counts are those of its
    checkpoint. *)
Lemma main_completed V w fs :
  exists r,
    main V w fs None = Some r
    /\ match crawler r with
       | Some c =>
           exit r = Completed
           /\ exists p,
                progress_file (files c) = Some (progress_text p)
                /\ Current_URL p = "COMPLETED"
                /\ size (visited_urls c) = Pages_crawled p
                /\ length (found_pages c) = Found_pages p
                /\ length (found_pdfs c) = Found_PDFs p
       | None =>
           SLUSDCrawler w "https://www.slusd.us" fs = Raised
           /\ exit r = Traceback
       end.
Proof.
  unfold main.
  destruct (SLUSDCrawler w "https://www.slusd.us" fs) as [|c0] eqn:Ec.
  { eexists. split; [reflexivity|]. now split. }
  assert (Hv : visited_urls c0 = ∅).
  { unfold SLUSDCrawler in Ec.
    destruct (urlparse_netloc w _); [discriminate|]. now injection Ec as <-. }
  destruct (crawl_site_returns V w (main_max_pages V) c0) as [c' [evs Hrun]].
  rewrite Hrun. cbn [mbind option_bind].
  eexists. split; [reflexivity|]. cbn [crawler exit].
  split; [reflexivity|].
  pose proof (count_iterations V w (main_max_pages V)
                (S (main_max_pages V)) c0) as [H1 _].
  apply crawl_site_state in Hrun as [st [Est [_ [-> ->]]]].
  rewrite <- Est in H1.
  eexists. split; [reflexivity|].
  cbn [Current_URL Pages_crawled Found_pages Found_PDFs progress
       save_progress visited_urls found_pages found_pdfs].
  repeat split. rewrite H1, Hv. now rewrite size_empty.
Qed.

(** X16. The summary and the checkpoint.  A run of [main] that is not
    interrupted ends.  When its constructor raises, it ends with the
    traceback and prints no summary.  Otherwise the crawl returns, and what
    [main] prints is the summary of the crawler that the crawl leaves; the
    progress file holds the five lines of a checkpoint that says COMPLETED,
    and the three counts of the summary, which follow the numbered
    patterns, are the counts of pages, of findings of pages and of findings
    of PDFs of that checkpoint. *)
Theorem summary_agrees_with_checkpoint (w : Web) (fs : Files) :
  (exists r,
      main Baseline.variant w fs None = Some r
      /\ match crawler r with
         | Some c =>
             exit r = Completed
             /\ main_prints BaselineSummary.print_summary r
                = BaselineSummary.print_summary c
             /\ exists p,
                  progress_file (files c) = Some (progress_text p)
                  /\ Current_URL p = "COMPLETED"
                  /\ BaselineSummary.print_summary c !! 11
                     = Some ("Total pages crawled: "
                             +:+ Summary.str (Pages_crawled p))
                  /\ BaselineSummary.print_summary c !! 12
                     = Some ("HTML pages with address: "
                             +:+ Summary.str (Found_pages p))
                  /\ BaselineSummary.print_summary c !! 13
                     = Some ("PDFs with address: "
                             +:+ Summary.str (Found_PDFs p))
         | None =>
             SLUSDCrawler w "https://www.slusd.us" fs = Raised
             /\ exit r = Traceback
             /\ main_prints BaselineSummary.print_summary r = []
         end)
  /\ (exists r,
      main Fast.variant w fs None = Some r
      /\ match crawler r with
         | Some c =>
             exit r = Completed
             /\ main_prints FastSummary.print_summary r
                = FastSummary.print_summary c
             /\ exists p,
                  progress_file (files c) = Some (progress_text p)
                  /\ Current_URL p = "COMPLETED"
                  /\ FastSummary.print_summary c !! 11
                     = Some ("Total pages crawled: "
                             +:+ Summary.str (Pages_crawled p))
                  /\ FastSummary.print_summary c !! 12
                     = Some ("HTML pages with address: "
                             +:+ Summary.str (Found_pages p))
                  /\ FastSummary.print_summary c !! 13
                     = Some ("PDFs with address: "
                             +:+ Summary.str (Found_PDFs p))
         | None =>
             SLUSDCrawler w "https://www.slusd.us" fs = Raised
             /\ exit r = Traceback
             /\ main_prints FastSummary.print_summary r = []
         end).
Proof.
  split.
  - destruct (main_completed Baseline.variant w fs) as [r [Hr H]].
    exists r. split; [exact Hr|].
    destruct (crawler r) as [c|] eqn:Hc.
    + destruct H as [He [p [H1 [H2 [H3 [H4 H5]]]]]].
      split; [exact He|].
      split; [unfold main_prints; now rewrite Hc, He|].
      exists p. split; [exact H1|]. split; [exact H2|].
      destruct (head_counts Baseline.address_patterns
                  BaselineSummary.output_file c) as [G1 [G2 G3]].
      rewrite <- H3, <- H4, <- H5. unfold BaselineSummary.print_summary.
      rewrite !lookup_app_l by (rewrite head_length; simpl; lia).
      repeat split; assumption.
    + destruct H as [H1 H2]. repeat split; auto.
      unfold main_prints. now rewrite Hc.
  - destruct (main_completed Fast.variant w fs) as [r [Hr H]].
    exists r. split; [exact Hr|].
    destruct (crawler r) as [c|] eqn:Hc.
    + destruct H as [He [p [H1 [H2 [H3 [H4 H5]]]]]].
      split; [exact He|].
      split; [unfold main_prints; now rewrite Hc, He|].
      exists p. split; [exact H1|]. split; [exact H2|].
      destruct (head_counts Fast.address_patterns
                  FastSummary.output_file c) as [G1 [G2 G3]].
      rewrite <- H3, <- H4, <- H5. unfold FastSummary.print_summary.
      rewrite !lookup_app_l by (rewrite head_length; simpl; lia).
      repeat split; assumption.
    + destruct H as [H1 H2]. repeat split; auto.
      unfold main_prints. now rewrite Hc.
Qed.

Lemma summary_agrees_with_checkpoint_witness :
  exists r c p,
    main Baseline.variant (Demo.web Demo.site_with_failure) Demo.no_files None
    = Some r
    /\ crawler r = Some c
    /\ progress_file (files c) = Some (progress_text p)
    /\ BaselineSummary.print_summary c !! 11
       = Some ("Total pages crawled: " +:+ Summary.str (Pages_crawled p))
    /\ BaselineSummary.print_summary c !! 11
       = Some "Total pages crawled: 3".
Proof.
  destruct (proj1 (summary_agrees_with_checkpoint
                     (Demo.web Demo.site_with_failure) Demo.no_files))
    as [r [Hr H]].
  assert (E : exists c, crawler r = Some c
                        /\ BaselineSummary.print_summary c !! 11
                           = Some "Total pages crawled: 3").
  { vm_compute in Hr. injection Hr as <-. eexists. split; reflexivity. }
  destruct E as [c [Hc E]]. rewrite Hc in H.
  destruct H as [_ [_ [p [H1 [_ [H3 _]]]]]].
  exists r, c, p. repeat split; assumption.
Defined.

(** ** The two summaries *)

Lemma numbered_once i s :
  twice_linked_from (Summary.str i +:+ ". " +:+ s)
  = [Summary.str i +:+ ". " +:+ s].
Proof.
  unfold twice_linked_from, Summary.str.
  now destruct (Nat.to_uint i).
Qed.

Lemma linked_from_twice pdf :
  flat_map twice_linked_from (Summary.linked_from pdf)
  = Summary.linked_from pdf ++ Summary.linked_from pdf.
Proof.
  unfold Summary.linked_from. now destruct (Str.truthy (Parent_Page pdf)).
Qed.

Lemma page_entry_once e :
  flat_map twice_linked_from (Summary.page_entry e) = Summary.page_entry e.
Proof.
  destruct e as [i page]. unfold Summary.page_entry.
  cbn [flat_map app]. rewrite numbered_once.
  destruct (Title page) as [t|]; [|reflexivity].
  now destruct (Str.truthy t).
Qed.

Lemma pdf_entry_twice e :
  BaselineSummary.pdf_entry e
  = flat_map twice_linked_from (FastSummary.pdf_entry e).
Proof.
  destruct e as [i pdf].
  unfold BaselineSummary.pdf_entry, FastSummary.pdf_entry.
  cbn [flat_map app]. rewrite numbered_once, linked_from_twice.
  reflexivity.
Qed.

Lemma page_entries_once (l : list (nat * Result)) :
  flat_map twice_linked_from (flat_map Summary.page_entry l)
  = flat_map Summary.page_entry l.
Proof.
  induction l as [|e l IH]; [reflexivity|].
  cbn [flat_map]. now rewrite flat_map_app, page_entry_once, IH.
Qed.

Lemma pdf_entries_twice (l : list (nat * Result)) :
  flat_map BaselineSummary.pdf_entry l
  = flat_map twice_linked_from (flat_map FastSummary.pdf_entry l).
Proof.
  induction l as [|e l IH]; [reflexivity|].
  cbn [flat_map]. now rewrite flat_map_app, <- pdf_entry_twice, IH.
Qed.

Lemma linked_from_length pdf :
  length (Summary.linked_from pdf)
  = if Str.truthy (Parent_Page pdf) then 1 else 0.
Proof.
  unfold Summary.linked_from. now destruct (Str.truthy (Parent_Page pdf)).
Qed.

Lemma pdf_entries_length (l : list Result) :
  forall i,
    length (flat_map BaselineSummary.pdf_entry (Summary.enumerate i l))
    = length (flat_map FastSummary.pdf_entry (Summary.enumerate i l))
      + length (List.filter (fun r => Str.truthy (Parent_Page r)) l).
Proof.
  induction l as [|pdf l IH]; intros i; [reflexivity|].
  cbn [Summary.enumerate flat_map List.filter]. rewrite !length_app, IH.
  unfold BaselineSummary.pdf_entry, FastSummary.pdf_entry.
  rewrite !length_app, linked_from_length.
  destruct (Str.truthy (Parent_Page pdf)); simpl; lia.
Qed.

(** X17. The two summaries.  After its first fifteen lines, which name the
    patterns, the counts and the findings file, the summary of
    web_crawler_regex.py is the summary of web_crawler_regex_fast_juniper.py
    of the same crawler with every line that names a parent page printed
    twice; it is longer by one line for each finding of a PDF with a parent
    page. *)
Theorem linked_from_printed_twice (c : Crawler) :
  drop 15 (BaselineSummary.print_summary c)
  = flat_map twice_linked_from (drop 15 (FastSummary.print_summary c))
  /\ length (BaselineSummary.print_summary c)
     = length (FastSummary.print_summary c)
       + length (List.filter (fun r => Str.truthy (Parent_Page r)) (found_pdfs c)).
Proof.
  unfold BaselineSummary.print_summary, FastSummary.print_summary. split.
  - rewrite !drop_app_length' by (rewrite head_length; reflexivity).
    rewrite flat_map_app. f_equal.
    + unfold Summary.pages_block. destruct (found_pages c); [reflexivity|].
      cbn [flat_map]. now rewrite page_entries_once.
    + unfold Summary.pdfs_block. destruct (found_pdfs c); [reflexivity|].
      cbn [flat_map]. now rewrite <- pdf_entries_twice.
  - rewrite !length_app, !head_length.
    change (length Baseline.address_patterns) with 7.
    change (length Fast.address_patterns) with 7.
    unfold Summary.pdfs_block.
    destruct (found_pdfs c) as [|pdf l] eqn:E; [simpl; lia|].
    cbn [length]. rewrite pdf_entries_length. lia.
Qed.

(** ** The encoding that a header names *)

Lemma rev_app_spec s :
  forall acc, String.rev_app s acc = String.rev s +:+ acc.
Proof.
  unfold String.rev. induction s as [|c s IH]; intros acc; [reflexivity|].
  cbn [String.rev_app].
  rewrite (IH (String c acc)), (IH (String c "")), app_assoc_s. reflexivity.
Qed.

Lemma rev_cons c s : String.rev (String c s) = String.rev s +:+ String c "".
Proof. unfold String.rev at 1. cbn [String.rev_app]. apply rev_app_spec. Qed.

Lemma rev_app_s a b : String.rev (a +:+ b) = String.rev b +:+ String.rev a.
Proof.
  induction a as [|c a IH].
  - change (String.rev "") with "". now rewrite app_empty_r.
  - change (String c a +:+ b) with (String c (a +:+ b)).
    now rewrite !rev_cons, IH, app_assoc_s.
Qed.

Lemma rev_involutive_s s : String.rev (String.rev s) = s.
Proof.
  induction s as [|c s IH]; [reflexivity|].
  now rewrite rev_cons, rev_app_s, IH.
Qed.

Lemma lstrip_head s : no_leading_space (Str.lstrip s) = true.
Proof.
  induction s as [|c s IH]; [reflexivity|]. cbn [Str.lstrip].
  destruct (Str.is_space c) eqn:E; [exact IH|].
  cbn [no_leading_space]. now rewrite E.
Qed.

Lemma lstrip_suffix s : exists p, s = p +:+ Str.lstrip s.
Proof.
  induction s as [|c s [p IH]]; [now exists ""|]. cbn [Str.lstrip].
  destruct (Str.is_space c); [|now exists ""].
  exists (String c p). cbn [String.append]. now rewrite <- IH.
Qed.

(** [s.strip()] is a part of [s] that neither begins nor ends with a
    character that it removes. *)
Lemma strip_spec s :
  Str.Substring (Str.strip s) s
  /\ no_leading_space (Str.strip s) = true
  /\ no_leading_space (String.rev (Str.strip s)) = true.
Proof.
  unfold Str.strip.
  destruct (lstrip_suffix s) as [p Hp].
  destruct (lstrip_suffix (String.rev (Str.lstrip s))) as [q Hq].
  pose proof (lstrip_head s) as Hs.
  pose proof (lstrip_head (String.rev (Str.lstrip s))) as Hr.
  set (X := Str.lstrip (String.rev (Str.lstrip s))) in *.
  assert (HL : Str.lstrip s = String.rev X +:+ String.rev q).
  { rewrite <- (rev_involutive_s (Str.lstrip s)), Hq. apply rev_app_s. }
  split; [|split].
  - exists p, (String.rev q). now rewrite <- HL.
  - rewrite HL in Hs. now destruct (String.rev X).
  - now rewrite rev_involutive_s.
Qed.

Lemma drop_prefix_spec sep :
  forall t,
    match Str.drop_prefix sep t with
    | Some r => t = sep +:+ r
    | None => Str.startswith sep t = false
    end.
Proof.
  induction sep as [|a sep IH]; intros t; [reflexivity|].
  destruct t as [|b t]; [reflexivity|].
  cbn [Str.drop_prefix Str.startswith].
  destruct (Ascii.eqb a b) eqn:E; [|reflexivity].
  apply Ascii.eqb_eq in E as ->. specialize (IH t).
  destruct (Str.drop_prefix sep t); [now rewrite IH | exact IH].
Qed.

Lemma partition_unfold sep t :
  Str.partition sep t
  = match Str.drop_prefix sep t with
    | Some r => (EmptyString, Some r)
    | None =>
        match t with
        | EmptyString => (EmptyString, None)
        | String x t' =>
            let '(a, b) := Str.partition sep t' in (String x a, b)
        end
    end.
Proof. now destruct t. Qed.

(** [t.partition(sep)] splits [t]; without a [sep] in it, [t] comes back. *)
Lemma partition_spec sep t :
  match Str.partition sep t with
  | (a, Some r) => t = a +:+ sep +:+ r
  | (a, None) => a = t /\ Str.contains sep t = false
  end.
Proof.
  induction t as [|x t IH]; rewrite partition_unfold.
  - pose proof (drop_prefix_spec sep "") as H.
    destruct (Str.drop_prefix sep ""); [exact H|].
    split; [reflexivity|]. cbn [Str.contains]. now rewrite H.
  - pose proof (drop_prefix_spec sep (String x t)) as H.
    destruct (Str.drop_prefix sep (String x t)); [exact H|].
    destruct (Str.partition sep t) as [a [r|]].
    + cbn [String.append]. now rewrite <- IH.
    + destruct IH as [-> IH]. split; [reflexivity|].
      cbn [Str.contains]. now rewrite H, IH.
Qed.

Lemma partition_prefix sep t : exists b, t = fst (Str.partition sep t) +:+ b.
Proof.
  pose proof (partition_spec sep t) as H.
  destruct (Str.partition sep t) as [a [r|]]; cbn [fst].
  - now exists (sep +:+ r).
  - destruct H as [-> _]. exists "". now rewrite app_empty_r.
Qed.

(** The text before the first [sep] holds no [sep]. *)
Lemma partition_free sep t :
  Str.truthy sep = true ->
  Str.contains sep (fst (Str.partition sep t)) = false.
Proof.
  intros Hsep.
  assert (H0 : Str.contains sep "" = false) by now destruct sep.
  induction t as [|x t IH]; rewrite partition_unfold.
  - now destruct (Str.drop_prefix sep "").
  - pose proof (drop_prefix_spec sep (String x t)) as H.
    destruct (Str.drop_prefix sep (String x t)); [exact H0|].
    destruct (partition_prefix sep t) as [b Hb].
    destruct (Str.partition sep t) as [a r]. cbn [fst] in *.
    cbn [Str.contains]. rewrite IH, orb_false_r.
    destruct (Str.startswith sep (String x a)) eqn:E; [|reflexivity].
    apply startswith_spec in E as [y Hy].
    assert (Str.startswith sep (String x t) = true); [|congruence].
    apply startswith_spec. exists (y +:+ b).
    rewrite <- app_assoc_s, <- Hy, Hb. reflexivity.
Qed.

(** A text on which no [sep] begins before the end of [a]. *)
Lemma partition_app sep t a :
  (forall p c s, a = p +:+ String c s ->
                 Str.startswith sep (String c s +:+ t) = false) ->
  Str.partition sep (a +:+ t)
  = (a +:+ fst (Str.partition sep t), snd (Str.partition sep t)).
Proof.
  induction a as [|x a IH]; intros H.
  - change ("" +:+ t) with t. now destruct (Str.partition sep t).
  - change (String x a +:+ t) with (String x (a +:+ t)).
    rewrite partition_unfold.
    pose proof (drop_prefix_spec sep (String x (a +:+ t))) as Hd.
    destruct (Str.drop_prefix sep (String x (a +:+ t))) as [r|].
    + apply (f_equal (fun u => Str.startswith sep u)) in Hd.
      pose proof (H "" x a eq_refl) as H0.
      change (String x a +:+ t) with (String x (a +:+ t)) in H0.
      rewrite H0 in Hd. symmetry in Hd.
      assert (Str.startswith sep (sep +:+ r) = true)
        by (apply startswith_spec; now exists r).
      congruence.
    + rewrite IH; [reflexivity|].
      intros p c s ->. now apply (H (String x p) c s).
Qed.

Lemma startswith_long q :
  forall x y,
    String.length q <= String.length x ->
    Str.startswith q (x +:+ y) = Str.startswith q x.
Proof.
  induction q as [|a q IH]; intros x y H; [reflexivity|].
  destruct x as [|b x]; [simpl in H; lia|].
  cbn [String.append Str.startswith]. f_equal. apply IH.
  simpl in H. lia.
Qed.

Lemma startswith_at q :
  forall x ch y,
    Str.startswith q (x +:+ String ch y) = true ->
    Str.startswith q x = true \/ Str.contains (String ch "") q = true.
Proof.
  induction q as [|a q IH]; intros x ch y H; [now left|].
  destruct x as [|b x].
  - right. cbn [String.append Str.startswith] in H.
    apply andb_prop in H as [H _]. apply Ascii.eqb_eq in H as ->.
    cbn [Str.contains Str.startswith]. now rewrite Ascii.eqb_refl.
  - cbn [String.append Str.startswith] in H.
    apply andb_prop in H as [H1 H2].
    destruct (IH x ch y H2) as [H3|H3].
    + left. cbn [Str.startswith]. now rewrite H1, H3.
    + right. cbn [Str.contains]. rewrite H3. apply orb_true_r.
Qed.

Lemma startswith_contains q t :
  Str.startswith q t = true -> Str.contains q t = true.
Proof. intros H. destruct t; cbn [Str.contains]; now rewrite H. Qed.

Lemma contains_suffix q p t :
  Str.contains q (p +:+ t) = false -> Str.contains q t = false.
Proof.
  rewrite !contains_false. intros H [a [b Hab]]. apply H.
  exists (p +:+ a), b. now rewrite Hab, app_assoc_s.
Qed.

Lemma prefix_substring x b : Str.Substring x (x +:+ b).
Proof. now exists "", b. Qed.

Lemma suffix_substring a x : Str.Substring x (a +:+ x).
Proof. exists a, "". now rewrite app_empty_r. Qed.

Lemma partition_clean sep v :
  Str.contains sep v = false -> fst (Str.partition sep v) = v.
Proof.
  intros H. pose proof (partition_spec sep v) as P.
  destruct (Str.partition sep v) as [x [r|]]; [|now destruct P].
  assert (Str.contains sep v = true); [|congruence].
  apply contains_spec. now exists x, r.
Qed.

(** X18. The encoding that a header names.  [get_page_content] sets an
    encoding exactly when the header holds [charset=], in this case of
    letters; the encoding is then a part of the header that holds no
    semicolon and neither begins nor ends with white space.  For a header
    in which the first [charset=] is followed by a value that holds neither
    a semicolon nor another [charset=], and then ends or goes on with a
    semicolon, the encoding is that value without the white space
    around it. *)
Theorem charset_extraction (ct : string) :
  (charset ct = None <-> Str.contains "charset=" ct = false)
  /\ (forall e, charset ct = Some e ->
        Str.Substring e ct /\ Str.contains ";" e = false
        /\ no_leading_space e = true
        /\ no_leading_space (String.rev e) = true)
  /\ (forall a v tail,
        ct = a +:+ "charset=" +:+ v +:+ tail ->
        Str.contains "charset=" (a +:+ "charset") = false ->
        Str.contains "charset=" v = false ->
        Str.contains ";" v = false ->
        tail = "" \/ Str.startswith ";" tail = true ->
        charset ct = Some (Str.strip v)).
Proof.
  split; [|split].
  - unfold charset. pose proof (partition_spec "charset=" ct) as H.
    destruct (Str.partition "charset=" ct) as [a [r|]].
    + split; [discriminate|]. intros Hc.
      assert (Str.contains "charset=" ct = true); [|congruence].
      apply contains_spec. now exists a, r.
    + destruct H as [_ H]. now split.
  - intros e He. unfold charset in He.
    pose proof (partition_spec "charset=" ct) as H.
    destruct (Str.partition "charset=" ct) as [a [r|]]; [|discriminate].
    injection He as <-.
    destruct (partition_prefix "charset=" r) as [b1 H1].
    destruct (partition_prefix ";" (fst (Str.partition "charset=" r)))
      as [b2 H2].
    pose proof (partition_free ";" (fst (Str.partition "charset=" r))
                  eq_refl) as F.
    set (P := fst (Str.partition "charset=" r)) in *.
    set (inner := fst (Str.partition ";" P)) in *.
    destruct (strip_spec inner) as [S1 [S2 S3]].
    split; [|split; [|split]]; [| |exact S2|exact S3].
    + apply (substring_trans _ _ _ S1).
      apply (substring_trans _ P); [rewrite H2; apply prefix_substring|].
      apply (substring_trans _ r); [rewrite H1; apply prefix_substring|].
      rewrite H, <- app_assoc_s. apply suffix_substring.
    + apply contains_false. intros Hs. apply contains_false in F.
      apply F. exact (substring_trans _ _ _ Hs S1).
  - intros a v tail -> H1 H2 H3 H4. unfold charset.
    rewrite (partition_app "charset=" ("charset=" +:+ v +:+ tail) a).
    2:{ intros p c s ->. rewrite app_assoc_s in H1.
        apply contains_suffix in H1.
        destruct (Str.startswith "charset=" _) eqn:E; [|reflexivity].
        replace (String c s +:+ "charset=" +:+ v +:+ tail)
          with ((String c s +:+ "charset") +:+ ("=" +:+ v +:+ tail)) in E
          by (now rewrite app_assoc_s).
        rewrite startswith_long in E
          by (rewrite length_app_s; simpl; lia).
        apply startswith_contains in E. congruence. }
    assert (HP : Str.partition "charset=" ("charset=" +:+ v +:+ tail)
                 = ("", Some (v +:+ tail)))
      by (now rewrite partition_unfold).
    rewrite HP. cbn [fst snd]. f_equal. f_equal.
    assert (Q : forall rest p c s,
               v = p +:+ String c s ->
               (rest = "" \/ exists ch y, rest = String ch y
                   /\ Str.contains (String ch "") "charset=" = false) ->
               Str.startswith "charset=" (String c s +:+ rest) = false).
    { intros rest p c s -> Hr. apply contains_suffix in H2.
      destruct (Str.startswith "charset=" _) eqn:E; [|reflexivity].
      destruct Hr as [-> | [ch [y [-> Hch]]]].
      - rewrite app_empty_r in E. apply startswith_contains in E. congruence.
      - apply startswith_at in E as [E|E]; [|congruence].
        apply startswith_contains in E. congruence. }
    destruct H4 as [-> | H4].
    + rewrite (partition_app "charset=" "" v)
        by (intros p c s Hv; apply (Q "" p c s Hv); now left).
      change (fst (Str.partition "charset=" "")) with "".
      cbn [fst]. rewrite app_empty_r. now apply partition_clean.
    + apply startswith_spec in H4 as [rest ->].
      change (";" +:+ rest) with (String ";" rest).
      rewrite (partition_app "charset=" (String ";" rest) v)
        by (intros p c s Hv; apply (Q _ p c s Hv); right;
            now exists ";"%char, rest).
      assert (HT : fst (Str.partition "charset=" (String ";" rest))
                   = String ";" (fst (Str.partition "charset=" rest))).
      { rewrite partition_unfold. cbn [Str.drop_prefix Ascii.eqb].
        cbn. now destruct (Str.partition "charset=" rest). }
      cbn [fst]. rewrite HT.
      rewrite (partition_app ";" (String ";" _) v).
      2:{ intros p c s ->. apply contains_suffix in H3.
          cbn [String.append Str.startswith].
          destruct (Ascii.eqb ";" c) eqn:E; [|reflexivity].
          apply Ascii.eqb_eq in E as <-.
          cbn [Str.contains Str.startswith] in H3.
          rewrite Ascii.eqb_refl in H3. discriminate. }
      rewrite partition_unfold. cbn [Str.drop_prefix].
      rewrite Ascii.eqb_refl. cbn [fst]. apply app_empty_r.
Qed.

Lemma charset_extraction_witness :
  charset "text/html; charset= utf-8 ; q=1" = Some "utf-8".
Proof.
  apply (proj2 (proj2 (charset_extraction "text/html; charset= utf-8 ; q=1"))
           "text/html; " " utf-8 " "; q=1"); try reflexivity.
  now right.
Defined.
